(** * Verification of the portfolio allocator [scraper.py]

    The development embeds the functions of [scraper.py] over a model of
    Python's [decimal.Decimal] arithmetic in the default context
    (precision 28, ROUND_HALF_EVEN) and of insertion-ordered dictionaries,
    and proves the properties of the aggregation and distribution steps. *)

From Stdlib Require Import ZArith QArith Qpower Lia Lqa List String Bool.
From Stdlib Require Import Permutation Ascii Qminmax.
Import ListNotations.
Local Open Scope Z_scope.

(** ** Exceptions and the error monad *)

Inductive exn : Set :=
| KeyError (key : string)
| IndexError
| StopIteration
| DivisionByZero          (* decimal.DivisionByZero: x / 0 with x <> 0 *)
| InvalidOperation        (* decimal.InvalidOperation: 0 / 0, unparsable text,
                             an operation on sNaN, Inf - Inf, 0 * Inf, Inf / Inf,
                             an ordering of NaN *)
| Overflow.               (* decimal.Overflow: a result above Emax *)

Inductive result (A : Type) : Type :=
| Ok (a : A)
| Raise (e : exn).
Arguments Ok {A} a.
Arguments Raise {A} e.

Definition bind {A B : Type} (m : result A) (k : A -> result B) : result B :=
  match m with
  | Ok a => k a
  | Raise e => Raise e
  end.

Notation "x <- m ;; k" := (bind m (fun x => k))
  (at level 61, m at next level, right associativity).

Definition raises {A : Type} (m : result A) : bool :=
  match m with Ok _ => false | Raise _ => true end.

(** A failure caused by a zero divisor: Python raises [DivisionByZero] for
    [x / 0] with [x <> 0] and [InvalidOperation] (DivisionUndefined) for
    [0 / 0]. *)
Definition zero_division {A : Type} (m : result A) : bool :=
  match m with
  | Raise DivisionByZero | Raise InvalidOperation => true
  | _ => false
  end.

(** ** Decimal numbers *)

Module Dec.

(** A finite decimal [coef * 10 ^ expo], and the operations of the default
    context on finite decimals whose results stay within the exponent range
    of the context.  The infinities and NaNs that [Decimal(text)] also
    returns, and the limits of the exponent (Emax = 999999, Emin = -999999),
    are those of the module [Full] below, which agrees with this one on
    finite decimals of moderate size ([Full_main_moderate]).  The sign of a
    zero is not represented. *)
Record Decimal : Set := mkDec { coef : Z; expo : Z }.

Definition prec : Z := 28.

(** [len(str(n))] for [0 <= n]. *)
Fixpoint ndigits_aux (fuel : nat) (n : Z) : Z :=
  match fuel with
  | O => 1
  | S f => if n <? 10 then 1 else 1 + ndigits_aux f (n / 10)
  end.

Definition ndigits (n : Z) : Z := ndigits_aux (Z.to_nat (Z.log2 n)) n.

(** Drop the last [k] digits of [a], rounding half to even. *)
Definition round_half_even (a k : Z) : Z :=
  let p := 10 ^ k in
  let q := a / p in
  let r := a mod p in
  if (2 * r =? p) && Z.even q then q
  else if p <=? 2 * r then q + 1 else q.

(** [Decimal._fix]: round to the precision of the context. *)
Definition dec_fix (d : Decimal) : Decimal :=
  let a := Z.abs (coef d) in
  let n := ndigits a in
  if n <=? prec then d
  else
    let k := n - prec in
    let q := round_half_even a k in
    if prec <? ndigits q
    then mkDec (Z.sgn (coef d) * (q / 10)) (expo d + k + 1)
    else mkDec (Z.sgn (coef d) * q) (expo d + k).

Definition D0 : Decimal := mkDec 0 0.
Definition of_Z (n : Z) : Decimal := mkDec n 0.

Definition dec_neg (x : Decimal) : Decimal := mkDec (- coef x) (expo x).

(** The exact sum, at the smaller of the two exponents. *)
Definition add_exact (x y : Decimal) : Decimal :=
  let e := Z.min (expo x) (expo y) in
  mkDec (coef x * 10 ^ (expo x - e) + coef y * 10 ^ (expo y - e)) e.

Definition dec_add (x y : Decimal) : Decimal := dec_fix (add_exact x y).

Definition dec_sub (x y : Decimal) : Decimal := dec_add x (dec_neg y).

Definition mul_exact (x y : Decimal) : Decimal :=
  mkDec (coef x * coef y) (expo x + expo y).

Definition dec_mul (x y : Decimal) : Decimal := dec_fix (mul_exact x y).

(** An exact quotient is brought as close to the ideal exponent as its
    trailing zeros allow. *)
Fixpoint strip_to_ideal (fuel : nat) (c e ideal : Z) : Z * Z :=
  match fuel with
  | O => (c, e)
  | S f =>
      if (e <? ideal) && (c mod 10 =? 0)
      then strip_to_ideal f (c / 10) (e + 1) ideal
      else (c, e)
  end.

(** [Decimal.__truediv__]: the quotient is computed to [prec + 1] digits (or
    one more), an inexact quotient is marked in its last digit, and [_fix]
    rounds. *)
Definition dec_div (x y : Decimal) : result Decimal :=
  if coef y =? 0 then
    if coef x =? 0 then Raise InvalidOperation else Raise DivisionByZero
  else if coef x =? 0 then Ok (dec_fix (mkDec 0 (expo x - expo y)))
  else
    let sign := Z.sgn (coef x) * Z.sgn (coef y) in
    let a := Z.abs (coef x) in
    let b := Z.abs (coef y) in
    let shift := ndigits b - ndigits a + prec + 1 in
    let e := expo x - expo y - shift in
    let num := if 0 <=? shift then a * 10 ^ shift else a in
    let den := if 0 <=? shift then b else b * 10 ^ (- shift) in
    let q := num / den in
    let r := num mod den in
    let ce :=
      if r =? 0
      then strip_to_ideal (Z.to_nat (expo x - expo y - e)) q e (expo x - expo y)
      else (if q mod 5 =? 0 then q + 1 else q, e) in
    Ok (dec_fix (mkDec (sign * fst ce) (snd ce))).

(** The value of a decimal. *)
Definition D2Q (d : Decimal) : Q := inject_Z (coef d) * inject_Z 10 ^ expo d.

(** Comparisons are numeric, as [Decimal.__eq__], [__lt__] and [__le__]. *)
Definition dec_eq (x y : Decimal) : bool := Qeq_bool (D2Q x) (D2Q y).
Definition dec_le (x y : Decimal) : bool := Qle_bool (D2Q x) (D2Q y).
Definition dec_lt (x y : Decimal) : bool := negb (Qle_bool (D2Q y) (D2Q x)).

(** The builtin [max(a, b)] returns [a] unless [b > a]. *)
Definition py_max (a b : Decimal) : Decimal := if dec_lt a b then b else a.

(** [sum(values)]: the additions start from the integer 0. *)
Definition py_sum (l : list Decimal) : Decimal := fold_left dec_add l D0.

(** At most [prec] digits: what [_fix] leaves unchanged. *)
Definition in_context (d : Decimal) : bool := Z.abs (coef d) <? 10 ^ prec.

End Dec.
Import Dec.

(** ** Dictionaries

    A Python [dict] keeps its keys in insertion order; the order fixes the
    order of the additions in [sum(d.values())] and the iteration that
    fails first, so dictionaries are association lists.  The keys of a
    dictionary are pairwise distinct ([is_dict]). *)

Section Dict.
Context {V : Type}.

Definition dict : Type := list (string * V).

Definition keys (d : dict) : list string := map fst d.
Definition values (d : dict) : list V := map snd d.

(** [d.get(k)] *)
Fixpoint dict_get (d : dict) (k : string) : option V :=
  match d with
  | [] => None
  | (k', v) :: d' => if String.eqb k' k then Some v else dict_get d' k
  end.

(** [d.get(k, default)] *)
Definition dict_get_default (d : dict) (k : string) (default : V) : V :=
  match dict_get d k with Some v => v | None => default end.

(** [d[k]] *)
Definition dict_getitem (d : dict) (k : string) : result V :=
  match dict_get d k with Some v => Ok v | None => Raise (KeyError k) end.

(** [d[k] = v]: an existing key keeps its place, a new key goes last. *)
Fixpoint dict_set (d : dict) (k : string) (v : V) : dict :=
  match d with
  | [] => [(k, v)]
  | (k', v') :: d' =>
      if String.eqb k' k then (k', v) :: d' else (k', v') :: dict_set d' k v
  end.
End Dict.
Arguments dict V : clear implicits.

Fixpoint nodupb (l : list string) : bool :=
  match l with
  | [] => true
  | k :: l' => negb (existsb (String.eqb k) l') && nodupb l'
  end.

Definition is_dict {V : Type} (d : dict V) : bool := nodupb (keys d).


(** [k in d] *)
Definition has_key {V : Type} (d : dict V) (k : string) : bool :=
  match dict_get d k with Some _ => true | None => false end.

(** A loop body run over a list, stopping at the first exception. *)
Fixpoint foldM {A S : Type} (f : S -> A -> result S) (l : list A) (s : S)
  : result S :=
  match l with
  | [] => Ok s
  | a :: l' => s' <- f s a ;; foldM f l' s'
  end.

(** A comprehension over a list, stopping at the first exception. *)
Fixpoint mapM {A B : Type} (f : A -> result B) (l : list A) : result (list B) :=
  match l with
  | [] => Ok []
  | a :: l' => b <- f a ;; bs <- mapM f l' ;; Ok (b :: bs)
  end.

(** A dictionary comprehension [{k: g(k) for k in ks}]. *)
Definition dict_comp {V : Type} (g : string -> result V) (ks : list string)
  : result (dict V) :=
  mapM (fun k => v <- g k ;; Ok (k, v)) ks.

(** ** The functions of [scraper.py] *)

(** [row[i]] *)
Definition row_index (row : list string) (i : nat) : result string :=
  match nth_error row i with Some s => Ok s | None => Raise IndexError end.

Section BalanceLoader.
(** The constructor [Decimal(text)]; [None] stands for the
    [InvalidOperation] raised on text that is not a number. *)
Variable Decimal_of_string : string -> option Decimal.

Definition cash_symbol : string := "VMFXX".

(** The [for row in reader] loop over the rows that follow the header. *)
Fixpoint read_rows (rows : list (list string)) (symbol_balance : dict Decimal)
  : result (dict Decimal) :=
  match rows with
  | [] => Ok symbol_balance
  | [] :: _ => Ok symbol_balance                      (* if not row: break *)
  | row :: rest =>
      symbol <- row_index row 2 ;;
      balance_str <- row_index row 5 ;;
      if negb (String.eqb symbol cash_symbol) then
        match Decimal_of_string balance_str with
        | Some balance => read_rows rest (dict_set symbol_balance symbol balance)
        | None => Raise InvalidOperation
        end
      else read_rows rest symbol_balance
  end.

(** [rows] is what [csv.reader] yields for the file, header first. *)
Definition get_balance_dictionary (rows : list (list string))
  : result (dict Decimal) :=
  match rows with
  | [] => Raise StopIteration                         (* next(reader) *)
  | _header :: data => read_rows data []
  end.
End BalanceLoader.

(** [text.replace(",", "")] *)
Fixpoint remove_commas (text : string) : string :=
  match text with
  | EmptyString => EmptyString
  | String c rest =>
      if Ascii.eqb c ","%char then remove_commas rest
      else String c (remove_commas rest)
  end.

(** [prompt_for_investment_amount], from the line that [input] returns. *)
Definition prompt_for_investment_amount
  (Decimal_of_string : string -> option Decimal) (investment_amount_str : string)
  : result Decimal :=
  match Decimal_of_string (remove_commas investment_amount_str) with
  | Some investment_amount => Ok investment_amount
  | None => Raise InvalidOperation
  end.

(** [category_totals[category] += symbol_balances.get(symbol, Decimal(0))] *)
Definition add_symbol (symbol_balances : dict Decimal) (category : string)
  (category_totals : dict Decimal) (symbol : string) : result (dict Decimal) :=
  total <- dict_getitem category_totals category ;;
  Ok (dict_set category_totals category
        (dec_add total (dict_get_default symbol_balances symbol (of_Z 0)))).

Definition get_category_totals (symbol_balances : dict Decimal)
  (categories : dict (list string)) : result (dict Decimal) :=
  let category_totals := map (fun kv => (fst kv, of_Z 0)) categories in
  foldM (fun totals kv => foldM (add_symbol symbol_balances (fst kv)) (snd kv) totals)
        categories category_totals.

Definition get_desired_balances (investment_amount total_balance : Decimal)
  (target_allocation : dict Decimal) : dict Decimal :=
  let new_total_balance := dec_add total_balance investment_amount in
  map (fun kv => (fst kv, dec_mul new_total_balance (snd kv))) target_allocation.

(** *** The steps of [main] *)

(** Line 120: [Decimal(sum(category_totals.values()))]. *)
Definition total_balance_of (category_totals : dict Decimal) : Decimal :=
  py_sum (values category_totals).

(** Lines 121-123: the current allocation of every target category. *)
Definition current_allocations (category_totals target_allocation : dict Decimal)
  : result (dict Decimal) :=
  let total_balance := total_balance_of category_totals in
  dict_comp (fun category =>
               dec_div (dict_get_default category_totals category (of_Z 0))
                       total_balance)
            (keys target_allocation).

(** Lines 135-140. *)
Definition needed_investments_of {L : Type} (desired_balances category_totals : dict Decimal)
  (categories : dict L) : result (dict Decimal) :=
  dict_comp (fun category =>
               desired <- dict_getitem desired_balances category ;;
               total <- dict_getitem category_totals category ;;
               Ok (py_max (dec_sub desired total) (of_Z 0)))
            (keys categories).

(** Lines 146-148, the body of the capping loop. *)
Definition scale_category (investment_amount total_needed : Decimal)
  (needed_investments : dict Decimal) (category : string) : result (dict Decimal) :=
  needed <- dict_getitem needed_investments category ;;
  share <- dec_div needed total_needed ;;
  Ok (dict_set needed_investments category (dec_mul investment_amount share)).

(** Lines 143-148. *)
Definition cap_investments (investment_amount : Decimal)
  (needed_investments : dict Decimal) : result (dict Decimal) :=
  let total_needed := py_sum (values needed_investments) in
  if dec_lt investment_amount total_needed then
    foldM (scale_category investment_amount total_needed)
          (keys needed_investments) needed_investments
  else Ok needed_investments.

(** Lines 151-154. *)
Definition resulting_totals_of {L : Type} (category_totals needed_investments : dict Decimal)
  (categories : dict L) : result (dict Decimal) :=
  dict_comp (fun category =>
               total <- dict_getitem category_totals category ;;
               needed <- dict_getitem needed_investments category ;;
               Ok (dec_add total needed))
            (keys categories).

(** Lines 155-161. *)
Definition resulting_allocations_of {L : Type} (resulting_totals : dict Decimal)
  (categories : dict L) : result (dict Decimal) :=
  let resulting_total_balance := py_sum (values resulting_totals) in
  dict_comp (fun category =>
               total <- dict_getitem resulting_totals category ;;
               dec_div total resulting_total_balance)
            (keys categories).

Record distribution : Type := mkDistribution {
  needed_investments : dict Decimal;
  resulting_totals : dict Decimal;
  resulting_allocations : dict Decimal
}.

(** Lines 135-154: the investment per category and the totals it leads to. *)
Definition distribute_totals {L : Type} (investment_amount : Decimal)
  (category_totals target_allocation : dict Decimal) (categories : dict L)
  : result (dict Decimal * dict Decimal) :=
  let total_balance := total_balance_of category_totals in
  let desired_balances :=
    get_desired_balances investment_amount total_balance target_allocation in
  needed0 <- needed_investments_of desired_balances category_totals categories ;;
  needed <- cap_investments investment_amount needed0 ;;
  resulting <- resulting_totals_of category_totals needed categories ;;
  Ok (needed, resulting).

(** Lines 128-161: the Investment Distributor. *)
Definition distribute {L : Type} (investment_amount : Decimal)
  (category_totals target_allocation : dict Decimal) (categories : dict L)
  : result distribution :=
  nr <- distribute_totals investment_amount category_totals target_allocation categories ;;
  allocations <- resulting_allocations_of (snd nr) categories ;;
  Ok (mkDistribution (fst nr) (snd nr) allocations).

(** [main], from the loaded balances, the configuration and the amount
    entered at the prompt to the recommendation. *)
Definition main (symbol_balances : dict Decimal) (categories : dict (list string))
  (target_allocation : dict Decimal) (investment_amount : Decimal)
  : result distribution :=
  category_totals <- get_category_totals symbol_balances categories ;;
  _current <- current_allocations category_totals target_allocation ;;
  distribute investment_amount category_totals target_allocation categories.

(** ** The arithmetic in full: special values and exponent limits

    [Decimal(text)] returns an infinity or a NaN for the texts [Infinity],
    [NaN] and [sNaN], and the default context raises [Overflow] for a result
    whose adjusted exponent exceeds [Emax] and rounds a result below [Emin]
    to the exponent [Etiny].  [Full] is the arithmetic with these cases, and
    the functions of [scraper.py] over it. *)

Module Full.

Definition Emax : Z := 999999.
Definition Emin : Z := -999999.
Definition Etiny : Z := Emin - prec + 1.
Definition Etop : Z := Emax - prec + 1.

Inductive number : Set :=
| Finite (d : Decimal)
| Infinity (negative : bool)
| NaN (signaling : bool).

Definition zero : number := Finite (of_Z 0).

(** [Decimal._fix] on a finite decimal: a zero gets its exponent clamped, a
    number that is too large raises [Overflow], one that is too small is
    rounded at [Etiny], any other is rounded to the precision. *)
Definition ctx_fix (d : Decimal) : result Decimal :=
  if coef d =? 0 then Ok (mkDec 0 (Z.min (Z.max (expo d) Etiny) Emax))
  else
    let a := Z.abs (coef d) in
    let exp_min0 := ndigits a + expo d - prec in
    if Etop <? exp_min0 then Raise Overflow
    else
      let exp_min := Z.max exp_min0 Etiny in
      if expo d <? exp_min then
        let q := round_half_even a (exp_min - expo d) in
        if prec <? ndigits q then
          if Etop <? exp_min + 1 then Raise Overflow
          else Ok (mkDec (Z.sgn (coef d) * (q / 10)) (exp_min + 1))
        else Ok (mkDec (Z.sgn (coef d) * q) exp_min)
      else Ok d.

Definition finite (r : result Decimal) : result number :=
  d <- r ;; Ok (Finite d).

(** The quotient of two finite decimals, [y] not zero, before [_fix]. *)
Definition quotient (x y : Decimal) : Decimal :=
  if coef x =? 0 then mkDec 0 (expo x - expo y)
  else
    let sign := Z.sgn (coef x) * Z.sgn (coef y) in
    let a := Z.abs (coef x) in
    let b := Z.abs (coef y) in
    let shift := ndigits b - ndigits a + prec + 1 in
    let e := expo x - expo y - shift in
    let num := if 0 <=? shift then a * 10 ^ shift else a in
    let den := if 0 <=? shift then b else b * 10 ^ (- shift) in
    let q := num / den in
    let r := num mod den in
    let ce :=
      if r =? 0
      then strip_to_ideal (Z.to_nat (expo x - expo y - e)) q e (expo x - expo y)
      else (if q mod 5 =? 0 then q + 1 else q, e) in
    mkDec (sign * fst ce) (snd ce).

(** [x + y]: an sNaN raises, a NaN gives NaN, infinities of opposite signs
    raise. *)
Definition add (x y : number) : result number :=
  match x, y with
  | NaN true, _ | _, NaN true => Raise InvalidOperation
  | NaN false, _ | _, NaN false => Ok (NaN false)
  | Infinity s, Infinity s' =>
      if Bool.eqb s s' then Ok (Infinity s) else Raise InvalidOperation
  | Infinity s, Finite _ | Finite _, Infinity s => Ok (Infinity s)
  | Finite a, Finite b => finite (ctx_fix (add_exact a b))
  end.

Definition neg (x : number) : number :=
  match x with
  | Finite a => Finite (dec_neg a)
  | Infinity s => Infinity (negb s)
  | NaN s => NaN s
  end.

(** [x - y] *)
Definition sub (x y : number) : result number := add x (neg y).

(** [x * y]: zero times an infinity raises. *)
Definition mul (x y : number) : result number :=
  match x, y with
  | NaN true, _ | _, NaN true => Raise InvalidOperation
  | NaN false, _ | _, NaN false => Ok (NaN false)
  | Infinity s, Infinity s' => Ok (Infinity (xorb s s'))
  | Infinity s, Finite b | Finite b, Infinity s =>
      if coef b =? 0 then Raise InvalidOperation
      else Ok (Infinity (xorb s (coef b <? 0)))
  | Finite a, Finite b => finite (ctx_fix (mul_exact a b))
  end.

(** [x / y]: an infinity by an infinity raises, a finite number by an
    infinity is zero at the exponent [Etiny]; an infinity by a finite number,
    zero or not, is an infinity. *)
Definition div (x y : number) : result number :=
  match x, y with
  | NaN true, _ | _, NaN true => Raise InvalidOperation
  | NaN false, _ | _, NaN false => Ok (NaN false)
  | Infinity _, Infinity _ => Raise InvalidOperation
  | Infinity s, Finite b => Ok (Infinity (xorb s (coef b <? 0)))
  | Finite _, Infinity _ => Ok (Finite (mkDec 0 Etiny))
  | Finite a, Finite b =>
      if coef b =? 0 then
        if coef a =? 0 then Raise InvalidOperation else Raise DivisionByZero
      else finite (ctx_fix (quotient a b))
  end.

(** [x < y]: an ordering that involves a NaN raises. *)
Definition lt (x y : number) : result bool :=
  match x, y with
  | NaN _, _ | _, NaN _ => Raise InvalidOperation
  | Finite a, Finite b => Ok (dec_lt a b)
  | Infinity s, Infinity s' => Ok (s && negb s')
  | Infinity s, Finite _ => Ok s
  | Finite _, Infinity s => Ok (negb s)
  end.

(** [x > y] *)
Definition gt (x y : number) : result bool := lt y x.

(** The builtin [max(a, b)] evaluates [b > a]. *)
Definition py_max (a b : number) : result number :=
  greater <- gt b a ;; Ok (if greater then b else a).

(** [sum(values)] *)
Definition py_sum (l : list number) : result number :=
  foldM add l (Finite D0).

(** *** The functions of [scraper.py] *)

Definition add_symbol (symbol_balances : dict number) (category : string)
  (category_totals : dict number) (symbol : string) : result (dict number) :=
  total <- dict_getitem category_totals category ;;
  total' <- add total (dict_get_default symbol_balances symbol zero) ;;
  Ok (dict_set category_totals category total').

Definition get_category_totals (symbol_balances : dict number)
  (categories : dict (list string)) : result (dict number) :=
  let category_totals := map (fun kv => (fst kv, zero)) categories in
  foldM (fun totals kv => foldM (add_symbol symbol_balances (fst kv)) (snd kv) totals)
        categories category_totals.

Definition get_desired_balances (investment_amount total_balance : number)
  (target_allocation : dict number) : result (dict number) :=
  new_total_balance <- add total_balance investment_amount ;;
  mapM (fun kv => desired <- mul new_total_balance (snd kv) ;; Ok (fst kv, desired))
       target_allocation.

(** Line 120: [Decimal(sum(category_totals.values()))]. *)
Definition total_balance_of (category_totals : dict number) : result number :=
  py_sum (values category_totals).

(** Lines 121-123. *)
Definition current_allocations (category_totals : dict number)
  (total_balance : number) (target_allocation : dict number)
  : result (dict number) :=
  dict_comp (fun category =>
               div (dict_get_default category_totals category zero) total_balance)
            (keys target_allocation).

(** Lines 135-140. *)
Definition needed_investments_of {L : Type}
  (desired_balances category_totals : dict number) (categories : dict L)
  : result (dict number) :=
  dict_comp (fun category =>
               desired <- dict_getitem desired_balances category ;;
               total <- dict_getitem category_totals category ;;
               shortfall <- sub desired total ;;
               py_max shortfall zero)
            (keys categories).

(** Lines 146-148, the body of the capping loop. *)
Definition scale_category (investment_amount total_needed : number)
  (needed_investments : dict number) (category : string) : result (dict number) :=
  needed <- dict_getitem needed_investments category ;;
  share <- div needed total_needed ;;
  scaled <- mul investment_amount share ;;
  Ok (dict_set needed_investments category scaled).

(** Lines 143-148. *)
Definition cap_investments (investment_amount : number)
  (needed_investments : dict number) : result (dict number) :=
  total_needed <- py_sum (values needed_investments) ;;
  capped <- gt total_needed investment_amount ;;
  if capped then
    foldM (scale_category investment_amount total_needed)
          (keys needed_investments) needed_investments
  else Ok needed_investments.

(** Lines 151-154. *)
Definition resulting_totals_of {L : Type}
  (category_totals needed_investments : dict number) (categories : dict L)
  : result (dict number) :=
  dict_comp (fun category =>
               total <- dict_getitem category_totals category ;;
               needed <- dict_getitem needed_investments category ;;
               add total needed)
            (keys categories).

(** Lines 155-161. *)
Definition resulting_allocations_of {L : Type} (resulting_totals : dict number)
  (categories : dict L) : result (dict number) :=
  resulting_total_balance <- py_sum (values resulting_totals) ;;
  dict_comp (fun category =>
               total <- dict_getitem resulting_totals category ;;
               div total resulting_total_balance)
            (keys categories).

Record distribution : Type := mkDistribution {
  needed_investments : dict number;
  resulting_totals : dict number;
  resulting_allocations : dict number
}.

(** Lines 128-154, from the total balance of line 120. *)
Definition distribute_totals {L : Type} (investment_amount : number)
  (category_totals : dict number) (total_balance : number)
  (target_allocation : dict number) (categories : dict L)
  : result (dict number * dict number) :=
  desired_balances <-
    get_desired_balances investment_amount total_balance target_allocation ;;
  needed0 <- needed_investments_of desired_balances category_totals categories ;;
  needed <- cap_investments investment_amount needed0 ;;
  resulting <- resulting_totals_of category_totals needed categories ;;
  Ok (needed, resulting).

(** Lines 128-161. *)
Definition distribute {L : Type} (investment_amount : number)
  (category_totals : dict number) (total_balance : number)
  (target_allocation : dict number) (categories : dict L)
  : result distribution :=
  nr <- distribute_totals investment_amount category_totals total_balance
                          target_allocation categories ;;
  allocations <- resulting_allocations_of (snd nr) categories ;;
  Ok (mkDistribution (fst nr) (snd nr) allocations).

(** [main], from the loaded balances, the configuration and the amount
    entered at the prompt; line 113 sums all the balances for its report, and
    the formatting of the reports raises nothing. *)
Definition main (symbol_balances : dict number) (categories : dict (list string))
  (target_allocation : dict number) (investment_amount : number)
  : result distribution :=
  category_totals <- get_category_totals symbol_balances categories ;;
  _securities <- py_sum (values symbol_balances) ;;
  total_balance <- total_balance_of category_totals ;;
  _current <- current_allocations category_totals total_balance target_allocation ;;
  distribute investment_amount category_totals total_balance target_allocation
             categories.

End Full.

(** ** The vocabulary of the statements *)

(** Powers of ten, as rationals. *)
Definition p10 (e : Z) : Q := (inject_Z 10 ^ e)%Q.

(** The relative error of one rounding to 28 digits is below [eps]. *)
Definition eps : Q := (1 # 1000000000000000000000000000)%Q.

(** The exact sum of the values of a list. *)
Fixpoint Qsum (l : list Decimal) : Q :=
  match l with
  | [] => 0%Q
  | d :: l' => (D2Q d + Qsum l')%Q
  end.

Fixpoint qpow (x : Q) (n : nat) : Q :=
  match n with
  | O => 1%Q
  | S n' => (x * qpow x n')%Q
  end.

Definition nonneg (d : Decimal) : Prop := (0 <= D2Q d)%Q.
Definition is_zero (d : Decimal) : Prop := (D2Q d == 0)%Q.

Definition Qnat (n : nat) : Q := inject_Z (Z.of_nat n).

(** The relative distance of the distributed sum to the investment amount,
    for [m] categories. *)
Definition rounding_epsilon (m : nat) : Q := (Qnat (2 * m + 3) * eps)%Q.

(** The value written by one iteration of the capping loop. *)
Definition scaled (investment_amount total_needed needed : Decimal) : Decimal :=
  match dec_div needed total_needed with
  | Ok share => dec_mul investment_amount share
  | Raise _ => needed
  end.

(** The total of one category: the balances of its symbols, added in the
    order of the list to [Decimal(0)]. *)
Definition sum_symbols (symbol_balances : dict Decimal) (symbols : list string)
  (start : Decimal) : Decimal :=
  fold_left (fun total symbol =>
               dec_add total (dict_get_default symbol_balances symbol (of_Z 0)))
            symbols start.

Definition category_total (symbol_balances : dict Decimal)
  (kv : string * list string) : string * Decimal :=
  (fst kv, sum_symbols symbol_balances (snd kv) (of_Z 0)).

(** [symbol_balances.get(symbol, Decimal(0))] *)
Definition balance_of (symbol_balances : dict Decimal) (symbol : string) : Decimal :=
  dict_get_default symbol_balances symbol (of_Z 0).

(** A target that is positive, for one of the listed categories. *)
Definition has_positive_target (target_allocation : dict Decimal)
  (category : string) : bool :=
  match dict_get target_allocation category with
  | Some target => dec_lt (of_Z 0) target
  | None => false
  end.

(** The rows the loop of the loader processes: those before the first empty
    row. *)
Fixpoint processed (rows : list (list string)) : list (list string) :=
  match rows with
  | [] => []
  | [] :: _ => []
  | row :: rest => row :: processed rest
  end.


(** Every symbol of the lists of the categories, in order. *)
Definition all_symbols (categories : dict (list string)) : list string :=
  List.concat (values categories).

(** Every symbol that has a balance is listed once, all lists together. *)
Definition listed_once (symbol_balances : dict Decimal)
  (categories : dict (list string)) : bool :=
  forallb (fun k => (count_occ string_dec (all_symbols categories) k =? 1)%nat)
          (keys symbol_balances).

(** Every symbol that has a balance is in the list of one category. *)
Definition in_one_category (symbol_balances : dict Decimal)
  (categories : dict (list string)) : bool :=
  forallb (fun k =>
             (List.length (filter (fun kv => existsb (String.eqb k) (snd kv))
                                  categories) =? 1)%nat)
          (keys symbol_balances).

(** The size of a decimal in units of [10 ^ q]. *)
Definition scaled_abs (q : Z) (d : Decimal) : Z :=
  Z.abs (coef d) * 10 ^ (expo d - q).

Fixpoint mass (q : Z) (l : list Decimal) : Z :=
  match l with
  | [] => 0
  | d :: l' => scaled_abs q d + mass q l'
  end.

(** The decimals of [l] are multiples of [10 ^ q] and their sizes add up to
    less than [10 ^ prec] units: every sum of some of them is exact. *)
Definition within_precision (q : Z) (l : list Decimal) : bool :=
  (q <=? 0) && forallb (fun d => q <=? expo d) l && (mass q l <? 10 ^ prec).

(** A reader of plain decimal literals, digits with at most one point, for
    the examples: the constructor [Decimal(text)] accepts these and more. *)
Definition digit_of (c : Ascii.ascii) : option Z :=
  let n := Z.of_nat (Ascii.nat_of_ascii c) in
  if (48 <=? n) && (n <=? 57) then Some (n - 48) else None.

Fixpoint read_digits (s : string) (c : Z) (frac : option Z) : option Decimal :=
  match s with
  | EmptyString => Some (mkDec c (match frac with Some k => - k | None => 0 end))
  | String a s' =>
      if Ascii.eqb a "."%char then
        match frac with
        | None => read_digits s' c (Some 0)
        | Some _ => None
        end
      else
        match digit_of a with
        | Some n => read_digits s' (10 * c + n)
                                (match frac with Some k => Some (k + 1) | None => None end)
        | None => None
        end
  end.

Definition plain_decimal (s : string) : option Decimal :=
  match s with
  | EmptyString => None
  | _ => read_digits s 0 None
  end.

(** The needed investment of a category in the words of the specification,
    on exact rationals: [max(0, desired - current_total)] with
    [desired = new_total_balance * target_fraction] and
    [new_total_balance = current_total_balance + investment_amount]. *)
Definition spec_needed
  (current_total_balance investment_amount target_fraction current_total : Q) : Q :=
  let new_total_balance := (current_total_balance + investment_amount)%Q in
  let desired := (new_total_balance * target_fraction)%Q in
  Qmax 0 (desired - current_total).

(** The addition, the product and the subtraction that lead to a needed
    investment are exact: none of their results has more than 28 digits. *)
Definition shortfall_exact (total_balance investment_amount target total : Decimal)
  : bool :=
  in_context (add_exact total_balance investment_amount)
  && in_context (mul_exact (dec_add total_balance investment_amount) target)
  && in_context (add_exact (dec_mul (dec_add total_balance investment_amount) target)
                           (dec_neg total)).

(** ** The vocabulary of the further properties *)

(** A row the loop of the loader gets through: six columns at least, and a
    balance that is a number unless the row is one of the cash symbol. *)
Definition row_ok (Decimal_of_string : string -> option Decimal)
  (row : list string) : bool :=
  match nth_error row 2, nth_error row 5 with
  | Some symbol, Some balance_str =>
      String.eqb symbol cash_symbol ||
      match Decimal_of_string balance_str with Some _ => true | None => false end
  | _, _ => false
  end.

(** The exception of a row that is not [row_ok]. *)
Definition row_error (row : list string) : exn :=
  match nth_error row 5 with
  | Some _ => InvalidOperation
  | None => IndexError
  end.

(** The symbols the loader stores, row by row. *)
Definition stored_symbols (rows : list (list string)) : list string :=
  filter (fun symbol => negb (String.eqb symbol cash_symbol))
         (map (fun row => nth 2 row EmptyString) (processed rows)).

(** The elements of a list in the order of their first occurrence. *)
Definition add_new (seen : list string) (s : string) : list string :=
  if existsb (String.eqb s) seen then seen else seen ++ [s].

Definition first_occurrences (l : list string) : list string :=
  fold_left add_new l [].

(** The same decimal, digit for digit. *)
Definition dec_same (x y : Decimal) : bool :=
  (coef x =? coef y) && (expo x =? expo y).

(** Two mappings give a key the same decimal, or none. *)
Definition same_entry (d d' : dict Decimal) (k : string) : bool :=
  match dict_get d k, dict_get d' k with
  | Some v, Some v' => dec_same v v'
  | None, None => true
  | _, _ => false
  end.

(** The same symbols, as often, in any order. *)
Definition is_permutation (l l' : list string) : bool :=
  forallb (fun s => (count_occ string_dec l s =? count_occ string_dec l' s)%nat)
          (l ++ l').

(** A fraction between 0 and 1. *)
Definition in_unit_interval (a : Decimal) : bool :=
  dec_le (of_Z 0) a && dec_le a (of_Z 1).

(** ** The vocabulary of the full arithmetic *)

(** One more than the adjusted exponent: the position of the leading
    digit. *)
Definition top (d : Decimal) : Z := expo d + ndigits (Z.abs (coef d)).

(** The exponent is at least [lo] and the size is below [10 ^ hi]. *)
Definition within (lo hi : Z) (d : Decimal) : bool :=
  (lo <=? expo d) && (top d <=? hi).

(** A decimal of moderate size: an exponent of at least -10000 and a value
    below [10 ^ 10000]. *)
Definition moderate (d : Decimal) : bool := within (-10000) 10000 d.

(** A configuration of moderate size: categories and listed symbols, at most
    10000 together. *)
Definition small (categories : dict (list string)) : bool :=
  Z.of_nat (List.length categories + List.length (all_symbols categories)) <=? 10000.

(** Finite decimals as numbers of the full arithmetic. *)
Definition lift (d : dict Decimal) : dict Full.number :=
  map (fun kv => (fst kv, Full.Finite (snd kv))) d.

Definition lift_distribution (d : distribution) : Full.distribution :=
  Full.mkDistribution (lift (needed_investments d)) (lift (resulting_totals d))
                      (lift (resulting_allocations d)).

Definition lift_outcome {A B : Type} (f : A -> B) (r : result A) : result B :=
  match r with
  | Ok a => Ok (f a)
  | Raise e => Raise e
  end.

(** A value that a running total can hold: not an sNaN, and when finite a
    decimal that [_fix] leaves as it is. *)
Definition settled (x : Full.number) : bool :=
  match x with
  | Full.Finite d => in_context d && within Full.Etiny Full.Emax d
  | Full.Infinity _ => true
  | Full.NaN signaling => negb signaling
  end.

(** The same value: [==] on finite numbers, the same infinity, or two NaNs. *)
Definition same_value (x y : Full.number) : bool :=
  match x, y with
  | Full.Finite a, Full.Finite b => dec_eq a b
  | Full.Infinity s, Full.Infinity s' => Bool.eqb s s'
  | Full.NaN _, Full.NaN _ => true
  | _, _ => false
  end.

Definition is_finite (x : Full.number) : bool :=
  match x with Full.Finite _ => true | _ => false end.

(** * Properties of the decimal arithmetic *)

Module DecFacts.

(** ** Digit counts *)

Lemma ndigits_aux_pos (fuel : nat) (n : Z) : 1 <= ndigits_aux fuel n.
Proof.
  revert n; induction fuel as [|f IH]; intros n; cbn [ndigits_aux]; [lia|].
  destruct (n <? 10); [lia|]. specialize (IH (n / 10)). lia.
Qed.

Lemma ndigits_aux_spec (fuel : nat) (n : Z) :
  0 < n -> n < 2 ^ (Z.of_nat fuel + 1) ->
  10 ^ (ndigits_aux fuel n - 1) <= n < 10 ^ ndigits_aux fuel n.
Proof.
  revert n; induction fuel as [|f IH]; intros n Hpos Hlt.
  - change (2 ^ (Z.of_nat 0 + 1)) with 2 in Hlt.
    assert (n = 1) as -> by lia. cbn [ndigits_aux].
    change (10 ^ (1 - 1)) with 1. change (10 ^ 1) with 10. lia.
  - cbn [ndigits_aux]. destruct (Z.ltb_spec n 10) as [H10|H10].
    + change (10 ^ (1 - 1)) with 1. change (10 ^ 1) with 10. lia.
    + assert (Hq : 0 < n / 10) by (apply Z.div_str_pos; lia).
      assert (Hb : n / 10 < 2 ^ (Z.of_nat f + 1)).
      { apply Z.div_lt_upper_bound; [lia|].
        replace (Z.of_nat (S f) + 1) with (Z.succ (Z.of_nat f + 1)) in Hlt by lia.
        rewrite Z.pow_succ_r in Hlt by lia. lia. }
      specialize (IH (n / 10) Hq Hb).
      pose proof (ndigits_aux_pos f (n / 10)) as Hd.
      replace (1 + ndigits_aux f (n / 10) - 1)
        with (Z.succ (ndigits_aux f (n / 10) - 1)) by lia.
      replace (1 + ndigits_aux f (n / 10))
        with (Z.succ (ndigits_aux f (n / 10))) by lia.
      rewrite !Z.pow_succ_r by lia.
      pose proof (Z.div_mod n 10 ltac:(lia)) as Hdm.
      pose proof (Z.mod_pos_bound n 10 ltac:(lia)) as Hm.
      lia.
Qed.

Lemma ndigits_pos (n : Z) : 1 <= ndigits n.
Proof. apply ndigits_aux_pos. Qed.

Lemma ndigits_spec (n : Z) :
  0 < n -> 10 ^ (ndigits n - 1) <= n < 10 ^ ndigits n.
Proof.
  intros Hpos. apply ndigits_aux_spec; [exact Hpos|].
  rewrite Z2Nat.id by apply Z.log2_nonneg.
  replace (Z.log2 n + 1) with (Z.succ (Z.log2 n)) by lia.
  apply Z.log2_spec; exact Hpos.
Qed.

Lemma ndigits_0 : ndigits 0 = 1.
Proof. reflexivity. Qed.

Lemma pow10_pos (k : Z) : 0 <= k -> 0 < 10 ^ k.
Proof. intros; apply Z.pow_pos_nonneg; lia. Qed.

(** The digit count decides the size of a number. *)
Lemma ndigits_le_iff (n k : Z) : 0 <= n -> 1 <= k -> (ndigits n <= k <-> n < 10 ^ k).
Proof.
  intros Hn Hk. destruct (Z.eq_dec n 0) as [->|Hnz].
  - rewrite ndigits_0. pose proof (pow10_pos k ltac:(lia)). lia.
  - pose proof (ndigits_spec n ltac:(lia)) as [Hlo Hhi].
    pose proof (ndigits_pos n) as Hd. split; intros H.
    + eapply Z.lt_le_trans; [exact Hhi|]. apply Z.pow_le_mono_r; lia.
    + destruct (Z.le_gt_cases (ndigits n) k) as [|Hgt]; [assumption|].
      assert (10 ^ k <= 10 ^ (ndigits n - 1)) by (apply Z.pow_le_mono_r; lia).
      lia.
Qed.

(** ** Rounding half to even *)

Lemma round_half_even_cases (a k : Z) :
  round_half_even a k = a / 10 ^ k \/ round_half_even a k = a / 10 ^ k + 1.
Proof.
  unfold round_half_even.
  destruct ((2 * (a mod 10 ^ k) =? 10 ^ k) && Z.even (a / 10 ^ k)); [now left|].
  destruct (10 ^ k <=? 2 * (a mod 10 ^ k)); [now right | now left].
Qed.

(** The rounded coefficient is within half a unit of the exact one. *)
Lemma round_half_even_error (a k : Z) :
  0 <= k ->
  2 * Z.abs (round_half_even a k * 10 ^ k - a) <= 10 ^ k.
Proof.
  intros Hk. pose proof (pow10_pos k Hk) as Hp.
  pose proof (Z.div_mod a (10 ^ k) ltac:(lia)) as Hdm.
  pose proof (Z.mod_pos_bound a (10 ^ k) Hp) as Hm.
  unfold round_half_even.
  set (p := 10 ^ k) in *. set (q := a / p) in *. set (r := a mod p) in *.
  clearbody q r. clearbody p.
  assert (Hdown : q * p - a = - r) by lia.
  assert (Hup : (q + 1) * p - a = p - r) by lia.
  destruct (Z.eqb_spec (2 * r) p) as [He|He]; cbn [andb].
  - destruct (Z.even q).
    + rewrite Hdown. lia.
    + destruct (Z.leb_spec p (2 * r)); [rewrite Hup | rewrite Hdown]; lia.
  - destruct (Z.leb_spec p (2 * r)); [rewrite Hup | rewrite Hdown]; lia.
Qed.

(** Rounding does not cross a multiple of the unit. *)
Lemma round_half_even_ge (a k m : Z) :
  0 <= k -> m * 10 ^ k <= a -> m <= round_half_even a k.
Proof.
  intros Hk Hm. pose proof (pow10_pos k Hk) as Hp.
  assert (m <= a / 10 ^ k) by (apply Z.div_le_lower_bound; lia).
  destruct (round_half_even_cases a k) as [-> | ->]; lia.
Qed.

Lemma round_half_even_le (a k m : Z) :
  0 <= k -> a <= m * 10 ^ k -> round_half_even a k <= m.
Proof.
  intros Hk Hm. pose proof (pow10_pos k Hk) as Hp.
  pose proof (Z.div_mod a (10 ^ k) ltac:(lia)) as Hdm.
  pose proof (Z.mod_pos_bound a (10 ^ k) Hp) as Hmod.
  assert (Hq : a / 10 ^ k <= m) by (apply Z.div_le_upper_bound; lia).
  unfold round_half_even.
  destruct ((2 * (a mod 10 ^ k) =? 10 ^ k) && Z.even (a / 10 ^ k)); [exact Hq|].
  destruct (Z.leb_spec (10 ^ k) (2 * (a mod 10 ^ k))) as [Hr|Hr]; [|exact Hq].
  destruct (Z.eq_dec (a / 10 ^ k) m) as [Heq|Hne]; [|lia].
  rewrite Heq in Hdm. nia.
Qed.

(** ** Values *)

Local Open Scope Q_scope.

Lemma p10_pos (e : Z) : 0 < p10 e.
Proof. apply Qpower_0_lt. reflexivity. Qed.

Lemma p10_add (a b : Z) : p10 (a + b) == p10 a * p10 b.
Proof. apply Qpower_plus. discriminate. Qed.

Lemma p10_Z (k : Z) : (0 <= k)%Z -> p10 k == inject_Z (10 ^ k).
Proof. intros Hk. symmetry. apply Zpower_Qpower. exact Hk. Qed.

Lemma D2Q_mk (c e : Z) : D2Q (mkDec c e) = inject_Z c * p10 e.
Proof. reflexivity. Qed.

Lemma D2Q_eq (d : Decimal) : D2Q d = inject_Z (coef d) * p10 (expo d).
Proof. reflexivity. Qed.

(** Hypotheses on integers, moved to the rationals. *)
Ltac z2q H :=
  first [ rewrite Zle_Qle in H | rewrite Zlt_Qlt in H
        | apply (f_equal inject_Z) in H ];
  rewrite ?inject_Z_plus, ?inject_Z_mult, ?inject_Z_opp in H;
  repeat match type of H with
    | context [inject_Z (Zpos ?p)] => change (inject_Z (Zpos p)) with (Zpos p # 1) in H
    | context [inject_Z (Zneg ?p)] => change (inject_Z (Zneg p)) with (Zneg p # 1) in H
    | context [inject_Z Z0] => change (inject_Z Z0) with (0 # 1) in H
    end.

Lemma inject_Z_cases (c : Z) :
  inject_Z c <= -1 \/ inject_Z c == 0 \/ 1 <= inject_Z c.
Proof.
  destruct (Z.lt_trichotomy c 0) as [H|[H|H]].
  - left. assert (H' : (c <= -1)%Z) by lia. z2q H'. exact H'.
  - right; left. subst c. reflexivity.
  - right; right. assert (H' : (1 <= c)%Z) by lia. z2q H'. exact H'.
Qed.

Lemma D2Q_nonneg (d : Decimal) : 0 <= D2Q d <-> (0 <= coef d)%Z.
Proof.
  rewrite D2Q_eq. pose proof (p10_pos (expo d)) as HP.
  split; intros H.
  - destruct (Z.le_gt_cases 0 (coef d)) as [|Hneg]; [assumption|exfalso].
    assert (H' : (coef d <= -1)%Z) by lia. z2q H'. nra.
  - z2q H. nra.
Qed.

Lemma D2Q_pos (d : Decimal) : 0 < D2Q d <-> (0 < coef d)%Z.
Proof.
  rewrite D2Q_eq. pose proof (p10_pos (expo d)) as HP.
  split; intros H.
  - destruct (Z.lt_ge_cases 0 (coef d)) as [|Hneg]; [assumption|exfalso].
    z2q Hneg. nra.
  - z2q H. nra.
Qed.

Lemma D2Q_zero (d : Decimal) : D2Q d == 0 <-> coef d = 0%Z.
Proof.
  split; intros H.
  - pose proof (proj1 (D2Q_nonneg d)) as H1.
    pose proof (proj1 (D2Q_pos d)) as H2.
    destruct (Z.lt_trichotomy (coef d) 0) as [Hc|[Hc|Hc]]; [exfalso|assumption|exfalso].
    + assert (Hn : (0 <= coef d)%Z) by (apply H1; lra). lia.
    + pose proof (proj2 (D2Q_pos d) Hc). lra.
  - rewrite D2Q_eq, H. ring.
Qed.

(** Moving digits between the coefficient and the exponent. *)
Lemma D2Q_shift (c e k : Z) :
  (0 <= k)%Z -> D2Q (mkDec c (e + k)) == D2Q (mkDec (c * 10 ^ k) e).
Proof.
  intros Hk. rewrite !D2Q_mk, p10_add, (p10_Z k Hk), inject_Z_mult. ring.
Qed.

Lemma D2Q_neg (d : Decimal) : D2Q (dec_neg d) == - D2Q d.
Proof. unfold dec_neg. rewrite D2Q_mk, D2Q_eq, inject_Z_opp. ring. Qed.

(** ** Comparisons *)

Lemma dec_le_iff (x y : Decimal) : dec_le x y = true <-> D2Q x <= D2Q y.
Proof. apply Qle_bool_iff. Qed.

Lemma dec_lt_iff (x y : Decimal) : dec_lt x y = true <-> D2Q x < D2Q y.
Proof.
  unfold dec_lt. rewrite negb_true_iff.
  split; intros H.
  - apply Qnot_le_lt. intros Hle. apply Qle_bool_iff in Hle. congruence.
  - destruct (Qle_bool (D2Q y) (D2Q x)) eqn:E; [|reflexivity].
    apply Qle_bool_iff in E. lra.
Qed.

Lemma dec_lt_false_iff (x y : Decimal) : dec_lt x y = false <-> D2Q y <= D2Q x.
Proof.
  unfold dec_lt. rewrite negb_false_iff. apply Qle_bool_iff.
Qed.

Lemma dec_eq_iff (x y : Decimal) : dec_eq x y = true <-> D2Q x == D2Q y.
Proof. apply Qeq_bool_iff. Qed.

Lemma py_max_cases (a b : Decimal) :
  (py_max a b = a /\ D2Q b <= D2Q a) \/ (py_max a b = b /\ D2Q a < D2Q b).
Proof.
  unfold py_max. destruct (dec_lt a b) eqn:E.
  - right. split; [reflexivity|]. apply dec_lt_iff; exact E.
  - left. split; [reflexivity|]. apply dec_lt_false_iff; exact E.
Qed.

(** ** Rounding to the context *)

Lemma in_context_iff (d : Decimal) :
  in_context d = true <-> (Z.abs (coef d) < 10 ^ prec)%Z.
Proof. apply Z.ltb_lt. Qed.

Lemma dec_fix_exact (d : Decimal) : in_context d = true -> dec_fix d = d.
Proof.
  intros H. apply in_context_iff in H. unfold dec_fix.
  assert (Hd : (ndigits (Z.abs (coef d)) <= prec)%Z).
  { apply ndigits_le_iff; [lia | unfold prec; lia | exact H]. }
  apply Z.leb_le in Hd. rewrite Hd. reflexivity.
Qed.

(** What [_fix] does to a coefficient of more than [prec] digits: [k] digits
    are dropped and the coefficient becomes [q], or [q / 10] after a carry. *)
Lemma dec_fix_round (d : Decimal) :
  in_context d = false ->
  exists k q : Z,
    (1 <= k)%Z /\
    (10 ^ 27 * 10 ^ k <= Z.abs (coef d) < 10 ^ 28 * 10 ^ k)%Z /\
    q = round_half_even (Z.abs (coef d)) k /\
    (10 ^ 27 <= q <= 10 ^ 28)%Z /\
    in_context (dec_fix d) = true /\
    Z.sgn (coef (dec_fix d)) = Z.sgn (coef d) /\
    D2Q (dec_fix d) == inject_Z (Z.sgn (coef d) * q * 10 ^ k) * p10 (expo d).
Proof.
  intros H. unfold in_context in H. apply Z.ltb_ge in H.
  set (a := Z.abs (coef d)) in *.
  assert (Ha : (0 < a)%Z) by (unfold prec in H; lia).
  pose proof (ndigits_spec a Ha) as [Hlo Hhi].
  assert (Hn : (prec < ndigits a)%Z).
  { destruct (Z.le_gt_cases (ndigits a) prec) as [Hle|]; [|lia].
    apply ndigits_le_iff in Hle; unfold prec in *; lia. }
  set (k := (ndigits a - prec)%Z).
  assert (Hk : (1 <= k)%Z) by (unfold k; lia).
  assert (Hlo' : (10 ^ 27 * 10 ^ k <= a)%Z).
  { rewrite <- Z.pow_add_r by lia.
    replace (27 + k)%Z with (ndigits a - 1)%Z by (unfold k, prec; lia). exact Hlo. }
  assert (Hhi' : (a < 10 ^ 28 * 10 ^ k)%Z).
  { rewrite <- Z.pow_add_r by lia.
    replace (28 + k)%Z with (ndigits a) by (unfold k, prec; lia). exact Hhi. }
  set (q := round_half_even a k).
  assert (Hq1 : (10 ^ 27 <= q)%Z) by (apply round_half_even_ge; lia).
  assert (Hq2 : (q <= 10 ^ 28)%Z) by (apply round_half_even_le; lia).
  exists k, q. repeat split; try assumption; try reflexivity.
  all: unfold dec_fix; fold a;
    destruct (Z.leb_spec (ndigits a) prec) as [Hc|Hc]; [lia|]; fold k; fold q.
  all: destruct (Z.ltb_spec prec (ndigits q)) as [Hcarry|Hcarry].
  all: try (assert (Hq : q = (10 ^ 28)%Z);
            [ destruct (Z.eq_dec q (10 ^ 28)) as [|Hne]; [assumption|exfalso];
              assert (ndigits q <= prec)%Z
                by (apply ndigits_le_iff; unfold prec; lia); lia
            | rewrite Hq; change (10 ^ 28 / 10)%Z with (10 ^ 27)%Z ]).
  - apply in_context_iff. cbn [coef]. unfold prec.
    destruct (coef d); cbn [Z.sgn]; lia.
  - apply in_context_iff. cbn [coef]. unfold prec.
    assert (ndigits q <= 28)%Z by (unfold prec in Hcarry; lia).
    apply ndigits_le_iff in H0; [|lia|lia].
    destruct (coef d); cbn [Z.sgn]; lia.
  - cbn [coef]. destruct (coef d); cbn [Z.sgn]; lia.
  - cbn [coef]. destruct (coef d); cbn [Z.sgn]; lia.
  - rewrite D2Q_mk.
    replace (expo d + k + 1)%Z with (expo d + (k + 1))%Z by lia.
    rewrite p10_add, (p10_Z (k + 1)) by lia.
    rewrite Z.pow_add_r by lia.
    rewrite !inject_Z_mult. change (10 ^ 28)%Z with (10 ^ 27 * 10)%Z.
    change (10 ^ 1)%Z with 10%Z. rewrite !inject_Z_mult. ring.
  - rewrite D2Q_mk, p10_add, (p10_Z k) by lia.
    rewrite !inject_Z_mult. ring.
Qed.

Lemma dec_fix_in_context (d : Decimal) : in_context (dec_fix d) = true.
Proof.
  destruct (in_context d) eqn:E.
  - rewrite dec_fix_exact; assumption.
  - destruct (dec_fix_round d E) as (k & q & _ & _ & _ & _ & H & _). exact H.
Qed.

Lemma dec_fix_sgn (d : Decimal) : Z.sgn (coef (dec_fix d)) = Z.sgn (coef d).
Proof.
  destruct (in_context d) eqn:E.
  - rewrite dec_fix_exact; auto.
  - destruct (dec_fix_round d E) as (k & q & _ & _ & _ & _ & _ & H & _). exact H.
Qed.

Lemma dec_fix_neg (d : Decimal) : dec_fix (dec_neg d) = dec_neg (dec_fix d).
Proof.
  unfold dec_fix, dec_neg. cbn [coef expo].
  rewrite Z.abs_opp, Z.sgn_opp.
  destruct (ndigits (Z.abs (coef d)) <=? prec)%Z; [reflexivity|].
  destruct (prec <? ndigits _)%Z; cbn [coef expo]; f_equal; lia.
Qed.

Lemma scaled_le (m n : Z) (P : Q) :
  0 < P -> (inject_Z m * P <= inject_Z n * P <-> (m <= n)%Z).
Proof.
  intros HP. rewrite Zle_Qle. apply Qmult_le_r. exact HP.
Qed.

Lemma scaled_lt (m n : Z) (P : Q) :
  0 < P -> (inject_Z m * P < inject_Z n * P <-> (m < n)%Z).
Proof.
  intros HP. rewrite Zlt_Qlt. apply Qmult_lt_r. exact HP.
Qed.

Lemma dec_fix_rel (d : Decimal) :
  (0 <= coef d)%Z ->
  D2Q d * (1 - eps) <= D2Q (dec_fix d) <= D2Q d * (1 + eps).
Proof.
  intros Hc. destruct (in_context d) eqn:E.
  - rewrite dec_fix_exact by assumption.
    apply D2Q_nonneg in Hc. unfold eps. split; nra.
  - destruct (dec_fix_round d E) as (k & q & Hk & [Hlo Hhi] & Hq & _ & _ & _ & Hv).
    pose proof (round_half_even_error (Z.abs (coef d)) k ltac:(lia)) as Herr.
    rewrite <- Hq in Herr. rewrite (Z.abs_eq (coef d)) in Hlo, Hhi, Herr by lia.
    assert (Hs : Z.sgn (coef d) = 1%Z).
    { apply Z.sgn_pos. pose proof (pow10_pos k ltac:(lia)). lia. }
    rewrite Hs, Z.mul_1_l in Hv. rewrite Hv, D2Q_eq.
    pose proof (p10_pos (expo d)) as HP.
    set (r := (q * 10 ^ k)%Z) in *. clearbody r.
    set (p := (10 ^ k)%Z) in *. clearbody p.
    change (10 ^ 27)%Z with 1000000000000000000000000000%Z in Hlo.
    assert (H1 : (1000000000000000000000000000 * r
                  <= 1000000000000000000000000000 * coef d + coef d)%Z) by lia.
    assert (H2 : (1000000000000000000000000000 * coef d
                  <= 1000000000000000000000000000 * r + coef d)%Z) by lia.
    z2q H1. z2q H2. z2q Hc. unfold eps.
    set (A := inject_Z (coef d)) in *. set (R := inject_Z r) in *.
    assert (A * (1 - (1 # 1000000000000000000000000000)) <= R) by lra.
    assert (R <= A * (1 + (1 # 1000000000000000000000000000))) by lra.
    split; nra.
Qed.

(** Rounding does not cross a decimal of the context. *)
Lemma dec_fix_pos_bounds (x y : Decimal) :
  (0 < coef x)%Z -> (0 < coef y)%Z -> in_context y = true ->
  (D2Q y <= D2Q x -> D2Q y <= D2Q (dec_fix x)) /\
  (D2Q x <= D2Q y -> D2Q (dec_fix x) <= D2Q y).
Proof.
  intros Hx Hy Hctx. destruct (in_context x) eqn:E.
  { rewrite dec_fix_exact by assumption. tauto. }
  destruct (dec_fix_round x E) as (k & q & Hk & [Hlo Hhi] & Hq & [Hq1 Hq2] & _ & _ & Hv).
  rewrite Z.abs_eq in Hlo, Hhi, Hq by lia.
  rewrite (Z.sgn_pos _ Hx), Z.mul_1_l in Hv.
  apply in_context_iff in Hctx. rewrite Z.abs_eq in Hctx by lia. unfold prec in Hctx.
  rewrite Hv, (D2Q_eq y), (D2Q_eq x).
  pose proof (p10_pos (expo x)) as HP.
  pose proof (pow10_pos k ltac:(lia)) as Hpk.
  destruct (Z.le_gt_cases (expo x + k) (expo y)) as [Hge|Hlt].
  - (* y is a multiple of the unit of the rounded coefficient *)
    set (j := (expo y - (expo x + k))%Z).
    assert (Hj : (0 <= j)%Z) by (unfold j; lia).
    assert (HPy : p10 (expo y) == inject_Z (10 ^ j * 10 ^ k) * p10 (expo x)).
    { replace (expo y) with (expo x + (k + j))%Z by (unfold j; lia).
      rewrite p10_add, (p10_Z (k + j)) by lia.
      rewrite Z.pow_add_r, !inject_Z_mult by lia. ring. }
    rewrite HPy, !Qmult_assoc, <- !inject_Z_mult, !scaled_le by assumption.
    rewrite !Z.mul_assoc.
    split; intros H.
    + apply Z.mul_le_mono_nonneg_r; [lia|]. subst q.
      apply round_half_even_ge; lia.
    + apply Z.mul_le_mono_nonneg_r; [lia|]. subst q.
      apply round_half_even_le; lia.
  - (* y lies below the smallest decimal with the exponent of the result *)
    set (j := (expo x + k - expo y)%Z).
    assert (Hj : (1 <= j)%Z) by (unfold j; lia).
    assert (HPx : inject_Z (10 ^ k) * p10 (expo x) == inject_Z (10 ^ j) * p10 (expo y)).
    { rewrite <- (p10_Z k), <- (p10_Z j), <- !p10_add by lia.
      replace (k + expo x)%Z with (j + expo y)%Z by (unfold j; lia). reflexivity. }
    pose proof (p10_pos (expo y)) as HPy.
    assert (H10 : (10 <= 10 ^ j)%Z).
    { change 10%Z with (10 ^ 1)%Z at 1. apply Z.pow_le_mono_r; lia. }
    assert (Hylt : inject_Z (coef y) * p10 (expo y) <
                   inject_Z (10 ^ 27 * 10 ^ k) * p10 (expo x)).
    { rewrite inject_Z_mult, <- Qmult_assoc, HPx, Qmult_assoc, <- inject_Z_mult.
      apply scaled_lt; [assumption|]. nia. }
    split; intros H.
    + apply Qlt_le_weak. eapply Qlt_le_trans; [exact Hylt|].
      apply scaled_le; [assumption|]. nia.
    + exfalso. apply (Qlt_irrefl (inject_Z (coef y) * p10 (expo y))).
      eapply Qlt_le_trans; [exact Hylt|].
      eapply Qle_trans; [|exact H].
      apply scaled_le; [assumption|]. lia.
Qed.

Lemma dec_fix_ge (x y : Decimal) :
  in_context y = true -> D2Q y <= D2Q x -> D2Q y <= D2Q (dec_fix x).
Proof.
  intros Hctx H.
  pose proof (dec_fix_sgn x) as Hs.
  destruct (Z.lt_trichotomy (coef x) 0) as [Hx|[Hx|Hx]].
  - (* x < 0, hence y < 0: mirror both *)
    assert (Hxn : D2Q x < 0).
    { destruct (Qlt_le_dec (D2Q x) 0) as [|Hge]; [assumption|].
      apply D2Q_nonneg in Hge. lia. }
    assert (Hy : (coef y < 0)%Z).
    { destruct (Z.lt_ge_cases (coef y) 0) as [|Hge]; [assumption|].
      apply D2Q_nonneg in Hge. lra. }
    destruct (dec_fix_pos_bounds (dec_neg x) (dec_neg y)) as [_ Hb].
    + cbn; lia.
    + cbn; lia.
    + unfold in_context in *. cbn [dec_neg coef]. rewrite Z.abs_opp. exact Hctx.
    + rewrite dec_fix_neg, !D2Q_neg in Hb. lra.
  - rewrite dec_fix_exact; [exact H|].
    apply in_context_iff. rewrite Hx. reflexivity.
  - destruct (Z.lt_ge_cases 0 (coef y)) as [Hy|Hy].
    + apply (dec_fix_pos_bounds x y); assumption.
    + assert (D2Q y <= 0).
      { destruct (Qlt_le_dec 0 (D2Q y)) as [Hp|]; [|assumption].
        apply D2Q_pos in Hp. lia. }
      assert (0 <= D2Q (dec_fix x)).
      { apply D2Q_nonneg. rewrite (Z.sgn_pos _ Hx) in Hs.
        apply Z.sgn_pos_iff in Hs. lia. }
      lra.
Qed.

Lemma dec_fix_le (x y : Decimal) :
  in_context y = true -> D2Q x <= D2Q y -> D2Q (dec_fix x) <= D2Q y.
Proof.
  intros Hctx H.
  assert (Hn : D2Q (dec_neg y) <= D2Q (dec_fix (dec_neg x))).
  { apply dec_fix_ge.
    - unfold in_context in *. cbn [dec_neg coef]. rewrite Z.abs_opp. exact Hctx.
    - rewrite !D2Q_neg. lra. }
  rewrite dec_fix_neg, !D2Q_neg in Hn. lra.
Qed.

Lemma dec_fix_nonneg (d : Decimal) : 0 <= D2Q d -> 0 <= D2Q (dec_fix d).
Proof.
  rewrite !D2Q_nonneg. pose proof (dec_fix_sgn d) as Hs. intros H.
  destruct (Z.lt_ge_cases (coef (dec_fix d)) 0) as [Hneg|]; [|assumption].
  rewrite (Z.sgn_neg _ Hneg) in Hs. symmetry in Hs.
  apply Z.sgn_neg_iff in Hs. lia.
Qed.

Lemma dec_fix_pos (d : Decimal) : 0 < D2Q d <-> 0 < D2Q (dec_fix d).
Proof.
  rewrite !D2Q_pos.
  rewrite <- (Z.sgn_pos_iff (coef d)), <- (Z.sgn_pos_iff (coef (dec_fix d))).
  rewrite dec_fix_sgn. reflexivity.
Qed.

Lemma dec_fix_zero (d : Decimal) : D2Q d == 0 <-> D2Q (dec_fix d) == 0.
Proof.
  rewrite !D2Q_zero.
  rewrite <- (Z.sgn_null_iff (coef d)), <- (Z.sgn_null_iff (coef (dec_fix d))).
  rewrite dec_fix_sgn. reflexivity.
Qed.

(** ** Addition, subtraction, multiplication *)

Lemma add_exact_value (x y : Decimal) : D2Q (add_exact x y) == D2Q x + D2Q y.
Proof.
  unfold add_exact. set (e := Z.min (expo x) (expo y)).
  rewrite D2Q_mk, inject_Z_plus, !inject_Z_mult, !D2Q_eq.
  assert (Hx : p10 (expo x) == inject_Z (10 ^ (expo x - e)) * p10 e).
  { rewrite <- p10_Z, <- p10_add by (unfold e; lia).
    replace (expo x - e + e)%Z with (expo x) by lia. reflexivity. }
  assert (Hy : p10 (expo y) == inject_Z (10 ^ (expo y - e)) * p10 e).
  { rewrite <- p10_Z, <- p10_add by (unfold e; lia).
    replace (expo y - e + e)%Z with (expo y) by lia. reflexivity. }
  rewrite Hx, Hy. ring.
Qed.

Lemma mul_exact_value (x y : Decimal) : D2Q (mul_exact x y) == D2Q x * D2Q y.
Proof.
  unfold mul_exact. rewrite D2Q_mk, inject_Z_mult, p10_add, !D2Q_eq. ring.
Qed.

Lemma dec_add_in_context (x y : Decimal) : in_context (dec_add x y) = true.
Proof. apply dec_fix_in_context. Qed.

Lemma dec_mul_in_context (x y : Decimal) : in_context (dec_mul x y) = true.
Proof. apply dec_fix_in_context. Qed.

Lemma dec_add_rel (x y : Decimal) :
  0 <= D2Q x + D2Q y ->
  (D2Q x + D2Q y) * (1 - eps) <= D2Q (dec_add x y) <= (D2Q x + D2Q y) * (1 + eps).
Proof.
  intros H. pose proof (add_exact_value x y) as E.
  assert (Hr : (0 <= coef (add_exact x y))%Z) by (apply D2Q_nonneg; lra).
  apply dec_fix_rel in Hr. fold (dec_add x y) in Hr. rewrite E in Hr. exact Hr.
Qed.

Lemma dec_mul_rel (x y : Decimal) :
  0 <= D2Q x * D2Q y ->
  (D2Q x * D2Q y) * (1 - eps) <= D2Q (dec_mul x y) <= (D2Q x * D2Q y) * (1 + eps).
Proof.
  intros H. pose proof (mul_exact_value x y) as E.
  assert (Hr : (0 <= coef (mul_exact x y))%Z) by (apply D2Q_nonneg; lra).
  apply dec_fix_rel in Hr. fold (dec_mul x y) in Hr. rewrite E in Hr. exact Hr.
Qed.

Lemma dec_add_nonneg (x y : Decimal) :
  0 <= D2Q x -> 0 <= D2Q y -> 0 <= D2Q (dec_add x y).
Proof.
  intros Hx Hy. apply dec_fix_nonneg. rewrite add_exact_value. lra.
Qed.

Lemma dec_add_pos_iff (x y : Decimal) :
  0 < D2Q (dec_add x y) <-> 0 < D2Q x + D2Q y.
Proof.
  unfold dec_add. rewrite <- dec_fix_pos, add_exact_value. reflexivity.
Qed.

Lemma dec_add_zero_iff (x y : Decimal) :
  D2Q (dec_add x y) == 0 <-> D2Q x + D2Q y == 0.
Proof.
  unfold dec_add. rewrite <- dec_fix_zero, add_exact_value. reflexivity.
Qed.

(** Adding a nonnegative amount to a decimal of the context does not
    lower it. *)
Lemma dec_add_ge_l (x y : Decimal) :
  in_context x = true -> 0 <= D2Q y -> D2Q x <= D2Q (dec_add x y).
Proof.
  intros Hx Hy. apply dec_fix_ge; [exact Hx|]. rewrite add_exact_value. lra.
Qed.

Lemma dec_add_0_r (x y : Decimal) :
  in_context x = true -> D2Q y == 0 -> D2Q (dec_add x y) == D2Q x.
Proof.
  intros Hx Hy. apply Qle_antisym.
  - apply dec_fix_le; [exact Hx|]. rewrite add_exact_value. lra.
  - apply dec_fix_ge; [exact Hx|]. rewrite add_exact_value. lra.
Qed.

Lemma dec_add_exact (x y : Decimal) :
  in_context (add_exact x y) = true -> D2Q (dec_add x y) == D2Q x + D2Q y.
Proof.
  intros H. unfold dec_add. rewrite dec_fix_exact by exact H.
  apply add_exact_value.
Qed.

Lemma dec_mul_nonneg (x y : Decimal) :
  0 <= D2Q x -> 0 <= D2Q y -> 0 <= D2Q (dec_mul x y).
Proof.
  intros Hx Hy. apply dec_fix_nonneg. rewrite mul_exact_value. nra.
Qed.

Lemma dec_mul_pos (x y : Decimal) :
  0 < D2Q x -> 0 < D2Q y -> 0 < D2Q (dec_mul x y).
Proof.
  intros Hx Hy. apply (proj1 (dec_fix_pos (mul_exact x y))).
  rewrite mul_exact_value. nra.
Qed.


Lemma dec_mul_zero_r (x y : Decimal) : D2Q y == 0 -> D2Q (dec_mul x y) == 0.
Proof.
  intros Hy. apply (proj1 (dec_fix_zero (mul_exact x y))).
  rewrite mul_exact_value, Hy. ring.
Qed.

Lemma dec_sub_pos_iff (x y : Decimal) : 0 < D2Q (dec_sub x y) <-> D2Q y < D2Q x.
Proof.
  unfold dec_sub. rewrite dec_add_pos_iff, D2Q_neg. split; intros; lra.
Qed.

Lemma dec_sub_zero_iff (x y : Decimal) : D2Q (dec_sub x y) == 0 <-> D2Q x == D2Q y.
Proof.
  unfold dec_sub. rewrite dec_add_zero_iff, D2Q_neg. split; intros; lra.
Qed.

(** ** Division *)

Lemma dec_div_raises (x y : Decimal) :
  raises (dec_div x y) = (coef y =? 0)%Z.
Proof.
  unfold dec_div. destruct (coef y =? 0)%Z.
  - destruct (coef x =? 0)%Z; reflexivity.
  - destruct (coef x =? 0)%Z; reflexivity.
Qed.

Lemma dec_div_zero_division (x y : Decimal) :
  zero_division (dec_div x y) = raises (dec_div x y).
Proof.
  unfold dec_div. destruct (coef y =? 0)%Z.
  - destruct (coef x =? 0)%Z; reflexivity.
  - destruct (coef x =? 0)%Z; reflexivity.
Qed.

Lemma dec_div_ok (x y : Decimal) :
  coef y <> 0%Z -> exists q, dec_div x y = Ok q /\ in_context q = true.
Proof.
  intros Hy. apply Z.eqb_neq in Hy. unfold dec_div. rewrite Hy.
  destruct (coef x =? 0)%Z; eexists; (split; [reflexivity|apply dec_fix_in_context]).
Qed.

Lemma strip_to_ideal_value (fuel : nat) (c e ideal : Z) :
  inject_Z (fst (strip_to_ideal fuel c e ideal)) * p10 (snd (strip_to_ideal fuel c e ideal))
  == inject_Z c * p10 e.
Proof.
  revert c e; induction fuel as [|f IH]; intros c e; cbn [strip_to_ideal].
  - reflexivity.
  - destruct ((e <? ideal)%Z && (c mod 10 =? 0)%Z) eqn:E; [|reflexivity].
    apply andb_true_iff in E. destruct E as [_ E]. apply Z.eqb_eq in E.
    rewrite IH, p10_add.
    pose proof (Z.div_mod c 10 ltac:(lia)) as Hc. rewrite E, Z.add_0_r in Hc.
    rewrite Hc at 2. rewrite inject_Z_mult.
    change (p10 1) with (inject_Z 10). ring.
Qed.

(** The scaled numerator and denominator of a quotient of positive
    coefficients: the integer quotient has more than [prec] digits. *)
Lemma div_num_den (a b : Z) :
  (0 < a)%Z -> (0 < b)%Z ->
  let shift := (ndigits b - ndigits a + prec + 1)%Z in
  let num := if (0 <=? shift)%Z then (a * 10 ^ shift)%Z else a in
  let den := if (0 <=? shift)%Z then b else (b * 10 ^ (- shift))%Z in
  (0 < den)%Z /\ (10 ^ 28 * den <= num)%Z.
Proof.
  intros Ha Hb shift num den.
  pose proof (ndigits_spec a Ha) as [Halo Hahi].
  pose proof (ndigits_spec b Hb) as [Hblo Hbhi].
  pose proof (ndigits_pos a) as Hna. pose proof (ndigits_pos b) as Hnb.
  unfold num, den. destruct (Z.leb_spec 0 shift) as [Hs|Hs].
  - split; [lia|].
    assert (H1 : (10 ^ 28 * 10 ^ ndigits b = 10 ^ (ndigits a - 1) * 10 ^ shift)%Z).
    { rewrite <- !Z.pow_add_r by lia. f_equal. unfold shift, prec. lia. }
    pose proof (pow10_pos shift Hs) as Hps.
    assert (10 ^ (ndigits a - 1) * 10 ^ shift <= a * 10 ^ shift)%Z
      by (apply Z.mul_le_mono_nonneg_r; lia).
    assert (10 ^ 28 * b <= 10 ^ 28 * 10 ^ ndigits b)%Z
      by (apply Z.mul_le_mono_nonneg_l; lia).
    lia.
  - pose proof (pow10_pos (- shift) ltac:(lia)) as Hps.
    split; [apply Z.mul_pos_pos; lia|].
    assert (H1 : (10 ^ 28 * (10 ^ ndigits b * 10 ^ (- shift)) = 10 ^ (ndigits a - 1))%Z).
    { rewrite <- !Z.pow_add_r by lia. f_equal. unfold shift, prec. lia. }
    assert (b * 10 ^ (- shift) <= 10 ^ ndigits b * 10 ^ (- shift))%Z
      by (apply Z.mul_le_mono_nonneg_r; lia).
    lia.
Qed.

(** The error of a quotient: [c] is the integer quotient or its successor,
    [t] is [c] rounded to a multiple of [p]. *)
Lemma div_core (num den q c p t : Z) :
  (0 < den)%Z -> (q * den <= num < (q + 1) * den)%Z ->
  (q <= c <= q + 1)%Z -> (10 <= p)%Z ->
  (1000000000000000000000000000 * p <= c)%Z ->
  (2 * Z.abs (t - c) <= p)%Z ->
  (1000000000000000000000000000 * (t * den) <= 1000000000000000000000000000 * num + num)%Z /\
  (1000000000000000000000000000 * num <= 1000000000000000000000000000 * (t * den) + num)%Z.
Proof.
  intros Hden [Hq1 Hq2] Hc Hp Hlo Herr.
  assert (Hv : (- den <= c * den - num <= den)%Z).
  { assert (c = q \/ c = (q + 1)%Z) as [-> | ->] by lia; lia. }
  assert (Hu1 : (2 * ((t - c) * den) <= p * den)%Z).
  { rewrite Z.mul_assoc. apply Z.mul_le_mono_nonneg_r; lia. }
  assert (Hu2 : (- (p * den) <= 2 * ((t - c) * den))%Z).
  { rewrite Z.mul_assoc, <- Z.mul_opp_l. apply Z.mul_le_mono_nonneg_r; lia. }
  assert (Hpd : (10 * den <= p * den)%Z)
    by (apply Z.mul_le_mono_nonneg_r; lia).
  assert (Hn : ((1000000000000000000000000000 * p - 1) * den <= num)%Z).
  { eapply Z.le_trans; [|exact Hq1].
    apply Z.mul_le_mono_nonneg_r; lia. }
  assert (Ht : (t * den = (t - c) * den + c * den)%Z) by ring.
  rewrite Ht. clear Ht.
  set (ud := ((t - c) * den)%Z) in *. clearbody ud.
  set (cd := (c * den)%Z) in *. clearbody cd.
  replace ((1000000000000000000000000000 * p - 1) * den)%Z
    with (1000000000000000000000000000 * (p * den) - den)%Z in Hn by ring.
  set (pd := (p * den)%Z) in *. clearbody pd.
  lia.
Qed.

(** The scaling that relates the integer quotient to the two values. *)
Lemma div_scaling (x y : Decimal) :
  let a := coef x in
  let b := coef y in
  let shift := (ndigits b - ndigits a + prec + 1)%Z in
  let e := (expo x - expo y - shift)%Z in
  let num := if (0 <=? shift)%Z then (a * 10 ^ shift)%Z else a in
  let den := if (0 <=? shift)%Z then b else (b * 10 ^ (- shift))%Z in
  exists K : Q,
    0 < K /\ D2Q x == inject_Z num * K /\
    forall c, inject_Z c * p10 e * D2Q y == inject_Z (c * den) * K.
Proof.
  intros a b shift e num den. unfold num, den.
  destruct (Z.leb_spec 0 shift) as [Hs|Hs].
  - exists (p10 (expo x - shift)). split; [apply p10_pos|]. split.
    + rewrite D2Q_eq, inject_Z_mult, <- (p10_Z shift Hs), <- Qmult_assoc, <- p10_add.
      replace (shift + (expo x - shift))%Z with (expo x) by lia. reflexivity.
    + intros c. rewrite (D2Q_eq y), inject_Z_mult.
      replace (expo x - shift)%Z with (e + expo y)%Z by (unfold e; lia).
      rewrite p10_add. fold b. ring.
  - exists (p10 (expo x)). split; [apply p10_pos|]. split.
    + rewrite D2Q_eq. reflexivity.
    + intros c. rewrite (D2Q_eq y), !inject_Z_mult, <- (p10_Z (- shift)) by lia.
      assert (Hex : p10 e * p10 (expo y) == p10 (- shift) * p10 (expo x)).
      { rewrite <- !p10_add. replace (- shift + expo x)%Z with (e + expo y)%Z
          by (unfold e; lia). reflexivity. }
      fold b. rewrite <- !Qmult_assoc, (Qmult_comm (p10 e)), <- !Qmult_assoc.
      rewrite (Qmult_comm (p10 (expo y))), Hex. ring.
Qed.

(** A quotient of a nonnegative by a positive decimal: it is defined,
    nonnegative, and correct up to the relative error [eps]. *)
Lemma dec_div_rel (x y : Decimal) :
  (0 <= coef x)%Z -> (0 < coef y)%Z ->
  exists q,
    dec_div x y = Ok q /\ in_context q = true /\
    0 <= D2Q q /\ ((0 < coef x)%Z -> 0 < D2Q q) /\
    D2Q x * (1 - eps) <= D2Q q * D2Q y <= D2Q x * (1 + eps).
Proof.
  intros Hx Hy.
  assert (HY : 0 < D2Q y) by (apply D2Q_pos; exact Hy).
  unfold dec_div.
  destruct (Z.eqb_spec (coef y) 0) as [|_]; [lia|].
  destruct (Z.eqb_spec (coef x) 0) as [Hx0|Hx0].
  - eexists. split; [reflexivity|]. split; [apply dec_fix_in_context|].
    rewrite dec_fix_exact by reflexivity.
    assert (Hz : D2Q x == 0) by (apply D2Q_zero; exact Hx0).
    rewrite D2Q_mk, Hz. change (inject_Z 0) with 0.
    split; [lra|]. split; [lia|]. split; lra.
  - assert (Ha : (0 < coef x)%Z) by lia.
    rewrite (Z.abs_eq (coef x)), (Z.abs_eq (coef y)) by lia.
    rewrite (Z.sgn_pos _ Ha), (Z.sgn_pos _ Hy).
    pose proof (div_num_den (coef x) (coef y) Ha Hy) as Hnd.
    pose proof (div_scaling x y) as Hsc.
    cbv zeta in Hnd, Hsc. cbv zeta.
    set (shift := (ndigits (coef y) - ndigits (coef x) + prec + 1)%Z) in *.
    set (e := (expo x - expo y - shift)%Z) in *.
    set (num := if (0 <=? shift)%Z then (coef x * 10 ^ shift)%Z else coef x) in *.
    set (den := if (0 <=? shift)%Z then coef y else (coef y * 10 ^ (- shift))%Z) in *.
    clearbody num den. destruct Hnd as [Hden Hnum].
    destruct Hsc as (K & HK & HxK & HcK).
    pose proof (Z.div_mod num den ltac:(lia)) as Hdm.
    pose proof (Z.mod_pos_bound num den Hden) as Hmod.
    assert (Hq : (10 ^ 28 <= num / den)%Z) by (apply Z.div_le_lower_bound; lia).
    set (q := (num / den)%Z) in *. set (r := (num mod den)%Z) in *.
    clearbody q r.
    eexists. split; [reflexivity|]. split; [apply dec_fix_in_context|].
    rewrite Z.mul_1_l.
    destruct (Z.eqb_spec r 0) as [Hr|Hr].
    + (* the quotient is exact *)
      set (ce := strip_to_ideal _ q e _).
      pose proof (strip_to_ideal_value (Z.to_nat (expo x - expo y - e)) q e
                    (expo x - expo y)) as Hst.
      fold ce in Hst. rewrite <- D2Q_mk in Hst.
      set (w := mkDec (fst ce) (snd ce)) in *. clearbody w. clear ce.
      assert (HwY : D2Q w * D2Q y == D2Q x).
      { rewrite Hst, HcK, HxK. replace (q * den)%Z with num by lia. reflexivity. }
      assert (Hw : 0 < D2Q w).
      { assert (0 < D2Q x) by (apply D2Q_pos; exact Ha).
        destruct (Qlt_le_dec 0 (D2Q w)) as [|Hle]; [assumption|exfalso]. nra. }
      assert (Hwc : (0 <= coef w)%Z) by (apply D2Q_nonneg; lra).
      pose proof (dec_fix_rel w Hwc) as [Hr1 Hr2].
      pose proof (proj1 (dec_fix_pos w) Hw) as Hpos.
      set (v := D2Q (dec_fix w)) in *. clearbody v.
      split; [lra|]. split; [intros _; exact Hpos|].
      rewrite <- HwY. unfold eps in *. split; nra.
    + (* the quotient is inexact: one digit is marked, then rounded *)
      cbn [fst snd].
      set (c := if (q mod 5 =? 0)%Z then (q + 1)%Z else q).
      assert (Hc : (q <= c <= q + 1)%Z) by (unfold c; destruct (q mod 5 =? 0)%Z; lia).
      clearbody c.
      assert (E : in_context (mkDec c e) = false).
      { unfold in_context. cbn [coef]. apply Z.ltb_ge. unfold prec. lia. }
      destruct (dec_fix_round _ E)
        as (k & t & Hk & [Hlo Hhi] & Ht & [Ht1 Ht2] & _ & _ & Hv).
      cbn [coef expo] in *.
      rewrite Z.abs_eq in Hlo, Hhi, Ht by lia.
      rewrite (Z.sgn_pos c), Z.mul_1_l in Hv by lia.
      pose proof (round_half_even_error c k ltac:(lia)) as Herr.
      rewrite <- Ht in Herr.
      assert (Hp : (10 <= 10 ^ k)%Z).
      { change 10%Z with (10 ^ 1)%Z at 1. apply Z.pow_le_mono_r; lia. }
      change (10 ^ 27)%Z with 1000000000000000000000000000%Z in Hlo.
      destruct (div_core num den q c (10 ^ k) (t * 10 ^ k))
        as [H1 H2]; try assumption; try lia.
      assert (HvY : D2Q (dec_fix (mkDec c e)) * D2Q y
                    == inject_Z (t * 10 ^ k * den) * K).
      { rewrite Hv. apply HcK. }
      assert (Hpos : 0 < D2Q (dec_fix (mkDec c e))).
      { apply (proj1 (dec_fix_pos (mkDec c e))). apply D2Q_pos. cbn [coef]. lia. }
      split; [lra|]. split; [intros _; exact Hpos|].
      rewrite HvY, HxK.
      set (T := (t * 10 ^ k * den)%Z) in *. clearbody T.
      z2q H1. z2q H2. unfold eps.
      set (N := inject_Z num) in *. set (TQ := inject_Z T) in *.
      assert (N * (1 - (1 # 1000000000000000000000000000)) <= TQ) by lra.
      assert (TQ <= N * (1 + (1 # 1000000000000000000000000000))) by lra.
      split; nra.
Qed.

(** ** Sums *)

Lemma D2Q_D0 : D2Q D0 == 0.
Proof. reflexivity. Qed.

Lemma nonneg_D0 : nonneg D0.
Proof. unfold nonneg. rewrite D2Q_D0. lra. Qed.

Lemma Qsum_nonneg (l : list Decimal) : Forall nonneg l -> 0 <= Qsum l.
Proof.
  induction 1 as [|d l Hd _ IH]; cbn [Qsum]; [lra|]. unfold nonneg in Hd. lra.
Qed.

Lemma qpow_pos (x : Q) (n : nat) : 0 < x -> 0 < qpow x n.
Proof.
  intros Hx. induction n as [|n IH]; cbn [qpow]; [reflexivity|]. nra.
Qed.

Lemma eps_bounds : 0 < 1 - eps /\ 1 - eps <= 1 /\ 1 <= 1 + eps.
Proof. unfold eps. repeat split; lra. Qed.

Lemma fold_add_nonneg (l : list Decimal) (acc : Decimal) :
  nonneg acc -> Forall nonneg l -> nonneg (fold_left dec_add l acc).
Proof.
  intros Hacc Hl. revert acc Hacc.
  induction Hl as [|d l Hd _ IH]; intros acc Hacc; cbn [fold_left]; [exact Hacc|].
  apply IH. apply dec_add_nonneg; assumption.
Qed.

Lemma fold_add_in_context (l : list Decimal) (acc : Decimal) :
  in_context acc = true -> in_context (fold_left dec_add l acc) = true.
Proof.
  revert acc; induction l as [|d l IH]; intros acc Hacc; cbn [fold_left];
    [exact Hacc|].
  apply IH, dec_add_in_context.
Qed.

Lemma py_sum_in_context (l : list Decimal) : in_context (py_sum l) = true.
Proof. apply fold_add_in_context. reflexivity. Qed.

Lemma py_sum_nonneg (l : list Decimal) : Forall nonneg l -> nonneg (py_sum l).
Proof. apply fold_add_nonneg. exact nonneg_D0. Qed.

(** A sum of nonnegative terms is zero only if every term is. *)
Lemma fold_add_zero (l : list Decimal) (acc : Decimal) :
  nonneg acc -> Forall nonneg l ->
  is_zero (fold_left dec_add l acc) -> is_zero acc /\ Forall is_zero l.
Proof.
  intros Hacc Hl. revert acc Hacc.
  induction Hl as [|d l Hd Hl IH]; intros acc Hacc Hz; cbn [fold_left] in Hz.
  - split; [exact Hz|constructor].
  - destruct (IH (dec_add acc d)) as [Hz' Hl'];
      [apply dec_add_nonneg; assumption|exact Hz|].
    apply dec_add_zero_iff in Hz'. unfold nonneg, is_zero in *.
    split; [lra|]. constructor; [lra|exact Hl'].
Qed.

Lemma py_sum_zero (l : list Decimal) :
  Forall nonneg l -> is_zero (py_sum l) -> Forall is_zero l.
Proof.
  intros Hl Hz. apply (fold_add_zero l D0); [exact nonneg_D0|exact Hl|exact Hz].
Qed.

Lemma fold_add_all_zero (l : list Decimal) (acc : Decimal) :
  is_zero acc -> Forall is_zero l -> is_zero (fold_left dec_add l acc).
Proof.
  intros Hacc Hl. revert acc Hacc.
  induction Hl as [|d l Hd _ IH]; intros acc Hacc; cbn [fold_left]; [exact Hacc|].
  apply IH. apply dec_add_zero_iff. unfold is_zero in *. lra.
Qed.

Lemma py_sum_all_zero (l : list Decimal) : Forall is_zero l -> is_zero (py_sum l).
Proof. apply fold_add_all_zero. unfold is_zero. reflexivity. Qed.

(** The accumulated error of the additions of a sum of nonnegative terms. *)
Lemma fold_add_bounds (l : list Decimal) (acc : Decimal) :
  nonneg acc -> Forall nonneg l ->
  (D2Q acc + Qsum l) * qpow (1 - eps) (List.length l)
    <= D2Q (fold_left dec_add l acc)
    <= (D2Q acc + Qsum l) * qpow (1 + eps) (List.length l).
Proof.
  intros Hacc Hl. revert acc Hacc.
  induction Hl as [|d l Hd Hl IH]; intros acc Hacc;
    cbn [fold_left Qsum List.length qpow].
  - split; lra.
  - destruct (IH (dec_add acc d)) as [IH1 IH2];
      [apply dec_add_nonneg; assumption|].
    unfold nonneg in *.
    pose proof (Qsum_nonneg l Hl) as Hs.
    destruct (dec_add_rel acc d) as [Hr1 Hr2]; [lra|].
    destruct eps_bounds as (He1 & He2 & He3).
    pose proof (qpow_pos (1 - eps) (List.length l) He1) as Hp1.
    pose proof (qpow_pos (1 + eps) (List.length l) ltac:(lra)) as Hp2.
    set (A := D2Q acc) in *. set (X := D2Q d) in *. set (S := Qsum l) in *.
    set (R := D2Q (dec_add acc d)) in *.
    set (F := D2Q (fold_left dec_add l (dec_add acc d))) in *.
    set (P1 := qpow (1 - eps) (List.length l)) in *.
    set (P2 := qpow (1 + eps) (List.length l)) in *.
    clearbody A X S R F P1 P2.
    assert (H1 : (A + (X + S)) * (1 - eps) <= R + S) by nra.
    assert (H2 : R + S <= (A + (X + S)) * (1 + eps)) by nra.
    split.
    + apply Qle_trans with ((R + S) * P1); [|exact IH1].
      setoid_replace ((A + (X + S)) * ((1 - eps) * P1))
        with (((A + (X + S)) * (1 - eps)) * P1) by ring.
      apply Qmult_le_compat_r; [exact H1|lra].
    + apply Qle_trans with ((R + S) * P2); [exact IH2|].
      setoid_replace ((A + (X + S)) * ((1 + eps) * P2))
        with (((A + (X + S)) * (1 + eps)) * P2) by ring.
      apply Qmult_le_compat_r; [exact H2|lra].
Qed.

Lemma py_sum_bounds (l : list Decimal) :
  Forall nonneg l ->
  Qsum l * qpow (1 - eps) (List.length l) <= D2Q (py_sum l)
    <= Qsum l * qpow (1 + eps) (List.length l).
Proof.
  intros Hl.
  destruct (fold_add_bounds l D0) as [H1 H2]; [exact nonneg_D0|exact Hl|].
  rewrite D2Q_D0 in H1, H2. unfold py_sum. split; lra.
Qed.

End DecFacts.

Import DecFacts.

(** * Properties of dictionaries and comprehensions *)

Module DictFacts.

Section Generic.
Context {V : Type}.
Implicit Types (d : dict V) (k : string) (v : V).

Lemma dict_get_In d k v : dict_get d k = Some v -> In (k, v) d.
Proof.
  induction d as [|[k' v'] d IH]; cbn [dict_get]; [discriminate|].
  destruct (String.eqb_spec k' k) as [->|Hne].
  - intros [= ->]. now left.
  - intros H. right. apply IH, H.
Qed.

Lemma dict_get_value d k v : dict_get d k = Some v -> In v (values d).
Proof.
  intros H. apply dict_get_In in H.
  apply (in_map snd) in H. exact H.
Qed.

Lemma dict_get_key d k v : dict_get d k = Some v -> In k (keys d).
Proof.
  intros H. apply dict_get_In in H.
  apply (in_map fst) in H. exact H.
Qed.

Lemma dict_get_None d k : dict_get d k = None <-> ~ In k (keys d).
Proof.
  induction d as [|[k' v'] d IH]; cbn [dict_get keys map fst].
  - split; [intros _ []|reflexivity].
  - destruct (String.eqb_spec k' k) as [->|Hne].
    + split; [discriminate|]. intros H. exfalso. apply H. now left.
    + rewrite IH. split.
      * intros H [Heq|Hin]; [exact (Hne Heq)|exact (H Hin)].
      * intros H Hin. apply H. right. exact Hin.
Qed.

Lemma dict_get_in_keys d k : In k (keys d) -> exists v, dict_get d k = Some v.
Proof.
  intros H. destruct (dict_get d k) as [v|] eqn:E; [now exists v|].
  apply dict_get_None in E. contradiction.
Qed.

Lemma dict_set_keys d k v : In k (keys d) -> keys (dict_set d k v) = keys d.
Proof.
  induction d as [|[k' v'] d IH]; cbn [dict_set keys map fst]; [intros []|].
  destruct (String.eqb_spec k' k) as [->|Hne]; [reflexivity|].
  intros [H|H]; [contradiction|]. cbn [map fst]. f_equal. apply IH, H.
Qed.

Lemma dict_get_set_same d k v : dict_get (dict_set d k v) k = Some v.
Proof.
  induction d as [|[k' v'] d IH]; cbn [dict_set dict_get].
  - rewrite String.eqb_refl. reflexivity.
  - destruct (String.eqb_spec k' k) as [->|Hne]; cbn [dict_get].
    + rewrite String.eqb_refl. reflexivity.
    + apply String.eqb_neq in Hne. rewrite Hne. exact IH.
Qed.


(** Every value of an updated dictionary is the new value or an old one. *)
Lemma dict_set_values (P : V -> Prop) d k v :
  P v -> Forall P (values d) -> Forall P (values (dict_set d k v)).
Proof.
  intros Hv. induction d as [|[k' v'] d IH]; cbn [dict_set values map snd].
  - intros _. constructor; [exact Hv|constructor].
  - intros H. inversion H as [|? ? H1 H2]; subst.
    destruct (String.eqb k' k); cbn [map snd]; constructor; auto.
Qed.

(** Replacing the value of a key that occurs once. *)
Lemma dict_set_middle (pre suf : dict V) k v v' :
  ~ In k (keys pre) ->
  dict_set (pre ++ (k, v) :: suf) k v' = pre ++ (k, v') :: suf.
Proof.
  induction pre as [|[k0 v0] pre IH]; cbn [app dict_set keys map fst]; intros Hn.
  - rewrite String.eqb_refl. reflexivity.
  - destruct (String.eqb_spec k0 k) as [->|Hne]; [exfalso; apply Hn; now left|].
    f_equal. apply IH. intros H. apply Hn. now right.
Qed.

Lemma dict_get_middle (pre suf : dict V) k v :
  ~ In k (keys pre) -> dict_get (pre ++ (k, v) :: suf) k = Some v.
Proof.
  induction pre as [|[k0 v0] pre IH]; cbn [app dict_get keys map fst]; intros Hn.
  - rewrite String.eqb_refl. reflexivity.
  - destruct (String.eqb_spec k0 k) as [->|Hne]; [exfalso; apply Hn; now left|].
    apply IH. intros H. apply Hn. now right.
Qed.

Lemma dict_getitem_Ok d k v : dict_getitem d k = Ok v <-> dict_get d k = Some v.
Proof.
  unfold dict_getitem. destruct (dict_get d k); split; congruence.
Qed.


Lemma dict_set_set d k v v' : dict_set (dict_set d k v) k v' = dict_set d k v'.
Proof.
  induction d as [|[k0 v0] d IH]; cbn [dict_set].
  - rewrite String.eqb_refl. reflexivity.
  - destruct (String.eqb_spec k0 k) as [->|Hne]; cbn [dict_set].
    + rewrite String.eqb_refl. reflexivity.
    + apply String.eqb_neq in Hne. rewrite Hne. f_equal. exact IH.
Qed.

Lemma dict_set_get_id d k v : dict_get d k = Some v -> dict_set d k v = d.
Proof.
  induction d as [|[k0 v0] d IH]; cbn [dict_get dict_set]; [discriminate|].
  destruct (String.eqb_spec k0 k) as [->|Hne].
  - intros [= ->]. reflexivity.
  - intros H. f_equal. apply IH, H.
Qed.

(** *** Comprehensions *)

Lemma dict_comp_cons (g : string -> result V) k ks :
  dict_comp g (k :: ks) =
  v <- g k ;; d <- dict_comp g ks ;; Ok ((k, v) :: d).
Proof.
  unfold dict_comp. cbn [mapM]. destruct (g k); reflexivity.
Qed.

Lemma dict_comp_keys (g : string -> result V) ks d :
  dict_comp g ks = Ok d -> keys d = ks.
Proof.
  revert d; induction ks as [|k ks IH]; intros d.
  - intros [= <-]. reflexivity.
  - rewrite dict_comp_cons. destruct (g k) as [v|]; [|discriminate].
    cbn [bind]. destruct (dict_comp g ks) as [d'|]; [|discriminate].
    intros [= <-]. cbn. f_equal. apply IH. reflexivity.
Qed.

Lemma dict_comp_values (g : string -> result V) ks d :
  dict_comp g ks = Ok d -> Forall2 (fun k v => g k = Ok v) ks (values d).
Proof.
  revert d; induction ks as [|k ks IH]; intros d.
  - intros [= <-]. constructor.
  - rewrite dict_comp_cons. destruct (g k) as [v|] eqn:E; [|discriminate].
    cbn [bind]. destruct (dict_comp g ks) as [d'|]; [|discriminate].
    intros [= <-]. cbn. constructor; [exact E|]. apply IH. reflexivity.
Qed.

Lemma dict_comp_get (g : string -> result V) ks d k v :
  dict_comp g ks = Ok d -> dict_get d k = Some v -> g k = Ok v /\ In k ks.
Proof.
  revert d; induction ks as [|k0 ks IH]; intros d.
  - intros [= <-]. discriminate.
  - rewrite dict_comp_cons. destruct (g k0) as [v0|] eqn:E; [|discriminate].
    cbn [bind]. destruct (dict_comp g ks) as [d'|]; [|discriminate].
    intros [= <-]. cbn [dict_get].
    destruct (String.eqb_spec k0 k) as [->|Hne].
    + intros [= <-]. split; [exact E|now left].
    + intros H. destruct (IH d' eq_refl H). split; [assumption|now right].
Qed.

Lemma dict_comp_get_in (g : string -> result V) ks d k :
  dict_comp g ks = Ok d -> In k ks ->
  exists v, g k = Ok v /\ dict_get d k = Some v.
Proof.
  intros Hd Hin. rewrite <- (dict_comp_keys _ _ _ Hd) in Hin.
  destruct (dict_get_in_keys _ _ Hin) as [v Hv].
  exists v. split; [|exact Hv]. eapply dict_comp_get; eassumption.
Qed.

Lemma dict_comp_all (P : V -> Prop) (g : string -> result V) ks d :
  dict_comp g ks = Ok d -> (forall k v, In k ks -> g k = Ok v -> P v) ->
  Forall P (values d).
Proof.
  revert d; induction ks as [|k ks IH]; intros d.
  - intros [= <-] _. constructor.
  - rewrite dict_comp_cons. destruct (g k) as [v|] eqn:E; [|discriminate].
    cbn [bind]. destruct (dict_comp g ks) as [d'|]; [|discriminate].
    intros [= <-] HP. cbn [values map snd]. constructor.
    + apply (HP k); [now left|exact E].
    + apply IH; [reflexivity|]. intros k' v' Hin. apply HP. now right.
Qed.

(** A comprehension raises exactly when one of its elements does. *)
Lemma dict_comp_raises (g : string -> result V) ks :
  raises (dict_comp g ks) = existsb (fun k => raises (g k)) ks.
Proof.
  induction ks as [|k ks IH]; [reflexivity|].
  rewrite dict_comp_cons. cbn [existsb]. destruct (g k) as [v|]; cbn [bind raises orb].
  - rewrite <- IH. destruct (dict_comp g ks); reflexivity.
  - reflexivity.
Qed.

Lemma raises_false {A : Type} (m : result A) :
  raises m = false -> exists a, m = Ok a.
Proof. destruct m as [a|]; [now exists a|discriminate]. Qed.

Lemma dict_comp_total (g : string -> result V) ks :
  (forall k, In k ks -> exists v, g k = Ok v) -> exists d, dict_comp g ks = Ok d.
Proof.
  intros H. apply raises_false. rewrite dict_comp_raises.
  apply not_true_is_false. intros Hex. apply existsb_exists in Hex.
  destruct Hex as (k & Hin & Hr). destruct (H k Hin) as [v Hv].
  rewrite Hv in Hr. discriminate.
Qed.
End Generic.

Lemma nodupb_NoDup (l : list string) : nodupb l = true <-> NoDup l.
Proof.
  induction l as [|k l IH]; cbn [nodupb].
  - split; [constructor|reflexivity].
  - rewrite andb_true_iff, negb_true_iff, IH. split.
    + intros [Hn Hd]. constructor; [|exact Hd].
      intros Hin. apply not_true_iff_false in Hn. apply Hn.
      apply existsb_exists. exists k. split; [exact Hin|apply String.eqb_refl].
    + intros H. inversion H as [|? ? Hn Hd]; subst. split; [|exact Hd].
      apply not_true_iff_false. intros Hex. apply existsb_exists in Hex.
      destruct Hex as (k' & Hin & Heq). apply String.eqb_eq in Heq. subst k'.
      contradiction.
Qed.

End DictFacts.
Import DictFacts.

(** * The capping loop *)

Section Capping.
Variables investment_amount total_needed : Decimal.
Hypothesis total_needed_nonzero : coef total_needed <> 0%Z.

Lemma scale_category_ok (d : dict Decimal) (k : string) (v : Decimal) :
  dict_get d k = Some v ->
  scale_category investment_amount total_needed d k = Ok (dict_set d k (scaled investment_amount total_needed v)).
Proof.
  intros Hv. unfold scale_category, dict_getitem, scaled. rewrite Hv. cbn [bind].
  destruct (dec_div_ok v total_needed total_needed_nonzero) as (q & -> & _).
  reflexivity.
Qed.

(** The loop does not fail, keeps the keys and writes scaled values only. *)
Lemma scale_loop_ok (ks : list string) (d : dict Decimal) :
  (forall k, In k ks -> In k (keys d)) ->
  exists d',
    foldM (scale_category investment_amount total_needed) ks d = Ok d' /\
    keys d' = keys d.
Proof.
  revert d; induction ks as [|k ks IH]; intros d Hks; cbn [foldM].
  - exists d. split; reflexivity.
  - destruct (dict_get_in_keys d k (Hks k (or_introl eq_refl))) as [v Hv].
    rewrite (scale_category_ok d k v Hv). cbn [bind].
    assert (Hkeys : keys (dict_set d k (scaled investment_amount total_needed v)) = keys d).
    { apply dict_set_keys. eapply dict_get_key; eassumption. }
    destruct (IH (dict_set d k (scaled investment_amount total_needed v))) as (d' & Hd' & Hk').
    + intros k' Hin. rewrite Hkeys. apply Hks. now right.
    + exists d'. split; [exact Hd'|]. rewrite Hk'. exact Hkeys.
Qed.

(** With distinct keys, the loop rewrites every value once, in place. *)
Lemma scale_loop_map (pre suf : dict Decimal) :
  NoDup (keys (pre ++ suf)) ->
  foldM (scale_category investment_amount total_needed) (keys suf) (pre ++ suf)
  = Ok (pre ++ map (fun kv => (fst kv, scaled investment_amount total_needed (snd kv))) suf).
Proof.
  revert pre; induction suf as [|[k v] suf IH]; intros pre Hnd; cbn [keys map fst foldM].
  - reflexivity.
  - assert (Hk : ~ In k (keys pre)).
    { unfold keys in *. rewrite map_app in Hnd. cbn [map fst] in Hnd.
      apply NoDup_remove_2 in Hnd. intros Hin. apply Hnd.
      apply in_or_app. now left. }
    rewrite (scale_category_ok _ k v (dict_get_middle pre suf k v Hk)).
    cbn [bind]. rewrite (dict_set_middle pre suf k v _ Hk).
    specialize (IH (pre ++ [(k, scaled investment_amount total_needed v)])).
    rewrite <- !app_assoc in IH. cbn [app] in IH.
    cbn [snd]. apply IH.
    unfold keys in *. rewrite !map_app in *. cbn [map fst] in *. exact Hnd.
Qed.
End Capping.

Lemma cap_branch_divisor (investment_amount total_needed : Decimal) :
  dec_le (of_Z 0) investment_amount = true ->
  dec_lt investment_amount total_needed = true ->
  (0 < coef total_needed)%Z.
Proof.
  intros Hinv Hlt. apply dec_le_iff in Hinv. apply dec_lt_iff in Hlt.
  apply D2Q_pos. change (D2Q (of_Z 0)) with (D2Q D0) in Hinv.
  rewrite D2Q_D0 in Hinv. lra.
Qed.

(** [C8] Under [investment_amount >= 0] the capping branch never divides by
    zero: the branch is entered only when [total_needed > investment_amount],
    which makes [total_needed] positive, so every division
    [needed_investments[category] / total_needed] of the loop is defined and
    the capping step as a whole does not raise. *)
Theorem C8_capping_never_divides_by_zero
  (investment_amount : Decimal) (needed_investments : dict Decimal) :
  dec_le (of_Z 0) investment_amount = true ->
  let total_needed := py_sum (values needed_investments) in
  (dec_lt investment_amount total_needed = true ->
   dec_lt (of_Z 0) total_needed = true /\
   forall needed, raises (dec_div needed total_needed) = false) /\
  raises (cap_investments investment_amount needed_investments) = false.
Proof.
  intros Hinv total_needed. split.
  - intros Hlt. pose proof (cap_branch_divisor _ _ Hinv Hlt) as Hpos. split.
    + apply dec_lt_iff. change (D2Q (of_Z 0)) with (D2Q D0). rewrite D2Q_D0.
      apply D2Q_pos. exact Hpos.
    + intros needed. rewrite dec_div_raises. apply Z.eqb_neq. lia.
  - unfold cap_investments. fold total_needed.
    destruct (dec_lt investment_amount total_needed) eqn:Hlt; [|reflexivity].
    pose proof (cap_branch_divisor _ _ Hinv Hlt) as Hpos.
    destruct (scale_loop_ok investment_amount total_needed ltac:(lia)
                (keys needed_investments) needed_investments) as (d' & -> & _);
      [auto|reflexivity].
Qed.

Lemma C8_capping_never_divides_by_zero_witness :
  let needed := [("A"%string, of_Z 500); ("B"%string, of_Z 0)] in
  (dec_lt (of_Z 100) (py_sum (values needed)) = true ->
   dec_lt (of_Z 0) (py_sum (values needed)) = true /\
   forall n, raises (dec_div n (py_sum (values needed))) = false) /\
  raises (cap_investments (of_Z 100) needed) = false.
Proof.
  exact (C8_capping_never_divides_by_zero (of_Z 100)
           [("A"%string, of_Z 500); ("B"%string, of_Z 0)] eq_refl).
Defined.

(** * The Category Aggregator *)

Section Aggregator.
Variable symbol_balances : dict Decimal.

Lemma inner_loop (category : string) (symbols : list string)
  (totals : dict Decimal) (total : Decimal) :
  dict_get totals category = Some total ->
  foldM (add_symbol symbol_balances category) symbols totals
  = Ok (dict_set totals category (sum_symbols symbol_balances symbols total)).
Proof.
  revert totals total; induction symbols as [|s symbols IH]; intros totals total Ht;
    cbn [foldM sum_symbols fold_left].
  - rewrite (dict_set_get_id _ _ _ Ht). reflexivity.
  - unfold add_symbol at 1. unfold dict_getitem. rewrite Ht. cbn [bind].
    rewrite (IH _ _ (dict_get_set_same _ _ _)), dict_set_set. reflexivity.
Qed.

Lemma outer_loop (pre suf : dict (list string)) :
  NoDup (keys (pre ++ suf)) ->
  foldM (fun totals kv =>
           foldM (add_symbol symbol_balances (fst kv)) (snd kv) totals)
        suf
        (map (category_total symbol_balances) pre ++ map (fun kv => (fst kv, of_Z 0)) suf)
  = Ok (map (category_total symbol_balances) pre ++ map (category_total symbol_balances) suf).
Proof.
  revert pre; induction suf as [|[c symbols] suf IH]; intros pre Hnd;
    cbn [foldM map fst snd].
  - reflexivity.
  - assert (Hc : ~ In c (keys (map (category_total symbol_balances) pre))).
    { unfold keys in *. rewrite map_map. cbn [category_total fst].
      rewrite map_app in Hnd. cbn [map fst] in Hnd.
      apply NoDup_remove_2 in Hnd. intros Hin. apply Hnd.
      apply in_or_app. now left. }
    rewrite (inner_loop c symbols _ (of_Z 0)) by (apply dict_get_middle, Hc).
    cbn [bind]. rewrite (dict_set_middle _ _ c _ _ Hc).
    specialize (IH (pre ++ [(c, symbols)])).
    rewrite map_app, <- !app_assoc in IH. cbn [map app category_total fst snd] in IH.
    apply IH. exact Hnd.
Qed.

(** The aggregator in closed form. *)
Lemma get_category_totals_closed (categories : dict (list string)) :
  is_dict categories = true ->
  get_category_totals symbol_balances categories
  = Ok (map (category_total symbol_balances) categories).
Proof.
  intros Hd. apply nodupb_NoDup in Hd.
  exact (outer_loop [] categories Hd).
Qed.

Lemma sum_symbols_in_context (symbols : list string) (start : Decimal) :
  in_context start = true ->
  in_context (sum_symbols symbol_balances symbols start) = true.
Proof.
  revert start; induction symbols as [|s symbols IH]; intros start Hs;
    cbn [sum_symbols fold_left]; [exact Hs|].
  apply IH, dec_add_in_context.
Qed.


Lemma category_totals_in_context (categories : dict (list string)) :
  Forall (fun v => in_context v = true) (values (map (category_total symbol_balances) categories)).
Proof.
  unfold values. rewrite map_map. apply Forall_forall. intros v Hin.
  apply in_map_iff in Hin. destruct Hin as (kv & <- & _).
  apply sum_symbols_in_context. reflexivity.
Qed.

Lemma category_totals_keys (categories : dict (list string)) :
  keys (map (category_total symbol_balances) categories) = keys categories.
Proof. unfold keys. rewrite map_map. reflexivity. Qed.

End Aggregator.



(** * The Investment Distributor *)

(** Inversion of a successful sequence of two steps. *)
Lemma bind_Ok {A B : Type} (m : result A) (k : A -> result B) (b : B) :
  (x <- m ;; k x) = Ok b -> exists a, m = Ok a /\ k a = Ok b.
Proof. destruct m as [a|]; [intros H; now exists a|discriminate]. Qed.

Lemma D2Q_of_Z_0 : D2Q (of_Z 0) == 0.
Proof. reflexivity. Qed.

Lemma dec_le_0_nonneg (v : Decimal) : dec_le (of_Z 0) v = true <-> nonneg v.
Proof. rewrite dec_le_iff, D2Q_of_Z_0. reflexivity. Qed.

Lemma dec_eq_0_zero (v : Decimal) : dec_eq v (of_Z 0) = true <-> is_zero v.
Proof. rewrite dec_eq_iff, D2Q_of_Z_0. reflexivity. Qed.

Lemma Forall_dec_le_0 (l : list Decimal) :
  Forall (fun v => dec_le (of_Z 0) v = true) l <-> Forall nonneg l.
Proof.
  rewrite !Forall_forall. split; intros H v Hin; apply dec_le_0_nonneg, H, Hin.
Qed.

Lemma get_desired_balances_get (investment_amount total_balance : Decimal)
  (target_allocation : dict Decimal) (category : string) :
  dict_get (get_desired_balances investment_amount total_balance target_allocation)
           category
  = option_map (dec_mul (dec_add total_balance investment_amount))
               (dict_get target_allocation category).
Proof.
  unfold get_desired_balances.
  induction target_allocation as [|[k v] d IH]; cbn [map dict_get fst snd];
    [reflexivity|].
  destruct (String.eqb k category); [reflexivity|exact IH].
Qed.

Section Distributor.
Context {L : Type}.
Variables (investment_amount : Decimal)
          (category_totals target_allocation : dict Decimal)
          (categories : dict L).

Let desired_balances :=
  get_desired_balances investment_amount (total_balance_of category_totals)
                       target_allocation.

Lemma needed_get (needed0 : dict Decimal) (category : string) (v : Decimal) :
  needed_investments_of desired_balances category_totals categories = Ok needed0 ->
  dict_get needed0 category = Some v ->
  exists target total,
    dict_get target_allocation category = Some target /\
    dict_get category_totals category = Some total /\
    v = py_max (dec_sub (dec_mul (dec_add (total_balance_of category_totals)
                                          investment_amount) target) total)
               (of_Z 0).
Proof.
  intros Hn Hv. destruct (dict_comp_get _ _ _ _ _ Hn Hv) as [Hg _].
  apply bind_Ok in Hg. destruct Hg as (desired & Hd & Hg).
  apply bind_Ok in Hg. destruct Hg as (total & Ht & Hg).
  apply dict_getitem_Ok in Hd, Ht. injection Hg as <-.
  unfold desired_balances in Hd. rewrite get_desired_balances_get in Hd.
  destruct (dict_get target_allocation category) as [target|]; [|discriminate].
  injection Hd as <-. exists target, total.
  split; [reflexivity|]. split; [exact Ht|reflexivity].
Qed.

Lemma needed_nonneg (needed0 : dict Decimal) :
  needed_investments_of desired_balances category_totals categories = Ok needed0 ->
  Forall nonneg (values needed0).
Proof.
  intros Hn. eapply dict_comp_all; [exact Hn|].
  intros k v _ Hg.
  apply bind_Ok in Hg. destruct Hg as (desired & Hd & Hg).
  apply bind_Ok in Hg. destruct Hg as (total & Ht & Hg).
  injection Hg as <-.
  destruct (py_max_cases (dec_sub desired total) (of_Z 0)) as [[-> H]|[-> H]];
    unfold nonneg.
  - rewrite D2Q_of_Z_0 in H. exact H.
  - rewrite D2Q_of_Z_0. lra.
Qed.

Lemma distribute_totals_Ok (needed resulting : dict Decimal) :
  distribute_totals investment_amount category_totals target_allocation categories
  = Ok (needed, resulting) ->
  exists needed0,
    needed_investments_of desired_balances category_totals categories = Ok needed0 /\
    cap_investments investment_amount needed0 = Ok needed /\
    resulting_totals_of category_totals needed categories = Ok resulting.
Proof.
  unfold distribute_totals. fold desired_balances. intros H.
  apply bind_Ok in H. destruct H as (needed0 & H0 & H).
  apply bind_Ok in H. destruct H as (needed' & H1 & H).
  apply bind_Ok in H. destruct H as (resulting' & H2 & H).
  injection H as <- <-. exists needed0. auto.
Qed.

Lemma resulting_get (needed resulting : dict Decimal) (category : string)
  (r : Decimal) :
  resulting_totals_of category_totals needed categories = Ok resulting ->
  dict_get resulting category = Some r ->
  exists total n,
    dict_get category_totals category = Some total /\
    dict_get needed category = Some n /\ r = dec_add total n.
Proof.
  intros Hr Hv. destruct (dict_comp_get _ _ _ _ _ Hr Hv) as [Hg _].
  apply bind_Ok in Hg. destruct Hg as (total & Ht & Hg).
  apply bind_Ok in Hg. destruct Hg as (n & Hn & Hg).
  apply dict_getitem_Ok in Hn, Ht. injection Hg as <-.
  exists total, n. auto.
Qed.
End Distributor.

Lemma scaled_nonneg (investment_amount total_needed v : Decimal) :
  nonneg investment_amount -> (0 < coef total_needed)%Z -> nonneg v ->
  nonneg (scaled investment_amount total_needed v).
Proof.
  intros Hinv HT Hv. unfold scaled.
  destruct (dec_div_rel v total_needed) as (q & -> & _ & Hq & _);
    [apply D2Q_nonneg; exact Hv|exact HT|].
  apply dec_mul_nonneg; assumption.
Qed.

Lemma scale_loop_values (P : Decimal -> Prop)
  (investment_amount total_needed : Decimal) (ks : list string)
  (d d' : dict Decimal) :
  coef total_needed <> 0%Z ->
  (forall v, P v -> P (scaled investment_amount total_needed v)) ->
  foldM (scale_category investment_amount total_needed) ks d = Ok d' ->
  Forall P (values d) -> Forall P (values d').
Proof.
  intros HT HP. revert d; induction ks as [|k ks IH]; intros d; cbn [foldM].
  - intros [= <-]. auto.
  - intros H Hd. apply bind_Ok in H. destruct H as (d1 & H1 & H).
    apply (IH d1 H).
    unfold scale_category in H1. apply bind_Ok in H1. destruct H1 as (v & Hv & H1).
    apply dict_getitem_Ok in Hv.
    assert (d1 = dict_set d k (scaled investment_amount total_needed v)).
    { pose proof (scale_category_ok investment_amount total_needed HT d k v Hv) as E.
      unfold scale_category, dict_getitem in E. rewrite Hv in E. cbn [bind] in E.
      congruence. }
    subst d1. apply dict_set_values; [|exact Hd].
    apply HP. rewrite Forall_forall in Hd. apply Hd.
    eapply dict_get_value; eassumption.
Qed.

Lemma cap_nonneg (investment_amount : Decimal) (needed0 needed : dict Decimal) :
  nonneg investment_amount -> Forall nonneg (values needed0) ->
  cap_investments investment_amount needed0 = Ok needed ->
  Forall nonneg (values needed).
Proof.
  intros Hinv H0. unfold cap_investments.
  destruct (dec_lt investment_amount (py_sum (values needed0))) eqn:Hlt.
  - intros H.
    assert (HT : (0 < coef (py_sum (values needed0)))%Z).
    { apply cap_branch_divisor with investment_amount; [|exact Hlt].
      apply dec_le_0_nonneg. exact Hinv. }
    eapply scale_loop_values; [| |exact H|exact H0]; [lia|].
    intros v. apply scaled_nonneg; assumption.
  - intros [= <-]. exact H0.
Qed.

(** The capping in closed form, for a dictionary with distinct keys. *)
Lemma cap_investments_closed (investment_amount : Decimal) (needed0 : dict Decimal) :
  nonneg investment_amount -> NoDup (keys needed0) ->
  cap_investments investment_amount needed0
  = Ok (if dec_lt investment_amount (py_sum (values needed0))
        then map (fun kv => (fst kv,
                             scaled investment_amount (py_sum (values needed0)) (snd kv)))
                 needed0
        else needed0).
Proof.
  intros Hinv Hnd. unfold cap_investments.
  destruct (dec_lt investment_amount (py_sum (values needed0))) eqn:Hlt; [|reflexivity].
  assert (HT : (0 < coef (py_sum (values needed0)))%Z).
  { apply cap_branch_divisor with investment_amount; [|exact Hlt].
    apply dec_le_0_nonneg. exact Hinv. }
  assert (HT' : coef (py_sum (values needed0)) <> 0%Z) by lia.
  exact (scale_loop_map investment_amount _ HT' [] needed0 Hnd).
Qed.



Lemma keys_length {V : Type} (d : dict V) : List.length (keys d) = List.length d.
Proof. apply length_map. Qed.

(** [C9] For every investment amount [>= 0], every needed investment is
    [>= 0] before and after the capping, and every resulting total is at
    least the current total of its category: nothing is withdrawn.  The
    current totals are those of the aggregator, as in [main]. *)
Theorem C9_never_withdraws
  (symbol_balances : dict Decimal) (categories : dict (list string))
  (target_allocation : dict Decimal) (investment_amount : Decimal)
  (category_totals needed resulting : dict Decimal) :
  is_dict categories = true ->
  dec_le (of_Z 0) investment_amount = true ->
  get_category_totals symbol_balances categories = Ok category_totals ->
  distribute_totals investment_amount category_totals target_allocation categories
  = Ok (needed, resulting) ->
  exists needed0,
    needed_investments_of
      (get_desired_balances investment_amount (total_balance_of category_totals)
                            target_allocation)
      category_totals categories = Ok needed0 /\
    cap_investments investment_amount needed0 = Ok needed /\
    Forall (fun v => dec_le (of_Z 0) v = true) (values needed0) /\
    Forall (fun v => dec_le (of_Z 0) v = true) (values needed) /\
    forall category r,
      dict_get resulting category = Some r ->
      exists total,
        dict_get category_totals category = Some total /\ dec_le total r = true.
Proof.
  intros Hd Hinv Htot Hdist.
  rewrite (get_category_totals_closed _ _ Hd) in Htot. injection Htot as <-.
  apply dec_le_0_nonneg in Hinv.
  destruct (distribute_totals_Ok _ _ _ _ _ _ Hdist) as (needed0 & H0 & H1 & H2).
  pose proof (needed_nonneg _ _ _ _ _ H0) as Hn0.
  pose proof (cap_nonneg _ _ _ Hinv Hn0 H1) as Hn.
  exists needed0. split; [exact H0|]. split; [exact H1|].
  split; [apply Forall_dec_le_0; exact Hn0|].
  split; [apply Forall_dec_le_0; exact Hn|].
  intros category r Hr.
  destruct (resulting_get _ _ _ _ _ _ H2 Hr) as (total & n & Ht & Hnc & ->).
  exists total. split; [exact Ht|]. apply dec_le_iff. apply dec_add_ge_l.
  - pose proof (category_totals_in_context symbol_balances categories) as Hctx.
    rewrite Forall_forall in Hctx. apply Hctx. eapply dict_get_value; eassumption.
  - rewrite Forall_forall in Hn. apply Hn. eapply dict_get_value; eassumption.
Qed.

Lemma C9_never_withdraws_witness :
  exists needed0,
    cap_investments (of_Z 100) needed0
    = Ok [("A", mkDec 100 0); ("B", mkDec 0 1)]%string /\
    Forall (fun v => dec_le (of_Z 0) v = true) (values needed0).
Proof.
  destruct (C9_never_withdraws
              [("X", of_Z 900)]%string
              [("A", ["Y"]); ("B", ["X"])]%string
              [("A", mkDec 5 (-1)); ("B", mkDec 5 (-1))]%string
              (of_Z 100)
              [("A", of_Z 0); ("B", of_Z 900)]%string
              [("A", mkDec 100 0); ("B", mkDec 0 1)]%string
              [("A", mkDec 100 0); ("B", mkDec 900 0)]%string)
    as (needed0 & _ & H1 & H2 & _).
  - reflexivity.
  - reflexivity.
  - vm_compute. reflexivity.
  - vm_compute. reflexivity.
  - exists needed0. split; [exact H1|exact H2].
Defined.

(** A portfolio that is on target for the categories it lists: nothing is
    needed, and the investment stays undistributed. *)
Lemma undistributed_example :
  exists needed resulting,
    distribute_totals (of_Z 100)
      [("A", of_Z 500); ("B", of_Z 400)]%string
      [("A", mkDec 5 (-1)); ("B", mkDec 4 (-1)); ("C", mkDec 1 (-1))]%string
      [("A", ["VTI"]); ("B", ["BND"])]%string = Ok (needed, resulting) /\
    dec_lt (py_sum (values needed)) (of_Z 100) = true.
Proof.
  exists [("A", mkDec 0 (-1)); ("B", mkDec 0 (-1))]%string,
         [("A", mkDec 5000 (-1)); ("B", mkDec 4000 (-1))]%string.
  split; vm_compute; reflexivity.
Qed.

(** One rounding, for either sign: the error is at most [eps] times any
    bound of the size of the exact value. *)
Lemma dec_fix_error (d : Decimal) (A : Q) :
  (- A <= D2Q d <= A)%Q ->
  (D2Q d - eps * A <= D2Q (dec_fix d) <= D2Q d + eps * A)%Q.
Proof.
  intros [H1 H2]. destruct (Z.le_gt_cases 0 (coef d)) as [Hc|Hc].
  - pose proof (dec_fix_rel d Hc) as [R1 R2].
    apply D2Q_nonneg in Hc. unfold eps in *. split; lra.
  - assert (Hn : (0 <= coef (dec_neg d))%Z) by (cbn [dec_neg coef]; lia).
    pose proof (dec_fix_rel (dec_neg d) Hn) as [R1 R2].
    rewrite dec_fix_neg, !D2Q_neg in R1, R2.
    assert (Hv : (D2Q d <= 0)%Q).
    { destruct (Qlt_le_dec 0 (D2Q d)) as [Hp|Hle]; [|exact Hle].
      apply D2Q_pos in Hp. lia. }
    unfold eps in *. split; lra.
Qed.

(** The shortfall that the code computes with three rounded operations,
    against the shortfall of the specification on exact numbers. *)
Lemma shortfall_error (total_balance investment_amount target total : Decimal) :
  (0 <= D2Q total_balance + D2Q investment_amount)%Q ->
  (0 <= D2Q target)%Q -> (0 <= D2Q total)%Q ->
  let exact := ((D2Q total_balance + D2Q investment_amount) * D2Q target
                - D2Q total)%Q in
  let bound := (eps * (4 * ((D2Q total_balance + D2Q investment_amount) * D2Q target)
                       + D2Q total))%Q in
  (exact - bound
   <= D2Q (dec_sub (dec_mul (dec_add total_balance investment_amount) target) total)
   <= exact + bound)%Q.
Proof.
  intros Hti Hf Hc exact bound.
  pose proof (dec_add_rel total_balance investment_amount Hti) as [N1 N2].
  set (N := dec_add total_balance investment_amount) in *.
  assert (HN : (0 <= D2Q N)%Q) by (unfold eps in *; lra).
  assert (HNf : (0 <= D2Q N * D2Q target)%Q) by (apply Qmult_le_0_compat; assumption).
  pose proof (dec_mul_rel N target HNf) as [D1 D2].
  set (D := dec_mul N target) in *.
  assert (P1 : ((D2Q total_balance + D2Q investment_amount) * (1 - eps) * D2Q target
                <= D2Q N * D2Q target)%Q)
    by (apply Qmult_le_compat_r; assumption).
  assert (P2 : (D2Q N * D2Q target
                <= (D2Q total_balance + D2Q investment_amount) * (1 + eps) * D2Q target)%Q)
    by (apply Qmult_le_compat_r; assumption).
  assert (HP : (0 <= (D2Q total_balance + D2Q investment_amount) * D2Q target)%Q)
    by (apply Qmult_le_0_compat; assumption).
  set (P := ((D2Q total_balance + D2Q investment_amount) * D2Q target)%Q) in *.
  assert (P1' : (P * (1 - eps) <= D2Q N * D2Q target)%Q) by (unfold P; lra).
  assert (P2' : (D2Q N * D2Q target <= P * (1 + eps))%Q) by (unfold P; lra).
  clear P1 P2.
  set (NF := (D2Q N * D2Q target)%Q) in *.
  assert (HD : (0 <= D2Q D)%Q) by (unfold eps in *; lra).
  pose proof (add_exact_value D (dec_neg total)) as Ex. rewrite D2Q_neg in Ex.
  destruct (dec_fix_error (add_exact D (dec_neg total)) (D2Q D + D2Q total))
    as [S1 S2]; [rewrite Ex; split; lra|].
  rewrite Ex in S1, S2. unfold dec_sub, dec_add.
  unfold exact, bound. fold P. clearbody P NF. unfold eps in *. split; lra.
Qed.

(** [C3] Whenever [total_needed <= investment_amount] the capping leaves
    the needed investments as they are, and they are what the distributor
    returns.  The needed investment of every category is
    [max(0, desired - total)]: it is never negative, it is the shortfall
    [(total_balance + investment_amount) * target - total] as the three
    decimal operations compute it when that is not negative, and
    [Decimal(0)] when it is negative.  Against the formula of the
    specification on exact numbers, [spec_needed], it is equal when the
    three operations do not round, and within [eps * (4 * desired + total)]
    of it in general, for nonnegative operands.  The sum of the distributed
    amounts can then be smaller than the investment amount (last part, on a
    portfolio that is on target for the categories it lists). *)
Theorem C3_unscaled_when_enough
  (investment_amount : Decimal) (category_totals target_allocation : dict Decimal)
  (categories : dict (list string)) (needed0 : dict Decimal) :
  needed_investments_of
    (get_desired_balances investment_amount (total_balance_of category_totals)
                          target_allocation)
    category_totals categories = Ok needed0 ->
  dec_le (py_sum (values needed0)) investment_amount = true ->
  cap_investments investment_amount needed0 = Ok needed0 /\
  (exists resulting,
     distribute_totals investment_amount category_totals target_allocation categories
     = Ok (needed0, resulting)) /\
  (forall category, In category (keys categories) ->
     exists target total needed,
       dict_get target_allocation category = Some target /\
       dict_get category_totals category = Some total /\
       dict_get needed0 category = Some needed /\
       let total_balance := total_balance_of category_totals in
       let shortfall :=
         dec_sub (dec_mul (dec_add total_balance investment_amount) target) total in
       dec_le (of_Z 0) needed = true /\
       (dec_le (of_Z 0) shortfall = true -> needed = shortfall) /\
       (dec_lt shortfall (of_Z 0) = true -> needed = of_Z 0) /\
       (shortfall_exact total_balance investment_amount target total = true ->
        (D2Q needed
         == spec_needed (D2Q total_balance) (D2Q investment_amount)
                        (D2Q target) (D2Q total))%Q) /\
       ((0 <= D2Q total_balance + D2Q investment_amount)%Q ->
        (0 <= D2Q target)%Q -> (0 <= D2Q total)%Q ->
        let spec := spec_needed (D2Q total_balance) (D2Q investment_amount)
                                (D2Q target) (D2Q total) in
        let bound :=
          (eps * (4 * ((D2Q total_balance + D2Q investment_amount) * D2Q target)
                  + D2Q total))%Q in
        (spec - bound <= D2Q needed <= spec + bound)%Q)) /\
  (exists needed resulting,
     distribute_totals (of_Z 100)
       [("A", of_Z 500); ("B", of_Z 400)]%string
       [("A", mkDec 5 (-1)); ("B", mkDec 4 (-1)); ("C", mkDec 1 (-1))]%string
       [("A", ["VTI"]); ("B", ["BND"])]%string = Ok (needed, resulting) /\
     dec_lt (py_sum (values needed)) (of_Z 100) = true).
Proof.
  intros H0 Hle.
  assert (Hcap : cap_investments investment_amount needed0 = Ok needed0).
  { unfold cap_investments.
    assert (Hlt : dec_lt investment_amount (py_sum (values needed0)) = false).
    { apply dec_lt_false_iff. apply dec_le_iff. exact Hle. }
    rewrite Hlt. reflexivity. }
  split; [exact Hcap|]. split; [|split]; [| |exact undistributed_example].
  - destruct (dict_comp_total
                (fun category =>
                   total <- dict_getitem category_totals category ;;
                   needed <- dict_getitem needed0 category ;;
                   Ok (dec_add total needed))
                (keys categories)) as [resulting Hr].
    { intros k Hin.
      destruct (dict_comp_get_in _ _ _ _ H0 Hin) as (v & _ & Hv).
      destruct (needed_get _ _ _ _ _ _ _ H0 Hv) as (target & total & _ & Hc & _).
      unfold dict_getitem. rewrite Hc, Hv. cbn [bind]. eexists. reflexivity. }
    exists resulting. unfold distribute_totals. rewrite H0. cbn [bind].
    rewrite Hcap. cbn [bind]. unfold resulting_totals_of. rewrite Hr. reflexivity.
  - intros category Hin.
    destruct (dict_comp_get_in _ _ _ _ H0 Hin) as (v & _ & Hv).
    destruct (needed_get _ _ _ _ _ _ _ H0 Hv) as (target & total & Ht & Hc & E).
    exists target, total, v.
    split; [exact Ht|]. split; [exact Hc|]. split; [exact Hv|].
    cbv zeta. subst v.
    set (shortfall := dec_sub (dec_mul (dec_add (total_balance_of category_totals)
                                                investment_amount) target) total).
    pose proof (py_max_cases shortfall (of_Z 0)) as Hmax.
    rewrite D2Q_of_Z_0 in Hmax.
    assert (Hspec : forall s : Q,
              (D2Q shortfall == s)%Q ->
              (D2Q (py_max shortfall (of_Z 0)) == Qmax 0 s)%Q).
    { intros s Hs. destruct Hmax as [[-> Hge]|[-> Hneg]].
      - rewrite Q.max_r by (rewrite <- Hs; exact Hge). exact Hs.
      - rewrite Q.max_l by (rewrite <- Hs; apply Qlt_le_weak; exact Hneg).
        reflexivity. }
    split; [|split; [|split; [|split]]].
    + apply dec_le_0_nonneg. unfold nonneg.
      destruct Hmax as [[-> Hge]|[-> _]]; [exact Hge|rewrite D2Q_of_Z_0; apply Qle_refl].
    + intros Hs. apply dec_le_0_nonneg in Hs. unfold nonneg in Hs.
      destruct Hmax as [[-> _]|[_ Hneg]]; [reflexivity|lra].
    + intros Hs. apply dec_lt_iff in Hs. rewrite D2Q_of_Z_0 in Hs.
      destruct Hmax as [[_ Hge]|[-> _]]; [lra|reflexivity].
    + intros Hex. unfold shortfall_exact in Hex.
      apply andb_true_iff in Hex. destruct Hex as [Hex E3].
      apply andb_true_iff in Hex. destruct Hex as [E1 E2].
      unfold spec_needed. apply Hspec. unfold shortfall, dec_sub.
      unfold dec_add at 1. rewrite (dec_fix_exact _ E3), add_exact_value, D2Q_neg.
      unfold dec_mul. rewrite (dec_fix_exact _ E2), mul_exact_value.
      unfold dec_add. rewrite (dec_fix_exact _ E1), add_exact_value. ring.
    + intros Hti Hf Htot.
      pose proof (shortfall_error (total_balance_of category_totals) investment_amount
                    target total Hti Hf Htot) as Herr.
      cbv zeta in Herr. fold shortfall in Herr. unfold spec_needed.
      assert (HP : (0 <= (D2Q (total_balance_of category_totals)
                          + D2Q investment_amount) * D2Q target)%Q)
        by (apply Qmult_le_0_compat; assumption).
      set (P := ((D2Q (total_balance_of category_totals) + D2Q investment_amount)
                 * D2Q target)%Q) in *.
      destruct (Q.max_spec 0 (P - D2Q total)) as [[Hm ->]|[Hm ->]];
        destruct Hmax as [[-> Hge]|[-> Hneg]]; rewrite ?D2Q_of_Z_0;
        unfold eps in *; split; lra.
Qed.

Lemma C3_unscaled_when_enough_witness :
  cap_investments (of_Z 2000)
    [("Stocks", mkDec 0 (-1)); ("Bonds", mkDec 20000 (-1))]%string
  = Ok [("Stocks", mkDec 0 (-1)); ("Bonds", mkDec 20000 (-1))]%string /\
  exists target total needed,
    dict_get [("Stocks", mkDec 5 (-1)); ("Bonds", mkDec 5 (-1))]%string "Bonds"%string
    = Some target /\
    dict_get [("Stocks", of_Z 6000); ("Bonds", of_Z 4000)]%string "Bonds"%string
    = Some total /\
    dict_get [("Stocks", mkDec 0 (-1)); ("Bonds", mkDec 20000 (-1))]%string
             "Bonds"%string = Some needed /\
    (D2Q needed
     == spec_needed
          (D2Q (total_balance_of [("Stocks", of_Z 6000); ("Bonds", of_Z 4000)]%string))
          (D2Q (of_Z 2000)) (D2Q target) (D2Q total))%Q.
Proof.
  destruct (C3_unscaled_when_enough (of_Z 2000)
              [("Stocks", of_Z 6000); ("Bonds", of_Z 4000)]%string
              [("Stocks", mkDec 5 (-1)); ("Bonds", mkDec 5 (-1))]%string
              [("Stocks", ["VTI"]); ("Bonds", ["BND"])]%string
              [("Stocks", mkDec 0 (-1)); ("Bonds", mkDec 20000 (-1))]%string)
    as (Hcap & _ & Hall & _).
  - vm_compute. reflexivity.
  - vm_compute. reflexivity.
  - split; [exact Hcap|].
    destruct (Hall "Bonds"%string) as (target & total & needed & Ht & Hc & Hn & H).
    { vm_compute. right. left. reflexivity. }
    exists target, total, needed.
    split; [exact Ht|]. split; [exact Hc|]. split; [exact Hn|].
    destruct H as (_ & _ & _ & Hexact & _). apply Hexact.
    vm_compute in Ht. vm_compute in Hc. injection Ht as <-. injection Hc as <-.
    vm_compute. reflexivity.
Defined.






Lemma dict_get_map_values (f : Decimal -> Decimal) (d : dict Decimal) (k : string) :
  dict_get (map (fun kv => (fst kv, f (snd kv))) d) k = option_map f (dict_get d k).
Proof.
  induction d as [|[k0 v0] d IH]; cbn [map dict_get fst snd]; [reflexivity|].
  destruct (String.eqb k0 k); [reflexivity|exact IH].
Qed.

Lemma dec_eq_0_coef (x : Decimal) : dec_eq x (of_Z 0) = (coef x =? 0)%Z.
Proof.
  destruct (Z.eqb_spec (coef x) 0) as [H|H].
  - apply dec_eq_0_zero. apply D2Q_zero. exact H.
  - apply not_true_is_false. intros E. apply dec_eq_0_zero in E.
    apply D2Q_zero in E. contradiction.
Qed.

Lemma scaled_pos (investment_amount total_needed v : Decimal) :
  (0 < D2Q investment_amount)%Q -> (0 < coef total_needed)%Z -> (0 < D2Q v)%Q ->
  (0 < D2Q (scaled investment_amount total_needed v))%Q.
Proof.
  intros Hinv HT Hv. unfold scaled. apply D2Q_pos in Hv.
  destruct (dec_div_rel v total_needed) as (q & -> & _ & _ & Hq & _); [lia|exact HT|].
  apply dec_mul_pos; [exact Hinv|exact (Hq Hv)].
Qed.

(** The quotients of lines 158-161 fail together: on a zero divisor. *)
Lemma resulting_allocations_raises (resulting : dict Decimal)
  (categories : dict (list string)) :
  keys resulting = keys categories ->
  raises (resulting_allocations_of resulting categories)
  = match categories with
    | [] => false
    | _ :: _ => dec_eq (py_sum (values resulting)) (of_Z 0)
    end /\
  zero_division (resulting_allocations_of resulting categories)
  = raises (resulting_allocations_of resulting categories).
Proof.
  intros Hk. unfold resulting_allocations_of.
  set (T := py_sum (values resulting)).
  set (g := fun category : string =>
              total <- dict_getitem resulting category ;; dec_div total T).
  assert (Hg : forall k, In k (keys categories) ->
                 raises (g k) = (coef T =? 0)%Z /\
                 zero_division (g k) = raises (g k)).
  { intros k Hin. rewrite <- Hk in Hin.
    destruct (dict_get_in_keys _ _ Hin) as [r Hr].
    unfold g, dict_getitem. rewrite Hr. cbn [bind].
    split; [apply dec_div_raises|apply dec_div_zero_division]. }
  rewrite dec_eq_0_coef. clear Hk.
  induction (keys categories) as [|k ks IH] eqn:Ek.
  - destruct categories; [split; reflexivity|discriminate].
  - assert (Hc : exists kv cs, categories = kv :: cs).
    { destruct categories as [|kv cs]; [discriminate|eauto]. }
    destruct Hc as (kv & cs & ->).
    destruct (Hg k (or_introl eq_refl)) as [Hr Hz].
    rewrite dict_comp_cons.
    destruct (g k) as [q|e] eqn:Eg; cbn [bind].
    + cbn [raises] in Hr.
      assert (Hrest : raises (dict_comp g ks) = false).
      { rewrite dict_comp_raises. apply not_true_is_false. intros Hex.
        apply existsb_exists in Hex. destruct Hex as (k' & Hin' & Hr').
        destruct (Hg k' (or_intror Hin')) as [Hr'' _]. congruence. }
      destruct (dict_comp g ks) as [d|]; [|discriminate].
      cbn [raises zero_division]. split; [exact Hr|reflexivity].
    + cbn [raises] in Hr. split; [exact Hr|exact Hz].
Qed.

(** Nonnegative totals, a zero resulting total: every listed category has a
    zero total and a zero needed investment. *)
Lemma zero_resulting_total (investment_amount : Decimal)
  (category_totals target_allocation : dict Decimal)
  (categories : dict (list string)) (needed resulting : dict Decimal) :
  nonneg investment_amount -> Forall nonneg (values category_totals) ->
  distribute_totals investment_amount category_totals target_allocation categories
  = Ok (needed, resulting) ->
  is_zero (py_sum (values resulting)) ->
  forall category, In category (keys categories) ->
    exists total n,
      dict_get category_totals category = Some total /\ is_zero total /\
      dict_get needed category = Some n /\ is_zero n.
Proof.
  intros Hinv Htn Hdist Hz category Hin.
  destruct (distribute_totals_Ok _ _ _ _ _ _ Hdist) as (needed0 & H0 & H1 & H2).
  pose proof (needed_nonneg _ _ _ _ _ H0) as Hn0.
  pose proof (cap_nonneg _ _ _ Hinv Hn0 H1) as Hn.
  rewrite Forall_forall in Htn, Hn.
  assert (Hrn : Forall nonneg (values resulting)).
  { eapply dict_comp_all; [exact H2|]. intros k v _ Hg.
    apply bind_Ok in Hg. destruct Hg as (total & Ht & Hg).
    apply bind_Ok in Hg. destruct Hg as (n & Hnc & Hg).
    apply dict_getitem_Ok in Ht, Hnc. injection Hg as <-.
    apply dec_add_nonneg.
    - apply Htn. eapply dict_get_value; eassumption.
    - apply Hn. eapply dict_get_value; eassumption. }
  pose proof (py_sum_zero _ Hrn Hz) as Hrz. rewrite Forall_forall in Hrz.
  destruct (dict_comp_get_in _ _ _ _ H2 Hin) as (r & _ & Hr).
  destruct (resulting_get _ _ _ _ _ _ H2 Hr) as (total & n & Ht & Hnc & ->).
  assert (Hr0 : is_zero (dec_add total n))
    by (apply Hrz; eapply dict_get_value; eassumption).
  apply dec_add_zero_iff in Hr0.
  assert (nonneg total) by (apply Htn; eapply dict_get_value; eassumption).
  assert (nonneg n) by (apply Hn; eapply dict_get_value; eassumption).
  exists total, n. unfold nonneg, is_zero in *.
  split; [exact Ht|]. split; [lra|]. split; [exact Hnc|lra].
Qed.

(** [C1, amended] With at least one category, computing the resulting
    allocations fails exactly when the resulting total balance is 0, and the
    failure is that of a zero divisor; with no category nothing is divided
    and nothing fails.  For nonnegative current totals and investment
    amount, a zero resulting total forces the total of every listed category
    to be 0, and forces the investment amount to be 0 as soon as one listed
    category has a positive target. *)
Theorem C1_resulting_allocation_failure
  (investment_amount : Decimal) (category_totals target_allocation : dict Decimal)
  (categories : dict (list string)) (needed resulting : dict Decimal) :
  is_dict categories = true ->
  distribute_totals investment_amount category_totals target_allocation categories
  = Ok (needed, resulting) ->
  (raises (resulting_allocations_of resulting categories)
   = match categories with
     | [] => false
     | _ :: _ => dec_eq (py_sum (values resulting)) (of_Z 0)
     end /\
   zero_division (resulting_allocations_of resulting categories)
   = raises (resulting_allocations_of resulting categories)) /\
  (dec_le (of_Z 0) investment_amount = true ->
   forallb (dec_le (of_Z 0)) (values category_totals) = true ->
   dec_eq (py_sum (values resulting)) (of_Z 0) = true ->
   (forall category, In category (keys categories) ->
      exists total, dict_get category_totals category = Some total /\
                    dec_eq total (of_Z 0) = true) /\
   (existsb (has_positive_target target_allocation) (keys categories) = true ->
    dec_eq investment_amount (of_Z 0) = true)).
Proof.
  intros Hd Hdist.
  pose proof (proj1 (nodupb_NoDup _) Hd) as Hnd.
  destruct (distribute_totals_Ok _ _ _ _ _ _ Hdist) as (needed0 & H0 & H1 & H2).
  split; [apply resulting_allocations_raises; exact (dict_comp_keys _ _ _ H2)|].
  intros Hinv Htn Hz.
  apply dec_le_0_nonneg in Hinv. apply dec_eq_0_zero in Hz.
  assert (Htn' : Forall nonneg (values category_totals)).
  { apply Forall_forall. intros v Hin. apply dec_le_0_nonneg.
    rewrite forallb_forall in Htn. apply Htn, Hin. }
  pose proof (zero_resulting_total _ _ _ _ _ _ Hinv Htn' Hdist Hz) as Hall.
  split.
  - intros category Hin.
    destruct (Hall category Hin) as (total & n & Ht & Htz & _).
    exists total. split; [exact Ht|apply dec_eq_0_zero; exact Htz].
  - intros Hex. apply existsb_exists in Hex. destruct Hex as (c & Hin & Hpos).
    unfold has_positive_target in Hpos.
    destruct (dict_get target_allocation c) as [target|] eqn:Et; [|discriminate].
    apply dec_lt_iff in Hpos. rewrite D2Q_of_Z_0 in Hpos.
    apply dec_eq_0_zero.
    destruct (Qlt_le_dec 0 (D2Q investment_amount)) as [Hip|Hin0];
      [exfalso|unfold nonneg, is_zero in *; lra].
    destruct (Hall c Hin) as (total & n & Ht & Htz & Hnc & Hnz).
    destruct (dict_comp_get_in _ _ _ _ H0 Hin) as (v0 & _ & Hv0).
    destruct (needed_get _ _ _ _ _ _ _ H0 Hv0) as (target' & total' & Et' & Ht' & Ev0).
    assert (target' = target) by congruence. assert (total' = total) by congruence.
    subst target' total'.
    assert (Hv0pos : (0 < D2Q v0)%Q).
    { pose proof (py_sum_nonneg _ Htn') as Htb. fold (total_balance_of category_totals) in Htb.
      set (new_total := dec_add (total_balance_of category_totals) investment_amount) in *.
      assert (Hnt : (0 < D2Q new_total)%Q).
      { apply dec_add_pos_iff. unfold nonneg in Htb. lra. }
      pose proof (dec_mul_pos new_total target Hnt Hpos) as Hdes.
      set (desired := dec_mul new_total target) in *.
      assert (Hsub : (0 < D2Q (dec_sub desired total))%Q).
      { apply dec_sub_pos_iff. unfold is_zero in Htz. lra. }
      rewrite Ev0.
      destruct (py_max_cases (dec_sub desired total) (of_Z 0)) as [[-> _]|[-> Hlt]].
      - exact Hsub.
      - rewrite D2Q_of_Z_0 in Hlt. lra. }
    pose proof (dict_comp_keys _ _ _ H0) as Hk0.
    rewrite (cap_investments_closed _ _ Hinv) in H1 by (rewrite Hk0; exact Hnd).
    injection H1 as H1.
    destruct (dec_lt investment_amount (py_sum (values needed0))) eqn:Hlt; subst needed.
    + rewrite dict_get_map_values, Hv0 in Hnc. injection Hnc as <-.
      assert (HT : (0 < coef (py_sum (values needed0)))%Z).
      { apply cap_branch_divisor with investment_amount; [|exact Hlt].
        apply dec_le_0_nonneg. exact Hinv. }
      pose proof (scaled_pos investment_amount _ v0 Hip HT Hv0pos) as Hsp.
      unfold is_zero in Hnz. lra.
    + assert (n = v0) by congruence. subst n. unfold is_zero in Hnz. lra.
Qed.

Lemma C1_resulting_allocation_failure_witness :
  raises (resulting_allocations_of
            [("A", mkDec 100 0); ("B", mkDec 900 0)]%string
            [("A", ["Y"]); ("B", ["X"])]%string) = false.
Proof.
  destruct (C1_resulting_allocation_failure
              (of_Z 100)
              [("A", of_Z 0); ("B", of_Z 900)]%string
              [("A", mkDec 5 (-1)); ("B", mkDec 5 (-1))]%string
              [("A", ["Y"]); ("B", ["X"])]%string
              [("A", mkDec 100 0); ("B", mkDec 0 1)]%string
              [("A", mkDec 100 0); ("B", mkDec 900 0)]%string)
    as [[H _] _].
  - reflexivity.
  - vm_compute. reflexivity.
  - rewrite H. vm_compute. reflexivity.
Defined.

(** [C1, as stated, fails] With no category the resulting total balance is
    0, nothing fails, and the investment amount is 100; with one category
    whose target is 0 and whose total is 0 the resulting total balance is 0
    (and the division fails) although 100 is invested, also when the targets
    add up to 1 over a second key that is not a category. *)
Lemma C1_counterexample :
  (distribute (of_Z 100) [] [] (@nil (string * list string))
   = Ok (mkDistribution [] [] []) /\
   dec_eq (py_sum (values (@nil (string * Decimal)))) (of_Z 0) = true /\
   dec_eq (of_Z 100) (of_Z 0) = false) /\
  (distribute_totals (of_Z 100) [("A", of_Z 0)]%string [("A", of_Z 0)]%string
     [("A", ["VTI"])]%string
   = Ok ([("A", of_Z 0)]%string, [("A", of_Z 0)]%string) /\
   dec_eq (py_sum (values [("A", of_Z 0)]%string)) (of_Z 0) = true /\
   dec_eq (of_Z 100) (of_Z 0) = false /\
   distribute (of_Z 100) [("A", of_Z 0)]%string [("A", of_Z 0)]%string
     [("A", ["VTI"])]%string = Raise InvalidOperation) /\
  (distribute_totals (of_Z 100) [("A", of_Z 0)]%string
     [("A", of_Z 0); ("Cash", of_Z 1)]%string [("A", ["VTI"])]%string
   = Ok ([("A", of_Z 0)]%string, [("A", of_Z 0)]%string)).
Proof.
  repeat split; vm_compute; reflexivity.
Qed.

(** * The Allocation Analyzer *)

Lemma current_allocations_raises (category_totals target_allocation : dict Decimal) :
  raises (current_allocations category_totals target_allocation)
  = match target_allocation with
    | [] => false
    | _ :: _ => dec_eq (total_balance_of category_totals) (of_Z 0)
    end.
Proof.
  unfold current_allocations. rewrite dict_comp_raises, dec_eq_0_coef.
  destruct target_allocation as [|[c t] rest]; [reflexivity|].
  cbn [keys map fst existsb]. rewrite dec_div_raises.
  destruct (coef (total_balance_of category_totals) =? 0)%Z eqn:E; [reflexivity|].
  cbn [orb]. apply not_true_is_false. intros Hex.
  apply existsb_exists in Hex. destruct Hex as (k & _ & Hr).
  rewrite dec_div_raises in Hr. congruence.
Qed.

(** [C5, amended] When the grand total is 0 and there is at least one target
    category, the analyzer fails on the first of them, on the zero divisor:
    with [DivisionByZero] when the total of that category is not 0, with
    [InvalidOperation] (0 / 0) when it is 0.  It fails in no other case: not
    for a non-zero grand total, and not when there is no target category. *)
Theorem C5_analyzer_zero_total
  (category_totals target_allocation : dict Decimal) :
  raises (current_allocations category_totals target_allocation)
  = match target_allocation with
    | [] => false
    | _ :: _ => dec_eq (total_balance_of category_totals) (of_Z 0)
    end /\
  (dec_eq (total_balance_of category_totals) (of_Z 0) = true ->
   forall category target rest,
     target_allocation = (category, target) :: rest ->
     current_allocations category_totals target_allocation
     = Raise (if dec_eq (dict_get_default category_totals category (of_Z 0)) (of_Z 0)
              then InvalidOperation else DivisionByZero)).
Proof.
  split; [apply current_allocations_raises|].
  intros Hz category target rest ->.
  rewrite dec_eq_0_coef in Hz. rewrite dec_eq_0_coef.
  unfold current_allocations. cbn [keys map fst]. rewrite dict_comp_cons.
  unfold dec_div at 1. rewrite Hz.
  destruct (coef (dict_get_default category_totals category (of_Z 0)) =? 0)%Z;
    reflexivity.
Qed.

Lemma C5_analyzer_zero_total_witness :
  current_allocations [("A", of_Z 5); ("B", of_Z (-5))]%string
    [("A", mkDec 5 (-1)); ("B", mkDec 5 (-1))]%string
  = Raise DivisionByZero.
Proof.
  exact (proj2 (C5_analyzer_zero_total
                  [("A", of_Z 5); ("B", of_Z (-5))]%string
                  [("A", mkDec 5 (-1)); ("B", mkDec 5 (-1))]%string)
               eq_refl "A"%string (mkDec 5 (-1)) [("B", mkDec 5 (-1))]%string
               eq_refl).
Defined.

(** [C5, as stated, fails] With no target category the grand total is 0
    and the analyzer returns; for an empty portfolio the exception is
    [InvalidOperation], not [DivisionByZero]. *)
Lemma C5_counterexample :
  (dec_eq (total_balance_of []) (of_Z 0) = true /\
   current_allocations [] [] = Ok []) /\
  (dec_eq (total_balance_of [("A", of_Z 0)]%string) (of_Z 0) = true /\
   current_allocations [("A", of_Z 0)]%string [("A", of_Z 1)]%string
   = Raise InvalidOperation).
Proof.
  repeat split; vm_compute; reflexivity.
Qed.

(** * The Balance Loader *)

Section LoaderFacts.
Variable Decimal_of_string : string -> option Decimal.

Lemma row_index_nth (row : list string) (i : nat) (s : string) :
  row_index row i = Ok s -> nth i row EmptyString = s.
Proof.
  unfold row_index. destruct (nth_error row i) as [s'|] eqn:E; [|discriminate].
  intros [= <-]. apply nth_error_nth. exact E.
Qed.


Lemma read_rows_cash (row : list string) (rest : list (list string))
  (d : dict Decimal) (balance_str : string) :
  row_index row 2 = Ok cash_symbol -> row_index row 5 = Ok balance_str ->
  read_rows Decimal_of_string (row :: rest) d
  = read_rows Decimal_of_string rest d.
Proof.
  intros H2 H5. destruct row as [|c row]; [discriminate|].
  cbn [read_rows]. rewrite H2, H5. cbn [bind].
  rewrite String.eqb_refl. reflexivity.
Qed.


End LoaderFacts.



(** * The error of the capping *)

Section CappingError.
Local Open Scope Q_scope.
Variables investment_amount total_needed : Decimal.
Hypothesis Hinv : nonneg investment_amount.
Hypothesis HT : (0 < coef total_needed)%Z.

(** One scaled value against the exact [needed * investment / total]. *)
Lemma scaled_rel (n : Decimal) :
  nonneg n ->
  D2Q n * D2Q investment_amount * ((1 - eps) * (1 - eps))
    <= D2Q (scaled investment_amount total_needed n) * D2Q total_needed
    <= D2Q n * D2Q investment_amount * ((1 + eps) * (1 + eps)).
Proof.
  intros Hn. unfold scaled.
  destruct (dec_div_rel n total_needed) as (q & -> & _ & Hq & _ & Hq1 & Hq2);
    [apply D2Q_nonneg; exact Hn|exact HT|].
  destruct (dec_mul_rel investment_amount q) as [Hm1 Hm2];
    [unfold nonneg in Hinv; nra|].
  pose proof (proj2 (D2Q_pos total_needed) HT) as HTp.
  destruct eps_bounds as (He1 & He2 & He3).
  unfold nonneg in *.
  set (I := D2Q investment_amount) in *. set (N := D2Q n) in *.
  set (Tq := D2Q total_needed) in *. set (Qq := D2Q q) in *.
  set (Sv := D2Q (dec_mul investment_amount q)) in *.
  clearbody I N Tq Qq Sv.
  assert (H1 : I * Qq * (1 - eps) * Tq <= Sv * Tq)
    by (apply Qmult_le_compat_r; lra).
  assert (H2 : Sv * Tq <= I * Qq * (1 + eps) * Tq)
    by (apply Qmult_le_compat_r; lra).
  assert (H3 : N * (1 - eps) * (I * (1 - eps)) <= Qq * Tq * (I * (1 - eps)))
    by (apply Qmult_le_compat_r; [exact Hq1|nra]).
  assert (H4 : Qq * Tq * (I * (1 + eps)) <= N * (1 + eps) * (I * (1 + eps)))
    by (apply Qmult_le_compat_r; [exact Hq2|nra]).
  split; lra.
Qed.

(** The exact sum of the scaled values. *)
Lemma Qsum_scaled (l : list Decimal) :
  Forall nonneg l ->
  Qsum l * D2Q investment_amount * ((1 - eps) * (1 - eps))
    <= Qsum (map (scaled investment_amount total_needed) l) * D2Q total_needed
    <= Qsum l * D2Q investment_amount * ((1 + eps) * (1 + eps)).
Proof.
  induction 1 as [|n l Hn _ IH]; cbn [map Qsum].
  - split; lra.
  - pose proof (scaled_rel n Hn) as Hs. split; lra.
Qed.

Lemma scaled_all_nonneg (l : list Decimal) :
  Forall nonneg l -> Forall nonneg (map (scaled investment_amount total_needed) l).
Proof.
  intros H. apply Forall_forall. intros v Hin. apply in_map_iff in Hin.
  destruct Hin as (n & <- & Hin). rewrite Forall_forall in H.
  apply scaled_nonneg; auto.
Qed.
End CappingError.

(** The rounded sum of the scaled values against the investment amount:
    one rounding for the quotient, one for the product, and the additions
    of the two sums. *)
Lemma capped_sum_bounds (investment_amount : Decimal) (l : list Decimal) :
  nonneg investment_amount -> Forall nonneg l ->
  (0 < coef (py_sum l))%Z ->
  (D2Q investment_amount
     * ((1 - eps) * (1 - eps) * qpow (1 - eps) (List.length l))
   <= D2Q (py_sum (map (scaled investment_amount (py_sum l)) l))
      * qpow (1 + eps) (List.length l))%Q /\
  (D2Q (py_sum (map (scaled investment_amount (py_sum l)) l))
     * qpow (1 - eps) (List.length l)
   <= D2Q investment_amount
      * ((1 + eps) * (1 + eps) * qpow (1 + eps) (List.length l)))%Q.
Proof.
  intros Hinv Hl HT.
  pose proof (py_sum_bounds l Hl) as [Hf1 Hf1'].
  pose proof (Qsum_scaled investment_amount (py_sum l) Hinv HT l Hl) as [Hf2 Hf2'].
  pose proof (scaled_all_nonneg investment_amount (py_sum l) Hinv HT l Hl) as Hsl.
  pose proof (py_sum_bounds _ Hsl) as [Hf3 Hf3'].
  rewrite length_map in Hf3, Hf3'.
  pose proof (Qsum_nonneg _ Hl) as HN. pose proof (Qsum_nonneg _ Hsl) as HX.
  pose proof (proj2 (D2Q_pos _) HT) as HTp.
  destruct eps_bounds as (He1 & He2 & He3).
  pose proof (qpow_pos (1 - eps) (List.length l) He1) as HP1.
  assert (He4 : (0 < 1 + eps)%Q) by lra.
  pose proof (qpow_pos (1 + eps) (List.length l) He4) as HP2.
  unfold nonneg in Hinv.
  set (I := D2Q investment_amount) in *. set (N := Qsum l) in *.
  set (T := D2Q (py_sum l)) in *.
  set (X := Qsum (map (scaled investment_amount (py_sum l)) l)) in *.
  set (Sv := D2Q (py_sum (map (scaled investment_amount (py_sum l)) l))) in *.
  set (P1 := qpow (1 - eps) (List.length l)) in *.
  set (P2 := qpow (1 + eps) (List.length l)) in *.
  set (a := ((1 - eps) * (1 - eps))%Q) in *. set (b := ((1 + eps) * (1 + eps))%Q) in *.
  assert (Ha : (0 <= a)%Q) by (unfold a; nra).
  assert (Hb : (0 <= b)%Q) by (unfold b; nra).
  clearbody I N T X Sv P1 P2 a b.
  assert (HP12 : (0 <= P1 * P2)%Q) by nra.
  split.
  - apply Qmult_lt_0_le_reg_r with T; [exact HTp|].
    assert (S1 : (X * P1 * (P2 * T) <= Sv * (P2 * T))%Q)
      by (apply Qmult_le_compat_r; [exact Hf3|nra]).
    assert (S2 : (N * I * a * (P1 * P2) <= X * T * (P1 * P2))%Q)
      by (apply Qmult_le_compat_r; [exact Hf2|exact HP12]).
    assert (HIa : (0 <= I * a)%Q) by (apply Qmult_le_0_compat; assumption).
    assert (S3 : (T * (I * a * P1) <= N * P2 * (I * a * P1))%Q).
    { apply Qmult_le_compat_r; [exact Hf1'|]. apply Qmult_le_0_compat; lra. }
    lra.
  - apply Qmult_lt_0_le_reg_r with T; [exact HTp|].
    assert (S1 : (Sv * (P1 * T) <= X * P2 * (P1 * T))%Q)
      by (apply Qmult_le_compat_r; [exact Hf3'|nra]).
    assert (S2 : (X * T * (P1 * P2) <= N * I * b * (P1 * P2))%Q)
      by (apply Qmult_le_compat_r; [exact Hf2'|exact HP12]).
    assert (HIb : (0 <= I * b)%Q) by (apply Qmult_le_0_compat; assumption).
    assert (S3 : (N * P1 * (I * b * P2) <= T * (I * b * P2))%Q).
    { apply Qmult_le_compat_r; [exact Hf1|]. apply Qmult_le_0_compat; lra. }
    lra.
Qed.

(** ** The accumulated error, linearised *)

Section Linearised.
Local Open Scope Q_scope.

Lemma Qnat_S (n : nat) : Qnat (S n) == Qnat n + 1.
Proof.
  unfold Qnat. rewrite Nat2Z.inj_succ. unfold Z.succ.
  rewrite inject_Z_plus. reflexivity.
Qed.

Lemma Qnat_nonneg (n : nat) : 0 <= Qnat n.
Proof.
  unfold Qnat. change 0 with (inject_Z 0). rewrite <- Zle_Qle. lia.
Qed.

(** Bernoulli's inequality. *)
Lemma qpow_lower (x : Q) (n : nat) :
  0 <= x <= 1 -> 1 - Qnat n * x <= qpow (1 - x) n.
Proof.
  intros Hx. induction n as [|n IH]; cbn [qpow].
  - change (Qnat 0) with 0. lra.
  - rewrite Qnat_S. pose proof (Qnat_nonneg n) as Hn.
    set (N := Qnat n) in *. set (P := qpow (1 - x) n) in *. clearbody N P.
    assert (HNxx : 0 <= N * (x * x)).
    { apply Qmult_le_0_compat; [assumption|]. apply Qmult_le_0_compat; lra. }
    assert (H1 : (1 - N * x) * (1 - x) <= P * (1 - x))
      by (apply Qmult_le_compat_r; lra).
    lra.
Qed.

Lemma qpow_upper (x : Q) (n : nat) :
  0 <= x -> Qnat n * x <= 1 -> qpow (1 + x) n * (1 - Qnat n * x) <= 1.
Proof.
  intros Hx. induction n as [|n IH]; cbn [qpow]; intros Hn.
  - change (Qnat 0) with 0. lra.
  - rewrite Qnat_S in *. pose proof (Qnat_nonneg n) as HN.
    pose proof (qpow_pos (1 + x) n ltac:(lra)) as HP.
    set (N := Qnat n) in *. set (P := qpow (1 + x) n) in *. clearbody N P.
    assert (IH' : P * (1 - N * x) <= 1) by (apply IH; nra).
    assert (Hxx : 0 <= x * x) by (apply Qmult_le_0_compat; assumption).
    assert (HNxx : 0 <= N * (x * x)) by (apply Qmult_le_0_compat; assumption).
    assert (E : (1 + x) * (1 - (N + 1) * x) <= 1 - N * x) by lra.
    assert (H1 : (1 + x) * (1 - (N + 1) * x) * P <= (1 - N * x) * P)
      by (apply Qmult_le_compat_r; lra).
    lra.
Qed.
End Linearised.

Lemma capped_sum_linear (I Sv P1 P2 : Q) (m : nat) :
  (0 <= I)%Q -> (0 <= Sv)%Q ->
  P1 = qpow (1 - eps) m -> P2 = qpow (1 + eps) m ->
  (Z.of_nat m <= 10 ^ 12)%Z ->
  (I * ((1 - eps) * (1 - eps) * P1) <= Sv * P2)%Q ->
  (Sv * P1 <= I * ((1 + eps) * (1 + eps) * P2))%Q ->
  (I * (1 - rounding_epsilon m) <= Sv <= I * (1 + rounding_epsilon m))%Q.
Proof.
  intros HI HS -> -> Hm H1 H2.
  destruct eps_bounds as (He1 & He2 & He3).
  assert (Heps : (0 <= eps <= 1)%Q) by (unfold eps; split; lra).
  assert (HM : (Qnat m <= 1000000000000)%Q).
  { unfold Qnat. change (1000000000000)%Q with (inject_Z (10 ^ 12)).
    rewrite <- Zle_Qle. exact Hm. }
  pose proof (Qnat_nonneg m) as HM0.
  pose proof (qpow_lower eps m Heps) as L1.
  pose proof (qpow_lower eps (S (S m)) Heps) as L2.
  assert (Hme : (Qnat m * eps <= 1)%Q) by (unfold eps; nra).
  assert (Hme2 : (Qnat (S (S m)) * eps <= 1)%Q)
    by (rewrite !Qnat_S; unfold eps; nra).
  pose proof (qpow_upper eps m (proj1 Heps) Hme) as U1.
  pose proof (qpow_upper eps (S (S m)) (proj1 Heps) Hme2) as U2.
  cbn [qpow] in L2, U2. rewrite !Qnat_S in L2, U2.
  assert (HR : (rounding_epsilon m == (2 * Qnat m + 3) * eps)%Q).
  { unfold rounding_epsilon, Qnat. rewrite Nat2Z.inj_add, Nat2Z.inj_mul.
    rewrite inject_Z_plus, inject_Z_mult. reflexivity. }
  rewrite HR.
  pose proof (qpow_pos (1 - eps) m He1) as HP1.
  pose proof (qpow_pos (1 + eps) m ltac:(lra)) as HP2.
  set (M := Qnat m) in *. set (P1 := qpow (1 - eps) m) in *.
  set (P2 := qpow (1 + eps) m) in *. clearbody M P1 P2.
  assert (Hw : (0 < 1 - M * eps)%Q) by (unfold eps; nra).
  assert (Hv : (0 < 1 - (M + 1 + 1) * eps)%Q) by (unfold eps; nra).
  split.
  - (* Sv >= Sv * P2 * (1 - M eps) >= I * a * P1 * (1 - M eps) *)
    assert (A1 : (Sv * (P2 * (1 - M * eps)) <= Sv * 1)%Q) by nra.
    assert (A2 : (I * ((1 - eps) * (1 - eps) * P1) * (1 - M * eps)
                  <= Sv * P2 * (1 - M * eps))%Q)
      by (apply Qmult_le_compat_r; lra).
    assert (A3 : (I * (1 - (M + 1 + 1) * eps) <= I * ((1 - eps) * ((1 - eps) * P1)))%Q)
      by nra.
    assert (A4 : (I * (1 - (M + 1 + 1) * eps) * (1 - M * eps)
                  <= I * ((1 - eps) * ((1 - eps) * P1)) * (1 - M * eps))%Q)
      by (apply Qmult_le_compat_r; lra).
    assert (A5 : (I * (1 - (2 * M + 3) * eps)
                  <= I * (1 - (M + 1 + 1) * eps) * (1 - M * eps))%Q)
      by (unfold eps; nra).
    lra.
  - (* Sv * w * v <= I *)
    assert (B1 : (Sv * (1 - M * eps) <= Sv * P1)%Q) by nra.
    assert (B2 : (Sv * (1 - M * eps) * (1 - (M + 1 + 1) * eps)
                  <= I * ((1 + eps) * (1 + eps) * P2) * (1 - (M + 1 + 1) * eps))%Q)
      by (apply Qmult_le_compat_r; lra).
    assert (B3 : (I * ((1 + eps) * ((1 + eps) * P2) * (1 - (M + 1 + 1) * eps)) <= I * 1)%Q)
      by nra.
    assert (B4 : (1 <= (1 - M * eps) * (1 - (M + 1 + 1) * eps)
                       * (1 + (2 * M + 3) * eps))%Q)
      by (unfold eps; nra).
    assert (B5 : (Sv * 1 <= Sv * ((1 - M * eps) * (1 - (M + 1 + 1) * eps)
                                  * (1 + (2 * M + 3) * eps)))%Q) by nra.
    assert (B6 : (Sv * (1 - M * eps) * (1 - (M + 1 + 1) * eps)
                    * (1 + (2 * M + 3) * eps)
                  <= I * (1 + (2 * M + 3) * eps))%Q).
    { assert (0 <= (2 * M + 3) * eps)%Q by (unfold eps; nra).
      apply Qmult_le_compat_r; lra. }
    lra.
Qed.

(** [C2] Whenever [total_needed > investment_amount] (and the investment
    amount is [>= 0]), the capping replaces the needed investment [n] of every
    category by [investment_amount * (n / total_needed)], computed in decimal
    arithmetic, whose value is [n * investment_amount / total_needed] up to
    two roundings; the sum of the scaled values equals the investment amount
    up to the roundings of the operations involved: for [m] categories, its
    distance to the investment amount is at most [(2 m + 3) * 10^-27] times
    the investment amount. *)
Theorem C2_proportional_capping
  (investment_amount : Decimal) (category_totals target_allocation : dict Decimal)
  (categories : dict (list string)) (needed0 : dict Decimal) :
  is_dict categories = true ->
  dec_le (of_Z 0) investment_amount = true ->
  needed_investments_of
    (get_desired_balances investment_amount (total_balance_of category_totals)
                          target_allocation)
    category_totals categories = Ok needed0 ->
  dec_lt investment_amount (py_sum (values needed0)) = true ->
  let total_needed := py_sum (values needed0) in
  let m := List.length categories in
  exists needed,
    cap_investments investment_amount needed0 = Ok needed /\
    keys needed = keys categories /\
    (forall category n,
       dict_get needed0 category = Some n ->
       exists share,
         dec_div n total_needed = Ok share /\
         dict_get needed category = Some (dec_mul investment_amount share) /\
         (D2Q n * D2Q investment_amount * ((1 - eps) * (1 - eps))
          <= D2Q (dec_mul investment_amount share) * D2Q total_needed
          <= D2Q n * D2Q investment_amount * ((1 + eps) * (1 + eps)))%Q) /\
    (D2Q investment_amount * ((1 - eps) * (1 - eps) * qpow (1 - eps) m)
     <= D2Q (py_sum (values needed)) * qpow (1 + eps) m)%Q /\
    (D2Q (py_sum (values needed)) * qpow (1 - eps) m
     <= D2Q investment_amount * ((1 + eps) * (1 + eps) * qpow (1 + eps) m))%Q /\
    ((Z.of_nat m <= 10 ^ 12)%Z ->
     (D2Q investment_amount * (1 - rounding_epsilon m)
      <= D2Q (py_sum (values needed))
      <= D2Q investment_amount * (1 + rounding_epsilon m))%Q).
Proof.
  intros Hd Hinv H0 Hlt total_needed m.
  pose proof (proj1 (nodupb_NoDup _) Hd) as Hnd.
  pose proof (dict_comp_keys _ _ _ H0) as Hk0.
  pose proof (needed_nonneg _ _ _ _ _ H0) as Hn0.
  pose proof (cap_branch_divisor _ _ Hinv Hlt) as HT. fold total_needed in HT.
  apply dec_le_0_nonneg in Hinv.
  assert (Hnd0 : NoDup (keys needed0)) by (rewrite Hk0; exact Hnd).
  pose proof (cap_investments_closed _ _ Hinv Hnd0) as H1.
  rewrite Hlt in H1. fold total_needed in H1.
  set (needed := map (fun kv => (fst kv,
                                 scaled investment_amount total_needed (snd kv)))
                     needed0) in *.
  assert (Hvals : values needed
                  = map (scaled investment_amount total_needed) (values needed0)).
  { unfold needed, values. rewrite !map_map. reflexivity. }
  assert (Hlen : List.length (values needed0) = m).
  { unfold values, m. rewrite length_map, <- (keys_length needed0), Hk0.
    apply keys_length. }
  pose proof (capped_sum_bounds investment_amount (values needed0) Hinv Hn0 HT)
    as [Hb1 Hb2].
  fold total_needed in Hb1, Hb2. rewrite <- Hvals, Hlen in Hb1, Hb2.
  exists needed. split; [exact H1|]. split.
  { unfold needed, keys. rewrite map_map. exact Hk0. }
  split; [|split; [exact Hb1|split; [exact Hb2|]]].
  - intros category n Hn.
    assert (Hnn : nonneg n).
    { rewrite Forall_forall in Hn0. apply Hn0. eapply dict_get_value; eassumption. }
    pose proof (scaled_rel investment_amount total_needed Hinv HT n Hnn) as Hrel.
    unfold scaled in Hrel.
    destruct (dec_div_ok n total_needed ltac:(lia)) as (share & Hshare & _).
    rewrite Hshare in Hrel. exists share. split; [exact Hshare|]. split; [|exact Hrel].
    unfold needed. rewrite dict_get_map_values, Hn. cbn [option_map].
    unfold scaled. rewrite Hshare. reflexivity.
  - intros Hm.
    apply (capped_sum_linear _ _ (qpow (1 - eps) m) (qpow (1 + eps) m) m);
      try reflexivity; try assumption.
    apply py_sum_nonneg. rewrite Hvals. apply scaled_all_nonneg; assumption.
Qed.

Lemma C2_proportional_capping_witness :
  exists needed,
    cap_investments (of_Z 100) [("A", mkDec 5000 (-1)); ("B", of_Z 0)]%string
    = Ok needed /\
    (D2Q (of_Z 100) * (1 - rounding_epsilon 2)
     <= D2Q (py_sum (values needed))
     <= D2Q (of_Z 100) * (1 + rounding_epsilon 2))%Q.
Proof.
  destruct (C2_proportional_capping
              (of_Z 100)
              [("A", of_Z 0); ("B", of_Z 900)]%string
              [("A", mkDec 5 (-1)); ("B", mkDec 5 (-1))]%string
              [("A", ["Y"]); ("B", ["X"])]%string
              [("A", mkDec 5000 (-1)); ("B", of_Z 0)]%string)
    as (needed & H1 & _ & _ & _ & _ & H2).
  - reflexivity.
  - reflexivity.
  - vm_compute. reflexivity.
  - vm_compute. reflexivity.
  - exists needed. split; [exact H1|]. apply H2. vm_compute. discriminate.
Defined.

(** * Conservation of the balance *)

Section Exact.
Variable q : Z.

Lemma scaled_abs_nonneg (d : Decimal) : q <= expo d -> 0 <= scaled_abs q d.
Proof.
  intros H. unfold scaled_abs. apply Z.mul_nonneg_nonneg; [lia|].
  apply Z.pow_nonneg. lia.
Qed.

Lemma mass_nonneg (l : list Decimal) :
  Forall (fun d => q <= expo d) l -> 0 <= mass q l.
Proof.
  induction 1 as [|d l Hd _ IH]; cbn [mass]; [lia|].
  pose proof (scaled_abs_nonneg d Hd). lia.
Qed.

Lemma mass_app (l1 l2 : list Decimal) : mass q (l1 ++ l2) = mass q l1 + mass q l2.
Proof. induction l1 as [|d l1 IH]; cbn [app mass]; lia. Qed.

(** A sum that fits is not rounded. *)
Lemma dec_add_fits (x y : Decimal) :
  q <= expo x -> q <= expo y ->
  scaled_abs q x + scaled_abs q y < 10 ^ prec ->
  dec_add x y = add_exact x y /\
  q <= expo (dec_add x y) /\
  scaled_abs q (dec_add x y) <= scaled_abs q x + scaled_abs q y.
Proof.
  intros Hx Hy Hlt.
  assert (Hb : q <= expo (add_exact x y) /\
               scaled_abs q (add_exact x y) <= scaled_abs q x + scaled_abs q y).
  { unfold add_exact, scaled_abs. cbn [coef expo].
    set (e := Z.min (expo x) (expo y)).
    assert (He : q <= e) by (unfold e; lia). split; [exact He|].
    assert (Ex : 10 ^ (expo x - q) = 10 ^ (expo x - e) * 10 ^ (e - q)).
    { rewrite <- Z.pow_add_r by (unfold e; lia). f_equal. lia. }
    assert (Ey : 10 ^ (expo y - q) = 10 ^ (expo y - e) * 10 ^ (e - q)).
    { rewrite <- Z.pow_add_r by (unfold e; lia). f_equal. lia. }
    rewrite Ex, Ey.
    pose proof (pow10_pos (expo x - e) ltac:(unfold e; lia)) as Px.
    pose proof (pow10_pos (expo y - e) ltac:(unfold e; lia)) as Py.
    pose proof (pow10_pos (e - q) ltac:(lia)) as Pq.
    rewrite !Z.mul_assoc, <- Z.mul_add_distr_r.
    apply Z.mul_le_mono_nonneg_r; [lia|].
    rewrite <- (Z.abs_eq (10 ^ (expo x - e))) at 2 by lia.
    rewrite <- (Z.abs_eq (10 ^ (expo y - e))) at 2 by lia.
    rewrite <- !Z.abs_mul. apply Z.abs_triangle. }
  destruct Hb as [Hb1 Hb2].
  assert (Hctx : in_context (add_exact x y) = true).
  { apply in_context_iff.
    pose proof (pow10_pos (expo (add_exact x y) - q) ltac:(lia)) as Pq.
    unfold scaled_abs in Hb2 at 1.
    assert (Z.abs (coef (add_exact x y))
            <= Z.abs (coef (add_exact x y)) * 10 ^ (expo (add_exact x y) - q)) by nia.
    lia. }
  unfold dec_add. rewrite (dec_fix_exact _ Hctx). auto.
Qed.

Lemma fold_add_exact (l : list Decimal) (acc : Decimal) :
  q <= expo acc -> Forall (fun d => q <= expo d) l ->
  scaled_abs q acc + mass q l < 10 ^ prec ->
  (D2Q (fold_left dec_add l acc) == D2Q acc + Qsum l)%Q /\
  q <= expo (fold_left dec_add l acc) /\
  scaled_abs q (fold_left dec_add l acc) <= scaled_abs q acc + mass q l.
Proof.
  intros Hacc Hl. revert acc Hacc.
  induction Hl as [|d l Hd Hl IH]; intros acc Hacc Hlt;
    cbn [fold_left Qsum mass] in *.
  - split; [ring|]. split; [exact Hacc|lia].
  - pose proof (mass_nonneg l Hl) as Hm.
    destruct (dec_add_fits acc d Hacc Hd ltac:(lia)) as (Heq & He & Hs).
    destruct (IH (dec_add acc d) He ltac:(lia)) as (IH1 & IH2 & IH3).
    split; [|split; [exact IH2|lia]].
    rewrite IH1, Heq, add_exact_value. ring.
Qed.
End Exact.

Lemma Qsum_app (l1 l2 : list Decimal) : (Qsum (l1 ++ l2) == Qsum l1 + Qsum l2)%Q.
Proof. induction l1 as [|d l1 IH]; cbn [app Qsum]; [ring|rewrite IH; ring]. Qed.

Lemma Qsum_perm (l l' : list Decimal) : Permutation l l' -> (Qsum l == Qsum l')%Q.
Proof.
  induction 1 as [|d l l' _ IH|d d' l|l l' l'' _ IH1 _ IH2]; cbn [Qsum].
  - reflexivity.
  - rewrite IH. reflexivity.
  - ring.
  - rewrite IH1. exact IH2.
Qed.

Lemma mass_perm (q : Z) (l l' : list Decimal) :
  Permutation l l' -> mass q l = mass q l'.
Proof.
  induction 1 as [|d l l' _ IH|d d' l|l l' l'' _ IH1 _ IH2]; cbn [mass]; lia.
Qed.

Lemma Qsum_zeros (zs : list Decimal) :
  Forall (fun z => z = of_Z 0) zs -> (Qsum zs == 0)%Q.
Proof.
  induction 1 as [|z zs Hz _ IH]; cbn [Qsum]; [reflexivity|].
  rewrite IH, Hz, D2Q_of_Z_0. ring.
Qed.

Lemma mass_zeros (q : Z) (zs : list Decimal) :
  Forall (fun z => z = of_Z 0) zs -> mass q zs = 0%Z.
Proof.
  induction 1 as [|z zs Hz _ IH]; cbn [mass]; [reflexivity|].
  rewrite IH, Hz. unfold scaled_abs. cbn [of_Z coef Z.abs]. lia.
Qed.

Section Conservation.
Variable symbol_balances : dict Decimal.

Lemma sum_symbols_fold (symbols : list string) (start : Decimal) :
  sum_symbols symbol_balances symbols start
  = fold_left dec_add (map (balance_of symbol_balances) symbols) start.
Proof.
  revert start; induction symbols as [|s symbols IH]; intros start;
    cbn [sum_symbols fold_left map]; [reflexivity|].
  apply IH.
Qed.

Lemma balance_of_fits (q : Z) (symbol : string) :
  (q <= 0)%Z -> Forall (fun d => (q <= expo d)%Z) (values symbol_balances) ->
  (q <= expo (balance_of symbol_balances symbol))%Z.
Proof.
  intros Hq Hb. unfold balance_of, dict_get_default.
  destruct (dict_get symbol_balances symbol) as [v|] eqn:E; [|exact Hq].
  rewrite Forall_forall in Hb. apply Hb. eapply dict_get_value; eassumption.
Qed.
End Conservation.

(** The balances looked up for a list that names every symbol with a
    balance once: the balances themselves, in some order, and zeros. *)
Lemma balances_permutation (symbol_balances : dict Decimal) :
  forall symbols : list string,
  NoDup (keys symbol_balances) ->
  (forall k, In k (keys symbol_balances) ->
             count_occ string_dec symbols k = 1%nat) ->
  exists zs,
    Permutation (map (balance_of symbol_balances) symbols)
                (values symbol_balances ++ zs) /\
    Forall (fun z => z = of_Z 0) zs.
Proof.
  induction symbol_balances as [|[k v] b IH]; intros symbols Hnd Hcount.
  - exists (map (balance_of []) symbols). split; [reflexivity|].
    apply Forall_forall. intros z Hin. apply in_map_iff in Hin.
    destruct Hin as (s & <- & _). reflexivity.
  - cbn [keys map fst] in Hnd, Hcount.
    inversion Hnd as [|? ? Hk Hnd']; subst.
    assert (Hin : In k symbols).
    { apply (count_occ_In string_dec). rewrite (Hcount k (or_introl eq_refl)). lia. }
    destruct (in_split _ _ Hin) as (l1 & l2 & ->).
    pose proof (Hcount k (or_introl eq_refl)) as Hck.
    rewrite count_occ_app, count_occ_cons_eq in Hck by reflexivity.
    assert (Hk1 : ~ In k l1) by (apply (count_occ_not_In string_dec); lia).
    assert (Hk2 : ~ In k l2) by (apply (count_occ_not_In string_dec); lia).
    assert (Hother : forall l, ~ In k l ->
              map (balance_of ((k, v) :: b)) l = map (balance_of b) l).
    { intros l Hl. apply map_ext_in. intros s Hs.
      unfold balance_of, dict_get_default. cbn [dict_get].
      destruct (String.eqb_spec k s) as [->|_]; [contradiction|reflexivity]. }
    assert (Hself : balance_of ((k, v) :: b) k = v).
    { unfold balance_of, dict_get_default. cbn [dict_get].
      rewrite String.eqb_refl. reflexivity. }
    destruct (IH (l1 ++ l2) Hnd') as (zs & Hperm & Hzs).
    { intros k' Hk'. assert (k' <> k) by (intros ->; contradiction).
      specialize (Hcount k' (or_intror Hk')).
      rewrite count_occ_app, count_occ_cons_neq in Hcount by congruence.
      rewrite count_occ_app. exact Hcount. }
    exists zs. split; [|exact Hzs].
    rewrite map_app. cbn [map]. rewrite Hself, (Hother l1 Hk1), (Hother l2 Hk2).
    cbn [values map snd app]. apply Permutation_sym, Permutation_cons_app.
    apply Permutation_sym. rewrite <- map_app. exact Hperm.
Qed.

(** The totals of the categories are exact when the balances they add up
    fit the context. *)
Lemma totals_exact (symbol_balances : dict Decimal) (q : Z)
  (symbol_lists : list (list string)) :
  (q <= 0)%Z -> Forall (fun d => (q <= expo d)%Z) (values symbol_balances) ->
  (mass q (map (balance_of symbol_balances) (List.concat symbol_lists)) < 10 ^ prec)%Z ->
  let totals := map (fun symbols => sum_symbols symbol_balances symbols (of_Z 0))
                    symbol_lists in
  Forall (fun d => (q <= expo d)%Z) totals /\
  (mass q totals <= mass q (map (balance_of symbol_balances) (List.concat symbol_lists)))%Z /\
  (Qsum totals == Qsum (map (balance_of symbol_balances) (List.concat symbol_lists)))%Q.
Proof.
  intros Hq Hb. induction symbol_lists as [|symbols rest IH]; intros Hlt totals.
  - unfold totals. cbn [map List.concat mass Qsum].
    split; [constructor|]. split; [lia|reflexivity].
  - cbn [List.concat] in *. rewrite map_app, mass_app in Hlt.
    assert (Hfit : forall l, Forall (fun d => (q <= expo d)%Z)
                               (map (balance_of symbol_balances) l)).
    { intros l. apply Forall_forall. intros d Hin. apply in_map_iff in Hin.
      destruct Hin as (s' & <- & _). apply balance_of_fits; assumption. }
    pose proof (mass_nonneg q _ (Hfit symbols)) as Hm1.
    pose proof (mass_nonneg q _ (Hfit (List.concat rest))) as Hm2.
    destruct (IH ltac:(lia)) as (IH1 & IH2 & IH3).
    destruct (fold_add_exact q (map (balance_of symbol_balances) symbols) (of_Z 0))
      as (F1 & F2 & F3); [exact Hq|apply Hfit| |].
    { change (scaled_abs q (of_Z 0)) with (0 * 10 ^ (0 - q))%Z. lia. }
    rewrite <- sum_symbols_fold in F1, F2, F3.
    unfold totals. cbn [map]. rewrite map_app, mass_app, Qsum_app. cbn [mass Qsum].
    split; [constructor; assumption|]. split.
    + change (scaled_abs q (of_Z 0)) with (0 * 10 ^ (0 - q))%Z in F3. lia.
    + rewrite F1, IH3, D2Q_of_Z_0. ring.
Qed.

(** [C7, amended] When every symbol that has a balance is listed once, all
    category lists together, and the balances are multiples of a common
    [10 ^ q] whose sizes add up to less than [10 ^ 28] such units, the sum of
    the category totals equals the sum of the symbol balances. *)
Theorem C7_conservation_of_balance
  (symbol_balances : dict Decimal) (categories : dict (list string)) (q : Z) :
  is_dict symbol_balances = true ->
  is_dict categories = true ->
  listed_once symbol_balances categories = true ->
  within_precision q (values symbol_balances) = true ->
  exists category_totals,
    get_category_totals symbol_balances categories = Ok category_totals /\
    dec_eq (py_sum (values category_totals)) (py_sum (values symbol_balances)) = true.
Proof.
  intros Hdb Hdc Hlisted Hprec.
  exists (map (category_total symbol_balances) categories).
  split; [apply get_category_totals_closed; exact Hdc|].
  apply nodupb_NoDup in Hdb.
  unfold within_precision in Hprec.
  apply andb_true_iff in Hprec. destruct Hprec as [Hprec Hmass].
  apply andb_true_iff in Hprec. destruct Hprec as [Hq Hfits].
  apply Z.leb_le in Hq. apply Z.ltb_lt in Hmass.
  assert (Hb : Forall (fun d => (q <= expo d)%Z) (values symbol_balances)).
  { apply Forall_forall. intros d Hin. apply Z.leb_le.
    rewrite forallb_forall in Hfits. apply Hfits, Hin. }
  destruct (balances_permutation symbol_balances (all_symbols categories) Hdb)
    as (zs & Hperm & Hzs).
  { intros k Hk. unfold listed_once in Hlisted. rewrite forallb_forall in Hlisted.
    apply Nat.eqb_eq. apply Hlisted, Hk. }
  assert (HmassL : mass q (map (balance_of symbol_balances) (all_symbols categories))
                   = mass q (values symbol_balances)).
  { rewrite (mass_perm q _ _ Hperm), mass_app, (mass_zeros q zs Hzs). lia. }
  assert (HsumL : (Qsum (map (balance_of symbol_balances) (all_symbols categories))
                   == Qsum (values symbol_balances))%Q).
  { rewrite (Qsum_perm _ _ Hperm), Qsum_app, (Qsum_zeros zs Hzs). ring. }
  destruct (totals_exact symbol_balances q (values categories) Hq Hb)
    as (T1 & T2 & T3).
  { fold (all_symbols categories). lia. }
  fold (all_symbols categories) in T2, T3.
  assert (Hvals : values (map (category_total symbol_balances) categories)
                  = map (fun symbols => sum_symbols symbol_balances symbols (of_Z 0))
                        (values categories)).
  { unfold values. rewrite !map_map. reflexivity. }
  rewrite Hvals. apply dec_eq_iff.
  destruct (fold_add_exact q _ (of_Z 0) Hq T1) as (F1 & _ & _).
  { change (scaled_abs q (of_Z 0)) with (0 * 10 ^ (0 - q))%Z. lia. }
  destruct (fold_add_exact q (values symbol_balances) (of_Z 0) Hq Hb) as (G1 & _ & _).
  { change (scaled_abs q (of_Z 0)) with (0 * 10 ^ (0 - q))%Z. lia. }
  unfold py_sum. change D0 with (of_Z 0).
  rewrite F1, G1, T3, HsumL. reflexivity.
Qed.

Lemma C7_conservation_of_balance_witness :
  exists category_totals,
    get_category_totals
      [("VTI", mkDec 1000050 (-2)); ("BND", mkDec 25000 (-1)); ("VXUS", of_Z 7)]%string
      [("Stocks", ["VXUS"; "GLD"; "VTI"]); ("Bonds", ["BND"]); ("Cash", [])]%string
    = Ok category_totals /\
    dec_eq (py_sum (values category_totals))
           (py_sum (values [("VTI", mkDec 1000050 (-2)); ("BND", mkDec 25000 (-1));
                            ("VXUS", of_Z 7)]%string)) = true.
Proof.
  apply (C7_conservation_of_balance _ _ (-2)%Z); reflexivity.
Defined.

(** [C7, as stated, fails] A symbol of one category only, listed twice, is
    counted twice; and balances of more than 28 digits in all are rounded
    differently by the two sums. *)
Lemma C7_counterexample :
  (let symbol_balances := [("VTI", of_Z 100)]%string in
   let categories := [("Stocks", ["VTI"; "VTI"])]%string in
   in_one_category symbol_balances categories = true /\
   get_category_totals symbol_balances categories = Ok [("Stocks", of_Z 200)]%string /\
   dec_eq (py_sum (values [("Stocks", of_Z 200)]%string))
          (py_sum (values symbol_balances)) = false) /\
  (let symbol_balances :=
     [("A", of_Z 9999999999999999999999999999); ("B", mkDec 4 (-1));
      ("C", mkDec 4 (-1))]%string in
   let categories := [("X", ["B"; "C"]); ("Y", ["A"])]%string in
   in_one_category symbol_balances categories = true /\
   listed_once symbol_balances categories = true /\
   get_category_totals symbol_balances categories
   = Ok [("X", mkDec 8 (-1)); ("Y", of_Z 9999999999999999999999999999)]%string /\
   py_sum (values [("X", mkDec 8 (-1)); ("Y", of_Z 9999999999999999999999999999)]%string)
   = mkDec 1000000000000000000000000000 1 /\
   py_sum (values symbol_balances) = of_Z 9999999999999999999999999999 /\
   dec_eq (mkDec 1000000000000000000000000000 1)
          (of_Z 9999999999999999999999999999) = false).
Proof.
  repeat split; vm_compute; reflexivity.
Qed.


(** [C10, as stated, fails] A row of the cash symbol is not always
    skipped: one with fewer than six columns stops the loader with
    [IndexError], where skipping it would have returned the balances of the
    other rows. *)
Lemma C10_counterexample :
  get_balance_dictionary plain_decimal
    [ ["Account"; "Name"; "Symbol"; "Shares"; "Price"; "Total"];
      ["1"; "a"; "VTI"; "2"; "50.25"; "100.50"];
      ["1"; "b"; "VMFXX"; "7"; "1"] ]%string
  = Raise IndexError /\
  get_balance_dictionary plain_decimal
    [ ["Account"; "Name"; "Symbol"; "Shares"; "Price"; "Total"];
      ["1"; "a"; "VTI"; "2"; "50.25"; "100.50"] ]%string
  = Ok [("VTI", mkDec 10050 (-2))]%string.
Proof.
  split; vm_compute; reflexivity.
Qed.

(** * Further properties of the loader and of the prompt *)

Section LoaderOutcome.
Variable Decimal_of_string : string -> option Decimal.

Lemma read_rows_processed (rows : list (list string)) (acc : dict Decimal) :
  read_rows Decimal_of_string rows acc
  = read_rows Decimal_of_string (processed rows) acc.
Proof.
  revert acc; induction rows as [|row rows IH]; intros acc; [reflexivity|].
  destruct row as [|c row]; [reflexivity|].
  cbn [processed read_rows].
  destruct (row_index (c :: row) 2) as [symbol|]; [|reflexivity]. cbn [bind].
  destruct (row_index (c :: row) 5) as [balance_str|]; [|reflexivity]. cbn [bind].
  destruct (negb (String.eqb symbol cash_symbol)); [|apply IH].
  destruct (Decimal_of_string balance_str); [apply IH|reflexivity].
Qed.

Lemma processed_nonempty (rows : list (list string)) :
  Forall (fun row => row <> []) (processed rows).
Proof.
  induction rows as [|row rows IH]; [constructor|].
  destruct row as [|c row]; [constructor|].
  cbn [processed]. constructor; [discriminate|exact IH].
Qed.

(** Rows that are [row_ok] are gone through. *)
Lemma read_rows_ok_prefix (pre : list (list string)) (acc : dict Decimal) :
  Forall (fun row => row <> []) pre ->
  forallb (row_ok Decimal_of_string) pre = true ->
  exists acc', forall rest,
    read_rows Decimal_of_string (pre ++ rest) acc
    = read_rows Decimal_of_string rest acc'.
Proof.
  intros Hne. revert acc; induction Hne as [|row pre Hrow _ IH]; intros acc Hok.
  - exists acc. reflexivity.
  - cbn [forallb] in Hok. apply andb_true_iff in Hok. destruct Hok as [Hr Hok].
    destruct row as [|c row]; [contradiction|].
    unfold row_ok in Hr. cbn [app read_rows]. unfold row_index.
    destruct (nth_error (c :: row) 2) as [symbol|]; [|discriminate].
    destruct (nth_error (c :: row) 5) as [balance_str|]; [|discriminate].
    cbn [bind].
    destruct (String.eqb symbol cash_symbol); cbn [negb orb] in *.
    + apply IH, Hok.
    + destruct (Decimal_of_string balance_str) as [balance|]; [|discriminate].
      apply IH, Hok.
Qed.

Lemma read_rows_bad_row (row : list string) (post : list (list string))
  (acc : dict Decimal) :
  row <> [] -> row_ok Decimal_of_string row = false ->
  read_rows Decimal_of_string (row :: post) acc = Raise (row_error row).
Proof.
  intros Hne Hbad. destruct row as [|c row]; [contradiction|].
  unfold row_ok in Hbad. unfold row_error. cbn [read_rows]. unfold row_index.
  destruct (nth_error (c :: row) 2) as [symbol|] eqn:E2.
  - destruct (nth_error (c :: row) 5) as [balance_str|]; [|reflexivity].
    cbn [bind]. destruct (String.eqb symbol cash_symbol); [discriminate|].
    cbn [negb orb] in *.
    destruct (Decimal_of_string balance_str); [discriminate|reflexivity].
  - assert (E5 : nth_error (c :: row) 5 = None).
    { apply nth_error_None. apply nth_error_None in E2. lia. }
    rewrite E5. reflexivity.
Qed.

Lemma dict_set_keys_add_new (d : dict Decimal) (k : string) (v : Decimal) :
  keys (dict_set d k v) = add_new (keys d) k.
Proof.
  unfold add_new. induction d as [|[k0 v0] d IH]; [reflexivity|].
  cbn [dict_set keys map fst existsb].
  rewrite (String.eqb_sym k k0).
  destruct (String.eqb k0 k); cbn [orb keys map fst]; [reflexivity|].
  fold (keys d). fold (keys (dict_set d k v)). rewrite IH.
  destruct (existsb (String.eqb k) (keys d)); reflexivity.
Qed.

Lemma add_new_NoDup (l : list string) (s : string) :
  NoDup l -> NoDup (add_new l s).
Proof.
  intros Hl. unfold add_new.
  destruct (existsb (String.eqb s) l) eqn:E; [exact Hl|].
  apply NoDup_app; [exact Hl|constructor; [intros []|constructor]|].
  intros x Hx [<-|[]]. apply not_true_iff_false in E. apply E.
  apply existsb_exists. exists s. split; [exact Hx|apply String.eqb_refl].
Qed.

Lemma read_rows_keys (rows : list (list string)) (acc d : dict Decimal) :
  read_rows Decimal_of_string rows acc = Ok d ->
  keys d = fold_left add_new (stored_symbols rows) (keys acc) /\
  (NoDup (keys acc) -> NoDup (keys d)).
Proof.
  revert acc; induction rows as [|row rows IH]; intros acc H.
  - cbn in H. injection H as <-. split; [reflexivity|auto].
  - destruct row as [|c row].
    + cbn in H. injection H as <-. split; [reflexivity|auto].
    + cbn [read_rows] in H.
      apply bind_Ok in H. destruct H as (symbol & H2 & H).
      apply bind_Ok in H. destruct H as (balance_str & H5 & H).
      apply row_index_nth in H2.
      unfold stored_symbols. cbn [processed map filter]. rewrite H2.
      fold (stored_symbols rows).
      destruct (String.eqb symbol cash_symbol); cbn [negb] in *.
      * apply IH, H.
      * destruct (Decimal_of_string balance_str) as [balance|]; [|discriminate].
        destruct (IH _ H) as [Hk Hn]. cbn [fold_left].
        rewrite <- (dict_set_keys_add_new acc symbol balance). split; [exact Hk|].
        intros Hacc. apply Hn. rewrite dict_set_keys_add_new.
        apply add_new_NoDup, Hacc.
Qed.
End LoaderOutcome.

(** [X1] The loader returns exactly when every row before the first empty one has
    its six columns and, unless it is a row of the cash symbol, a balance
    that is a number; otherwise it raises the exception of the first row
    that is not so: [IndexError] for a short row, [InvalidOperation] for a
    balance that is no number.  A file without a header row raises
    [StopIteration]. *)
Theorem loader_outcome (Decimal_of_string : string -> option Decimal)
  (header : list string) (data : list (list string)) :
  (forallb (row_ok Decimal_of_string) (processed data) = true ->
   raises (get_balance_dictionary Decimal_of_string (header :: data)) = false) /\
  (forall pre row post,
     processed data = pre ++ row :: post ->
     forallb (row_ok Decimal_of_string) pre = true ->
     row_ok Decimal_of_string row = false ->
     get_balance_dictionary Decimal_of_string (header :: data)
     = Raise (row_error row)) /\
  get_balance_dictionary Decimal_of_string [] = Raise StopIteration.
Proof.
  split; [|split; [|reflexivity]].
  - intros Hok. cbn [get_balance_dictionary]. rewrite read_rows_processed.
    destruct (read_rows_ok_prefix Decimal_of_string (processed data) []
                (processed_nonempty data) Hok) as [acc' Hacc].
    specialize (Hacc []). rewrite app_nil_r in Hacc. rewrite Hacc. reflexivity.
  - intros pre row post Hp Hok Hbad.
    cbn [get_balance_dictionary]. rewrite read_rows_processed, Hp.
    pose proof (processed_nonempty data) as Hne. rewrite Hp in Hne.
    apply Forall_app in Hne. destruct Hne as [Hpre Hrest].
    inversion Hrest as [|? ? Hrow _]; subst.
    destruct (read_rows_ok_prefix Decimal_of_string pre [] Hpre Hok) as [acc' Hacc].
    rewrite Hacc. apply read_rows_bad_row; assumption.
Qed.

Lemma loader_outcome_witness :
  get_balance_dictionary plain_decimal
    [ ["Account"; "Name"; "Symbol"; "Shares"; "Price"; "Total"];
      ["1"; "a"; "VTI"; "2"; "50.25"; "100.50"];
      ["1"; "b"; "VMFXX"; "7"; "1"; "n/a"];
      ["1"; "c"; "BND"; "1"; "5.5"];
      ["1"; "d"; "VXUS"; "1"; "9"; "nine"] ]%string
  = Raise IndexError.
Proof.
  exact (proj1 (proj2 (loader_outcome plain_decimal
                         ["Account"; "Name"; "Symbol"; "Shares"; "Price"; "Total"]%string
                         [ ["1"; "a"; "VTI"; "2"; "50.25"; "100.50"];
                           ["1"; "b"; "VMFXX"; "7"; "1"; "n/a"];
                           ["1"; "c"; "BND"; "1"; "5.5"];
                           ["1"; "d"; "VXUS"; "1"; "9"; "nine"] ]%string))
               [ ["1"; "a"; "VTI"; "2"; "50.25"; "100.50"];
                 ["1"; "b"; "VMFXX"; "7"; "1"; "n/a"] ]%string
               ["1"; "c"; "BND"; "1"; "5.5"]%string
               [ ["1"; "d"; "VXUS"; "1"; "9"; "nine"] ]%string
               eq_refl eq_refl eq_refl).
Defined.

(** [X2] The keys of the mapping the loader returns are the symbols of the rows
    it went through, the cash symbol apart, in the order in which each
    appears first; they are pairwise distinct. *)
Theorem loader_keys (Decimal_of_string : string -> option Decimal)
  (header : list string) (data : list (list string)) (symbol_balance : dict Decimal) :
  get_balance_dictionary Decimal_of_string (header :: data) = Ok symbol_balance ->
  keys symbol_balance = first_occurrences (stored_symbols data) /\
  is_dict symbol_balance = true.
Proof.
  intros H. cbn [get_balance_dictionary] in H.
  destruct (read_rows_keys _ _ _ _ H) as [Hk Hn]. split; [exact Hk|].
  apply nodupb_NoDup. apply Hn. constructor.
Qed.

Lemma loader_keys_witness :
  keys [("VTI", mkDec 200 0); ("BND", mkDec 55 (-1))]%string
  = ["VTI"; "BND"]%string.
Proof.
  refine (eq_trans
            (proj1 (loader_keys plain_decimal
               ["Account"; "Name"; "Symbol"; "Shares"; "Price"; "Total"]%string
               [ ["1"; "a"; "VTI"; "2"; "50.25"; "100.50"];
                 ["1"; "b"; "VMFXX"; "7"; "1"; "n/a"];
                 ["1"; "c"; "BND"; "1"; "5.5"; "5.5"];
                 ["1"; "a"; "VTI"; "4"; "50"; "200"];
                 [];
                 ["1"; "d"; "VXUS"; "1"; "9"; "9"] ]%string
               [("VTI", mkDec 200 0); ("BND", mkDec 55 (-1))]%string _)) _).
  - vm_compute. reflexivity.
  - vm_compute. reflexivity.
Defined.

Lemma remove_commas_app (a b : string) :
  remove_commas (a ++ b) = (remove_commas a ++ remove_commas b)%string.
Proof.
  induction a as [|c a IH]; cbn [String.append remove_commas]; [reflexivity|].
  rewrite IH. destruct (Ascii.eqb c ","%char); reflexivity.
Qed.

Lemma remove_commas_idempotent (s : string) :
  remove_commas (remove_commas s) = remove_commas s.
Proof.
  induction s as [|c s IH]; cbn [remove_commas]; [reflexivity|].
  destruct (Ascii.eqb c ","%char) eqn:E; [exact IH|].
  cbn [remove_commas]. rewrite E, IH. reflexivity.
Qed.

(** [X3] The prompt ignores every comma of the line entered, wherever it stands:
    the text handed to [Decimal] holds none, and two lines that differ by
    commas only give the same amount, or fail alike. *)
Theorem prompt_ignores_commas (Decimal_of_string : string -> option Decimal) :
  (forall s, ~ In ","%char (list_ascii_of_string (remove_commas s))) /\
  (forall a b,
     prompt_for_investment_amount Decimal_of_string (a ++ "," ++ b)
     = prompt_for_investment_amount Decimal_of_string (a ++ b)) /\
  (forall s,
     prompt_for_investment_amount Decimal_of_string (remove_commas s)
     = prompt_for_investment_amount Decimal_of_string s).
Proof.
  split; [|split].
  - intros s. induction s as [|c s IH]; cbn [remove_commas]; [intros []|].
    destruct (Ascii.eqb_spec c ","%char) as [->|Hne]; [exact IH|].
    cbn [list_ascii_of_string]. intros [Heq|Hin]; [congruence|exact (IH Hin)].
  - intros a b. unfold prompt_for_investment_amount.
    rewrite !remove_commas_app. reflexivity.
  - intros s. unfold prompt_for_investment_amount.
    rewrite remove_commas_idempotent. reflexivity.
Qed.

(** * Fractions of a total *)

Section Fractions.
Local Open Scope Q_scope.

Lemma D2Q_of_Z_1 : D2Q (of_Z 1) == 1.
Proof. reflexivity. Qed.

(** Every term of a sum of nonnegative decimals of the context is at most
    the sum. *)
Lemma fold_add_ge (l : list Decimal) (acc : Decimal) :
  nonneg acc -> in_context acc = true ->
  Forall (fun d => nonneg d /\ in_context d = true) l ->
  D2Q acc <= D2Q (fold_left dec_add l acc) /\
  Forall (fun d => D2Q d <= D2Q (fold_left dec_add l acc)) l.
Proof.
  intros Hacc Hctx Hl. revert acc Hacc Hctx.
  induction Hl as [|d l [Hd Hdc] _ IH]; intros acc Hacc Hctx; cbn [fold_left].
  - split; [lra|constructor].
  - destruct (IH (dec_add acc d)) as [IH1 IH2];
      [apply dec_add_nonneg; assumption|apply dec_add_in_context|].
    pose proof (dec_add_ge_l acc d Hctx Hd) as H1.
    assert (H2 : D2Q d <= D2Q (dec_add acc d)).
    { apply dec_fix_ge; [exact Hdc|]. rewrite add_exact_value.
      unfold nonneg in Hacc. lra. }
    split; [lra|]. constructor; [lra|exact IH2].
Qed.

Lemma py_sum_ge (l : list Decimal) :
  Forall (fun d => nonneg d /\ in_context d = true) l ->
  Forall (fun d => D2Q d <= D2Q (py_sum l)) l.
Proof.
  intros Hl. apply (fold_add_ge l D0); [exact nonneg_D0|reflexivity|exact Hl].
Qed.

(** A part divided by the whole is a fraction between 0 and 1, and 0 when
    the part is 0. *)
Lemma dec_div_unit (x y : Decimal) :
  (0 <= coef x)%Z -> (0 < coef y)%Z -> D2Q x <= D2Q y ->
  exists q,
    dec_div x y = Ok q /\ 0 <= D2Q q <= 1 /\ (coef x = 0%Z -> D2Q q == 0).
Proof.
  intros Hx Hy Hle.
  destruct (dec_div_rel x y Hx Hy) as (q0 & Hq0 & _ & Hq0n & _ & Hb1 & Hb2).
  assert (HY : 0 < D2Q y) by (apply D2Q_pos; exact Hy).
  exists q0. split; [exact Hq0|].
  assert (Hzero : coef x = 0%Z -> D2Q q0 == 0).
  { intros Hc. apply D2Q_zero in Hc. rewrite Hc in Hb1, Hb2.
    destruct (Qlt_le_dec 0 (D2Q q0)) as [Hp|Hn]; [exfalso; nra|lra]. }
  split; [|exact Hzero]. split; [exact Hq0n|].
  destruct (Z.eq_dec (coef x) 0) as [Hx0|Hx0]; [rewrite (Hzero Hx0); lra|].
  assert (Ha : (0 < coef x)%Z) by lia.
  assert (Hone : in_context (of_Z 1) = true) by reflexivity.
  revert Hq0. unfold dec_div.
  destruct (Z.eqb_spec (coef y) 0) as [|_]; [lia|].
  destruct (Z.eqb_spec (coef x) 0) as [|_]; [lia|].
  rewrite (Z.abs_eq (coef x)), (Z.abs_eq (coef y)) by lia.
  rewrite (Z.sgn_pos _ Ha), (Z.sgn_pos _ Hy).
  pose proof (div_num_den (coef x) (coef y) Ha Hy) as Hnd.
  pose proof (div_scaling x y) as Hsc.
  cbv zeta in Hnd, Hsc. cbv zeta.
  set (shift := (ndigits (coef y) - ndigits (coef x) + prec + 1)%Z) in *.
  set (e := (expo x - expo y - shift)%Z) in *.
  set (num := if (0 <=? shift)%Z then (coef x * 10 ^ shift)%Z else coef x) in *.
  set (den := if (0 <=? shift)%Z then coef y else (coef y * 10 ^ (- shift))%Z) in *.
  clearbody num den. destruct Hnd as [Hden Hnum].
  destruct Hsc as (K & HK & HxK & HcK).
  pose proof (Z.div_mod num den ltac:(lia)) as Hdm.
  pose proof (Z.mod_pos_bound num den Hden) as Hmod.
  set (q := (num / den)%Z) in *. set (r := (num mod den)%Z) in *.
  clearbody q r. rewrite Z.mul_1_l.
  intros [= <-]. rewrite <- D2Q_of_Z_1. apply dec_fix_le; [exact Hone|].
  rewrite D2Q_of_Z_1.
  destruct (Z.eqb_spec r 0) as [Hr|Hr].
  - pose proof (strip_to_ideal_value (Z.to_nat (expo x - expo y - e)) q e
                  (expo x - expo y)) as Hst.
    rewrite <- D2Q_mk in Hst.
    set (w := mkDec _ _) in *. clearbody w.
    assert (HwY : D2Q w * D2Q y == D2Q x).
    { rewrite Hst, HcK, HxK. replace (q * den)%Z with num by lia. reflexivity. }
    destruct (Qlt_le_dec 1 (D2Q w)) as [Hgt|]; [exfalso; nra|assumption].
  - cbn [fst snd].
    set (c := if (q mod 5 =? 0)%Z then (q + 1)%Z else q).
    assert (Hc : (c <= q + 1)%Z) by (unfold c; destruct (q mod 5 =? 0)%Z; lia).
    clearbody c. rewrite D2Q_mk.
    assert (HcY : inject_Z c * p10 e * D2Q y <= D2Q y).
    { rewrite HcK. destruct (Z.le_gt_cases e 0) as [He|He].
      - assert (Ht : inject_Z (10 ^ (- e)) * p10 e == 1).
        { rewrite <- (p10_Z (- e)), <- p10_add by lia.
          replace (- e + e)%Z with 0%Z by lia. reflexivity. }
        assert (HYK : D2Q y == inject_Z (10 ^ (- e) * den) * K).
        { rewrite <- HcK, Ht. ring. }
        rewrite HYK. apply scaled_le; [exact HK|].
        assert (Hnt : (num <= 10 ^ (- e) * den)%Z).
        { apply (scaled_le _ _ K HK). rewrite <- HYK, <- HxK. exact Hle. }
        assert (q < 10 ^ (- e))%Z by nia.
        apply Z.mul_le_mono_nonneg_r; lia.
      - exfalso.
        assert (H1 : p10 e * D2Q y == inject_Z den * K).
        { rewrite <- (Z.mul_1_l den), <- HcK. change (inject_Z 1) with 1. ring. }
        assert (Hp : 1 <= p10 e).
        { rewrite (p10_Z e) by lia. change 1 with (inject_Z 1).
          rewrite <- Zle_Qle. pose proof (pow10_pos e ltac:(lia)). lia. }
        assert (H2 : inject_Z num * K <= inject_Z den * K).
        { rewrite <- HxK, <- H1. nra. }
        apply scaled_le in H2; [|exact HK].
        change (10 ^ 28)%Z with 10000000000000000000000000000%Z in Hnum. lia. }
    destruct (Qlt_le_dec 1 (inject_Z c * p10 e)) as [Hgt|]; [exfalso; nra|assumption].
Qed.
End Fractions.

(** * Further properties of the Category Aggregator *)

Lemma foldM_ext_in {A S : Type} (f g : S -> A -> result S) (l : list A) (s : S) :
  (forall s' a, In a l -> f s' a = g s' a) -> foldM f l s = foldM g l s.
Proof.
  revert s; induction l as [|a l IH]; intros s H; cbn [foldM]; [reflexivity|].
  rewrite (H s a (or_introl eq_refl)). destruct (g s a) as [s'|]; cbn [bind];
    [|reflexivity].
  apply IH. intros s'' a' Hin. apply H. now right.
Qed.

Lemma dec_same_eq (x y : Decimal) : dec_same x y = true -> x = y.
Proof.
  destruct x as [cx ex], y as [cy ey]. unfold dec_same. cbn [coef expo].
  intros H. apply andb_true_iff in H. destruct H as [Hc He].
  apply Z.eqb_eq in Hc, He. congruence.
Qed.

Lemma same_entry_default (b b' : dict Decimal) (symbol : string) :
  same_entry b b' symbol = true ->
  dict_get_default b symbol (of_Z 0) = dict_get_default b' symbol (of_Z 0).
Proof.
  unfold same_entry, dict_get_default.
  destruct (dict_get b symbol) as [v|], (dict_get b' symbol) as [v'|];
    try discriminate; [apply dec_same_eq|reflexivity].
Qed.

(** [X4] The aggregator reads the balances of the listed symbols only: two
    balance mappings that agree on every symbol of the category lists give
    the same outcome, whatever else they hold. *)
Theorem aggregator_reads_listed_symbols
  (symbol_balances symbol_balances' : dict Decimal)
  (categories : dict (list string)) :
  forallb (same_entry symbol_balances symbol_balances') (all_symbols categories)
  = true ->
  get_category_totals symbol_balances categories
  = get_category_totals symbol_balances' categories.
Proof.
  intros Hsame. rewrite forallb_forall in Hsame.
  unfold get_category_totals. apply foldM_ext_in.
  intros totals [c symbols] Hin. cbn [fst snd]. apply foldM_ext_in.
  intros totals' s Hs. unfold add_symbol.
  rewrite (same_entry_default symbol_balances symbol_balances' s); [reflexivity|].
  apply Hsame. unfold all_symbols. apply in_concat. exists symbols.
  split; [|exact Hs]. apply (in_map snd) in Hin. exact Hin.
Qed.

Lemma aggregator_reads_listed_symbols_witness :
  get_category_totals [("VTI", of_Z 100); ("GLD", of_Z 7)]%string
                      [("Stocks", ["VTI"; "VXUS"])]%string
  = get_category_totals [("BTC", of_Z 3); ("VTI", of_Z 100)]%string
                        [("Stocks", ["VTI"; "VXUS"])]%string.
Proof.
  apply (aggregator_reads_listed_symbols
           [("VTI", of_Z 100); ("GLD", of_Z 7)]%string
           [("BTC", of_Z 3); ("VTI", of_Z 100)]%string
           [("Stocks", ["VTI"; "VXUS"])]%string).
  reflexivity.
Defined.

Lemma is_permutation_Permutation (l l' : list string) :
  is_permutation l l' = true -> Permutation l l'.
Proof.
  intros H. unfold is_permutation in H. rewrite forallb_forall in H.
  apply (Permutation_count_occ string_dec). intros x.
  destruct (in_dec string_dec x (l ++ l')) as [Hin|Hout].
  - apply Nat.eqb_eq. apply H, Hin.
  - assert (H1 : ~ In x l) by (intros Hx; apply Hout, in_or_app; now left).
    assert (H2 : ~ In x l') by (intros Hx; apply Hout, in_or_app; now right).
    apply (count_occ_not_In string_dec) in H1, H2. congruence.
Qed.

Lemma within_precision_spec (q : Z) (l : list Decimal) :
  within_precision q l = true ->
  (q <= 0)%Z /\ Forall (fun d => (q <= expo d)%Z) l /\ (mass q l < 10 ^ prec)%Z.
Proof.
  unfold within_precision. intros H.
  apply andb_true_iff in H. destruct H as [H Hm].
  apply andb_true_iff in H. destruct H as [Hq Hf].
  apply Z.leb_le in Hq. apply Z.ltb_lt in Hm.
  split; [exact Hq|]. split; [|exact Hm].
  apply Forall_forall. intros d Hin. apply Z.leb_le.
  rewrite forallb_forall in Hf. apply Hf, Hin.
Qed.

(** The total of a list of symbols, when it fits the precision, is the exact
    sum of the balances. *)
Lemma sum_symbols_exact (symbol_balances : dict Decimal) (q : Z)
  (symbols : list string) :
  within_precision q (map (balance_of symbol_balances) symbols) = true ->
  (D2Q (sum_symbols symbol_balances symbols (of_Z 0))
   == Qsum (map (balance_of symbol_balances) symbols))%Q.
Proof.
  intros H. apply within_precision_spec in H. destruct H as (Hq & Hf & Hm).
  rewrite sum_symbols_fold.
  destruct (fold_add_exact q (map (balance_of symbol_balances) symbols) (of_Z 0))
    as (F & _ & _); [exact Hq|exact Hf| |].
  - change (scaled_abs q (of_Z 0)) with (0 * 10 ^ (0 - q))%Z. lia.
  - rewrite F, D2Q_of_Z_0. ring.
Qed.

Lemma within_precision_perm (q : Z) (l l' : list Decimal) :
  Permutation l l' -> within_precision q l = true -> within_precision q l' = true.
Proof.
  intros Hp H. apply within_precision_spec in H. destruct H as (Hq & Hf & Hm).
  unfold within_precision. rewrite !andb_true_iff. split; [split|].
  - apply Z.leb_le, Hq.
  - apply forallb_forall. intros d Hin. apply Z.leb_le.
    rewrite Forall_forall in Hf. apply Hf.
    apply (Permutation_in d (Permutation_sym Hp)), Hin.
  - apply Z.ltb_lt. rewrite <- (mass_perm q _ _ Hp). exact Hm.
Qed.

(** [X5] The order in which a category lists its symbols does not change the
    value of its total, as long as the balances of the category fit the 28
    digits of the context: listing the same symbols in another order, in
    every category, gives totals that compare equal, key by key. *)
Theorem aggregator_order_of_symbols
  (symbol_balances : dict Decimal) (categories categories' : dict (list string))
  (q : Z) :
  is_dict categories = true ->
  keys categories' = keys categories ->
  forallb (fun p => is_permutation (snd (fst p)) (snd (snd p)))
          (combine categories categories') = true ->
  forallb (fun kv => within_precision q (map (balance_of symbol_balances) (snd kv)))
          categories = true ->
  exists category_totals category_totals',
    get_category_totals symbol_balances categories = Ok category_totals /\
    get_category_totals symbol_balances categories' = Ok category_totals' /\
    keys category_totals' = keys category_totals /\
    forall category total,
      dict_get category_totals category = Some total ->
      exists total',
        dict_get category_totals' category = Some total' /\
        dec_eq total' total = true.
Proof.
  intros Hd Hk Hperm Hprec.
  assert (Hd' : is_dict categories' = true) by (unfold is_dict; rewrite Hk; exact Hd).
  exists (map (category_total symbol_balances) categories),
         (map (category_total symbol_balances) categories').
  split; [apply get_category_totals_closed, Hd|].
  split; [apply get_category_totals_closed, Hd'|].
  split; [rewrite !category_totals_keys; exact Hk|].
  clear Hd Hd'. revert categories' Hk Hperm Hprec.
  induction categories as [|[c symbols] categories IH];
    intros [|[c' symbols'] categories'] Hk Hperm Hprec category total;
    try discriminate.
  cbn [keys map fst] in Hk. injection Hk as -> Hk.
  cbn [combine forallb fst snd] in Hperm, Hprec.
  apply andb_true_iff in Hperm. destruct Hperm as [Hp Hperm].
  apply andb_true_iff in Hprec. destruct Hprec as [Hw Hprec].
  cbn [map category_total fst snd dict_get].
  destruct (String.eqb c category).
  - intros [= <-]. eexists. split; [reflexivity|].
    apply is_permutation_Permutation in Hp.
    pose proof (Permutation_map (balance_of symbol_balances) Hp) as Hpm.
    apply dec_eq_iff.
    rewrite (sum_symbols_exact symbol_balances q symbols Hw).
    rewrite (sum_symbols_exact symbol_balances q symbols'
               (within_precision_perm q _ _ Hpm Hw)).
    symmetry. apply Qsum_perm, Hpm.
  - apply IH; assumption.
Qed.

Lemma aggregator_order_of_symbols_witness :
  exists category_totals category_totals',
    get_category_totals [("VTI", mkDec 10050 (-2)); ("VXUS", of_Z 7)]%string
                        [("Stocks", ["VTI"; "VXUS"])]%string = Ok category_totals /\
    get_category_totals [("VTI", mkDec 10050 (-2)); ("VXUS", of_Z 7)]%string
                        [("Stocks", ["VXUS"; "VTI"])]%string = Ok category_totals' /\
    keys category_totals' = keys category_totals /\
    forall category total,
      dict_get category_totals category = Some total ->
      exists total',
        dict_get category_totals' category = Some total' /\
        dec_eq total' total = true.
Proof.
  apply (aggregator_order_of_symbols
           [("VTI", mkDec 10050 (-2)); ("VXUS", of_Z 7)]%string
           [("Stocks", ["VTI"; "VXUS"])]%string
           [("Stocks", ["VXUS"; "VTI"])]%string (-2)%Z);
    vm_compute; reflexivity.
Defined.

Lemma balance_of_nonneg (symbol_balances : dict Decimal) (symbol : string) :
  Forall nonneg (values symbol_balances) ->
  nonneg (dict_get_default symbol_balances symbol (of_Z 0)).
Proof.
  intros Hb. unfold dict_get_default.
  destruct (dict_get symbol_balances symbol) as [v|] eqn:E.
  - rewrite Forall_forall in Hb. apply Hb. eapply dict_get_value; eassumption.
  - unfold nonneg. rewrite D2Q_of_Z_0. apply Qle_refl.
Qed.

Lemma sum_symbols_nonneg (symbol_balances : dict Decimal) (symbols : list string)
  (start : Decimal) :
  Forall nonneg (values symbol_balances) -> nonneg start ->
  nonneg (sum_symbols symbol_balances symbols start).
Proof.
  intros Hb. revert start; induction symbols as [|s symbols IH]; intros start Hs;
    cbn [sum_symbols fold_left]; [exact Hs|].
  apply IH. apply dec_add_nonneg; [exact Hs|]. apply balance_of_nonneg, Hb.
Qed.

Lemma category_totals_nonneg (symbol_balances : dict Decimal)
  (categories : dict (list string)) :
  Forall nonneg (values symbol_balances) ->
  Forall nonneg (values (map (category_total symbol_balances) categories)).
Proof.
  intros Hb. unfold values. rewrite map_map. apply Forall_forall. intros v Hin.
  apply in_map_iff in Hin. destruct Hin as (kv & <- & _).
  apply sum_symbols_nonneg; [exact Hb|].
  unfold nonneg. rewrite D2Q_of_Z_0. apply Qle_refl.
Qed.

Lemma Forall_and_inv {A : Type} (P R : A -> Prop) (l : list A) :
  Forall P l -> Forall R l -> Forall (fun x => P x /\ R x) l.
Proof.
  intros HP HR. rewrite Forall_forall in *. intros x Hin. split; auto.
Qed.

(** [X6] The totals the aggregator returns are decimals of the context, 28
    digits at most; when no balance is negative, no total is negative and
    none exceeds the total balance that [main] computes from them. *)
Theorem aggregator_totals_bounded
  (symbol_balances : dict Decimal) (categories : dict (list string))
  (category_totals : dict Decimal) :
  is_dict categories = true ->
  get_category_totals symbol_balances categories = Ok category_totals ->
  forallb in_context (values category_totals) = true /\
  (forallb (dec_le (of_Z 0)) (values symbol_balances) = true ->
   forallb (fun total =>
              dec_le (of_Z 0) total
              && dec_le total (total_balance_of category_totals))
           (values category_totals) = true).
Proof.
  intros Hd Ht. rewrite (get_category_totals_closed _ _ Hd) in Ht.
  injection Ht as <-.
  pose proof (category_totals_in_context symbol_balances categories) as Hc.
  split.
  - apply forallb_forall. rewrite Forall_forall in Hc. exact Hc.
  - intros Hb.
    assert (Hb' : Forall nonneg (values symbol_balances)).
    { apply Forall_dec_le_0, Forall_forall. rewrite forallb_forall in Hb. exact Hb. }
    pose proof (category_totals_nonneg symbol_balances categories Hb') as Hn.
    pose proof (py_sum_ge _ (Forall_and_inv _ _ _ Hn Hc)) as Hge.
    apply forallb_forall. intros total Hin.
    rewrite Forall_forall in Hn, Hge.
    apply andb_true_iff. split.
    + apply dec_le_0_nonneg, Hn, Hin.
    + apply dec_le_iff. unfold total_balance_of. apply Hge, Hin.
Qed.

Lemma aggregator_totals_bounded_witness :
  forallb in_context
          (values [("Stocks", of_Z 107); ("Bonds", of_Z 0)]%string) = true /\
  (forallb (dec_le (of_Z 0)) (values [("VTI", of_Z 100); ("VXUS", of_Z 7)]%string)
   = true ->
   forallb (fun total =>
              dec_le (of_Z 0) total
              && dec_le total
                   (total_balance_of [("Stocks", of_Z 107); ("Bonds", of_Z 0)]%string))
           (values [("Stocks", of_Z 107); ("Bonds", of_Z 0)]%string) = true).
Proof.
  apply (aggregator_totals_bounded
           [("VTI", of_Z 100); ("VXUS", of_Z 7)]%string
           [("Stocks", ["VTI"; "VXUS"]); ("Bonds", ["BND"])]%string
           [("Stocks", of_Z 107); ("Bonds", of_Z 0)]%string);
    vm_compute; reflexivity.
Defined.

(** * The desired balances *)

Lemma desired_values (investment_amount total_balance : Decimal)
  (target_allocation : dict Decimal) :
  values (get_desired_balances investment_amount total_balance target_allocation)
  = map (dec_mul (dec_add total_balance investment_amount)) (values target_allocation).
Proof.
  unfold get_desired_balances, values. rewrite !map_map. reflexivity.
Qed.

Lemma Qsum_dec_mul (n : Decimal) (l : list Decimal) :
  nonneg n -> Forall nonneg l ->
  (D2Q n * Qsum l * (1 - eps) <= Qsum (map (dec_mul n) l)
   <= D2Q n * Qsum l * (1 + eps))%Q.
Proof.
  intros Hn Hl. induction Hl as [|t l Ht _ IH]; cbn [map Qsum].
  - split; lra.
  - unfold nonneg in *.
    assert (H0 : (0 <= D2Q n * D2Q t)%Q) by (apply Qmult_le_0_compat; assumption).
    pose proof (dec_mul_rel n t H0) as [H1 H2]. destruct IH as [I1 I2].
    split; lra.
Qed.

(** [X7] [get_desired_balances] keeps the keys of the targets in their order
    and, for nonnegative balance, investment and targets, gives nonnegative
    desired balances whose exact sum is the new total balance times the sum
    of the targets, up to one rounding; the new total balance is the balance
    plus the investment, up to one rounding. *)
Theorem desired_balances_share
  (investment_amount total_balance : Decimal) (target_allocation : dict Decimal) :
  dec_le (of_Z 0) total_balance = true ->
  dec_le (of_Z 0) investment_amount = true ->
  forallb (dec_le (of_Z 0)) (values target_allocation) = true ->
  let desired_balances :=
    get_desired_balances investment_amount total_balance target_allocation in
  let new_total_balance := dec_add total_balance investment_amount in
  keys desired_balances = keys target_allocation /\
  forallb (dec_le (of_Z 0)) (values desired_balances) = true /\
  ((D2Q total_balance + D2Q investment_amount) * (1 - eps)
   <= D2Q new_total_balance
   <= (D2Q total_balance + D2Q investment_amount) * (1 + eps))%Q /\
  (D2Q new_total_balance * Qsum (values target_allocation) * (1 - eps)
   <= Qsum (values desired_balances)
   <= D2Q new_total_balance * Qsum (values target_allocation) * (1 + eps))%Q.
Proof.
  intros Ht Hi Hts desired_balances new_total_balance.
  apply dec_le_0_nonneg in Ht, Hi.
  assert (Hts' : Forall nonneg (values target_allocation)).
  { apply Forall_dec_le_0, Forall_forall. rewrite forallb_forall in Hts. exact Hts. }
  assert (Hn : nonneg new_total_balance) by (apply dec_add_nonneg; assumption).
  split; [unfold desired_balances, get_desired_balances, keys; rewrite map_map;
          reflexivity|].
  unfold desired_balances. rewrite desired_values. fold new_total_balance.
  split; [|split].
  - apply forallb_forall. intros v Hin. apply in_map_iff in Hin.
    destruct Hin as (t & <- & Hin). apply dec_le_0_nonneg.
    rewrite Forall_forall in Hts'. apply dec_mul_nonneg; [exact Hn|apply Hts', Hin].
  - apply dec_add_rel. unfold nonneg in *. lra.
  - apply Qsum_dec_mul; assumption.
Qed.

Lemma desired_balances_share_witness :
  let desired_balances :=
    get_desired_balances (of_Z 100) (of_Z 900)
      [("Stocks", mkDec 6 (-1)); ("Bonds", mkDec 4 (-1))]%string in
  let new_total_balance := dec_add (of_Z 900) (of_Z 100) in
  keys desired_balances = ["Stocks"; "Bonds"]%string /\
  forallb (dec_le (of_Z 0)) (values desired_balances) = true /\
  ((D2Q (of_Z 900) + D2Q (of_Z 100)) * (1 - eps)
   <= D2Q new_total_balance
   <= (D2Q (of_Z 900) + D2Q (of_Z 100)) * (1 + eps))%Q /\
  (D2Q new_total_balance * Qsum [mkDec 6 (-1); mkDec 4 (-1)] * (1 - eps)
   <= Qsum (values desired_balances)
   <= D2Q new_total_balance * Qsum [mkDec 6 (-1); mkDec 4 (-1)] * (1 + eps))%Q.
Proof.
  apply (desired_balances_share (of_Z 100) (of_Z 900)
           [("Stocks", mkDec 6 (-1)); ("Bonds", mkDec 4 (-1))]%string);
    reflexivity.
Defined.

(** * The Allocation Analyzer *)




(** * Further properties of the Investment Distributor *)

Lemma dict_comp_first_raise {V : Type} (g : string -> result V)
  (pre : list string) (k : string) (post : list string) (e : exn) :
  (forall k', In k' pre -> exists v, g k' = Ok v) -> g k = Raise e ->
  dict_comp g (pre ++ k :: post) = Raise e.
Proof.
  intros Hpre Hk. induction pre as [|k0 pre IH]; cbn [app]; rewrite dict_comp_cons.
  - rewrite Hk. reflexivity.
  - destruct (Hpre k0 (or_introl eq_refl)) as [v ->]. cbn [bind].
    rewrite IH; [reflexivity|]. intros k' Hin. apply Hpre. now right.
Qed.

Lemma current_allocations_ok (category_totals target_allocation : dict Decimal) :
  target_allocation = [] \/ dec_eq (total_balance_of category_totals) (of_Z 0) = false ->
  exists allocations,
    current_allocations category_totals target_allocation = Ok allocations.
Proof.
  intros H. apply raises_false. rewrite current_allocations_raises.
  destruct H as [->|H]; [reflexivity|]. destruct target_allocation; [reflexivity|exact H].
Qed.

(** [X9] A category without a target stops [main] with a [KeyError] that
    names it: the first such category, in the order of the configuration,
    and only once the analyzer is through, which needs a total balance that
    is not zero or an empty target mapping. *)
Theorem main_missing_target
  (symbol_balances : dict Decimal) (categories : dict (list string))
  (target_allocation : dict Decimal) (investment_amount : Decimal)
  (category_totals : dict Decimal)
  (before : list string) (category : string) (after : list string) :
  is_dict categories = true ->
  keys categories = before ++ category :: after ->
  forallb (has_key target_allocation) before = true ->
  has_key target_allocation category = false ->
  get_category_totals symbol_balances categories = Ok category_totals ->
  target_allocation = [] \/
  dec_eq (total_balance_of category_totals) (of_Z 0) = false ->
  main symbol_balances categories target_allocation investment_amount
  = Raise (KeyError category).
Proof.
  intros Hd Hk Hbefore Hc Ht Han. unfold main. rewrite Ht. cbn [bind].
  destruct (current_allocations_ok category_totals target_allocation Han) as [a ->].
  cbn [bind]. unfold distribute, distribute_totals, needed_investments_of.
  rewrite Hk. rewrite (dict_comp_first_raise _ before category after (KeyError category)).
  - reflexivity.
  - intros k Hin. rewrite forallb_forall in Hbefore. specialize (Hbefore k Hin).
    unfold has_key in Hbefore. unfold dict_getitem.
    rewrite get_desired_balances_get.
    destruct (dict_get target_allocation k) as [t|]; [|discriminate].
    cbn [option_map bind].
    rewrite (get_category_totals_closed _ _ Hd) in Ht. injection Ht as <-.
    assert (Hin' : In k (keys (map (category_total symbol_balances) categories))).
    { rewrite category_totals_keys, Hk. apply in_or_app. now left. }
    destruct (dict_get_in_keys _ _ Hin') as [total ->]. cbn [bind].
    eexists. reflexivity.
  - unfold has_key in Hc. unfold dict_getitem. rewrite get_desired_balances_get.
    destruct (dict_get target_allocation category); [discriminate|]. reflexivity.
Qed.

Lemma main_missing_target_witness :
  main [("VTI", of_Z 100)]%string
       [("Stocks", ["VTI"]); ("Bonds", ["BND"]); ("Gold", ["GLD"])]%string
       [("Stocks", of_Z 1)]%string (of_Z 50)
  = Raise (KeyError "Bonds"%string).
Proof.
  apply (main_missing_target
           [("VTI", of_Z 100)]%string
           [("Stocks", ["VTI"]); ("Bonds", ["BND"]); ("Gold", ["GLD"])]%string
           [("Stocks", of_Z 1)]%string (of_Z 50)
           [("Stocks", of_Z 100); ("Bonds", of_Z 0); ("Gold", of_Z 0)]%string
           ["Stocks"]%string "Bonds"%string ["Gold"]%string);
    try reflexivity.
  right. reflexivity.
Defined.

Lemma scaled_of_zero (investment_amount total_needed v : Decimal) :
  (0 < coef total_needed)%Z -> is_zero v ->
  is_zero (scaled investment_amount total_needed v).
Proof.
  intros HT Hv. unfold scaled, is_zero in *.
  assert (Hv0 : (0 <= coef v)%Z) by (apply D2Q_nonneg; lra).
  destruct (dec_div_rel v total_needed Hv0 HT) as (q & -> & _ & Hq & _ & H1 & H2).
  apply dec_mul_zero_r. rewrite Hv in H1, H2.
  assert (HY : (0 < D2Q total_needed)%Q) by (apply D2Q_pos; exact HT).
  destruct (Qlt_le_dec 0 (D2Q q)) as [Hp|Hn]; [exfalso; nra|lra].
Qed.

Lemma scale_loop_divides (investment_amount total_needed : Decimal)
  (k : string) (ks : list string) (d d' : dict Decimal) :
  In k (keys d) ->
  foldM (scale_category investment_amount total_needed) (k :: ks) d = Ok d' ->
  coef total_needed <> 0%Z.
Proof.
  intros Hin H Hz. cbn [foldM] in H.
  destruct (dict_get_in_keys _ _ Hin) as [v Hv].
  unfold scale_category at 1, dict_getitem in H. rewrite Hv in H. cbn [bind] in H.
  pose proof (dec_div_raises v total_needed) as Hr.
  apply Z.eqb_eq in Hz. rewrite Hz in Hr.
  destruct (dec_div v total_needed); [discriminate|]. discriminate.
Qed.

(** [X10] Whenever the distributor returns, for the totals of the aggregator
    and any investment amount, a category whose total has reached its
    desired balance gets nothing: its needed investment is zero before the
    capping and after it, and its resulting total equals its current
    total. *)
Theorem on_target_category_gets_nothing
  (symbol_balances : dict Decimal) (categories : dict (list string))
  (target_allocation : dict Decimal) (investment_amount : Decimal)
  (category_totals needed resulting : dict Decimal)
  (category : string) (target total : Decimal) :
  is_dict categories = true ->
  get_category_totals symbol_balances categories = Ok category_totals ->
  distribute_totals investment_amount category_totals target_allocation categories
  = Ok (needed, resulting) ->
  dict_get target_allocation category = Some target ->
  dict_get category_totals category = Some total ->
  dec_le (dec_mul (dec_add (total_balance_of category_totals) investment_amount)
                  target) total = true ->
  exists needed_before before after r,
    needed_investments_of
      (get_desired_balances investment_amount (total_balance_of category_totals)
                            target_allocation)
      category_totals categories = Ok needed_before /\
    cap_investments investment_amount needed_before = Ok needed /\
    dict_get needed_before category = Some before /\
    dec_eq before (of_Z 0) = true /\
    dict_get needed category = Some after /\ dec_eq after (of_Z 0) = true /\
    dict_get resulting category = Some r /\ dec_eq r total = true.
Proof.
  intros Hd Htot Hdist Ht Htotal Hle.
  pose proof (proj1 (nodupb_NoDup _) Hd) as Hnd.
  apply dec_le_iff in Hle.
  destruct (distribute_totals_Ok _ _ _ _ _ _ Hdist) as (needed0 & H0 & H1 & H2).
  rewrite (get_category_totals_closed _ _ Hd) in Htot. injection Htot as <-.
  set (category_totals := map (category_total symbol_balances) categories) in *.
  assert (Hc : In category (keys categories)).
  { rewrite <- (category_totals_keys symbol_balances).
    eapply dict_get_key; eassumption. }
  assert (Hctx : in_context total = true).
  { pose proof (category_totals_in_context symbol_balances categories) as Hall.
    rewrite Forall_forall in Hall. apply Hall.
    eapply dict_get_value; eassumption. }
  destruct (dict_comp_get_in _ _ _ _ H0 Hc) as (v0 & _ & Hv0).
  destruct (needed_get _ _ _ _ _ _ _ H0 Hv0) as (target' & total' & Ht' & Htotal' & Ev0).
  rewrite Ht in Ht'. injection Ht' as <-.
  fold category_totals in Htotal'. rewrite Htotal in Htotal'. injection Htotal' as <-.
  assert (Hz0 : is_zero v0).
  { unfold is_zero. rewrite Ev0.
    set (desired := dec_mul (dec_add (total_balance_of category_totals)
                                     investment_amount) target) in *.
    pose proof (dec_sub_pos_iff desired total) as Hpos.
    destruct (py_max_cases (dec_sub desired total) (of_Z 0)) as [[-> H]|[-> H]].
    - rewrite D2Q_of_Z_0 in H.
      destruct (Qlt_le_dec 0 (D2Q (dec_sub desired total))) as [Hp|Hn]; [|lra].
      apply Hpos in Hp. lra.
    - reflexivity. }
  pose proof (dict_comp_keys _ _ _ H0) as Hk0.
  assert (Hnd0 : NoDup (keys needed0)) by (rewrite Hk0; exact Hnd).
  pose proof (needed_nonneg _ _ _ _ _ H0) as Hn0.
  assert (Hn : exists n, dict_get needed category = Some n /\ is_zero n).
  { pose proof H1 as H1'. unfold cap_investments in H1'.
    destruct (dec_lt investment_amount (py_sum (values needed0))) eqn:Hlt.
    - assert (HT' : coef (py_sum (values needed0)) <> 0%Z).
      { destruct (keys needed0) as [|k ks] eqn:Ek.
        - rewrite <- Hk0 in Hc. destruct Hc.
        - apply (scale_loop_divides investment_amount _ k ks needed0 needed);
            [rewrite Ek; now left|exact H1']. }
      assert (HT : (0 < coef (py_sum (values needed0)))%Z).
      { pose proof (py_sum_nonneg _ Hn0) as Hs. apply D2Q_nonneg in Hs. lia. }
      pose proof (scale_loop_map investment_amount _ HT' [] needed0 Hnd0) as Hloop.
      cbn [app] in Hloop. rewrite Hloop in H1'. injection H1' as <-.
      exists (scaled investment_amount (py_sum (values needed0)) v0).
      rewrite dict_get_map_values, Hv0. split; [reflexivity|].
      apply scaled_of_zero; assumption.
    - injection H1' as <-. exists v0. split; assumption. }
  destruct Hn as (n & Hn & Hzn).
  destruct (dict_comp_get_in _ _ _ _ H2 Hc) as (r & Hr & Hgr).
  cbv beta in Hr. unfold dict_getitem in Hr. rewrite Htotal, Hn in Hr.
  cbn [bind] in Hr. injection Hr as <-.
  exists needed0, v0, n, (dec_add total n).
  split; [exact H0|]. split; [exact H1|]. split; [exact Hv0|].
  split; [apply dec_eq_0_zero; exact Hz0|]. split; [exact Hn|].
  split; [apply dec_eq_0_zero; exact Hzn|]. split; [exact Hgr|].
  apply dec_eq_iff. apply dec_add_0_r; assumption.
Qed.

Lemma on_target_category_gets_nothing_witness :
  exists needed_before before after r,
    needed_investments_of
      (get_desired_balances (of_Z 100)
         (total_balance_of [("Stocks", of_Z 900); ("Bonds", of_Z 100)]%string)
         [("Stocks", mkDec 5 (-1)); ("Bonds", mkDec 5 (-1))]%string)
      [("Stocks", of_Z 900); ("Bonds", of_Z 100)]%string
      [("Stocks", ["VTI"]); ("Bonds", ["BND"])]%string = Ok needed_before /\
    cap_investments (of_Z 100) needed_before
    = Ok [("Stocks", mkDec 0 1); ("Bonds", of_Z 100)]%string /\
    dict_get needed_before "Stocks"%string = Some before /\
    dec_eq before (of_Z 0) = true /\
    dict_get [("Stocks", mkDec 0 1); ("Bonds", of_Z 100)]%string "Stocks"%string
    = Some after /\ dec_eq after (of_Z 0) = true /\
    dict_get [("Stocks", of_Z 900); ("Bonds", of_Z 200)]%string "Stocks"%string
    = Some r /\ dec_eq r (of_Z 900) = true.
Proof.
  apply (on_target_category_gets_nothing
           [("VTI", of_Z 900); ("BND", of_Z 100)]%string
           [("Stocks", ["VTI"]); ("Bonds", ["BND"])]%string
           [("Stocks", mkDec 5 (-1)); ("Bonds", mkDec 5 (-1))]%string (of_Z 100)
           [("Stocks", of_Z 900); ("Bonds", of_Z 100)]%string
           [("Stocks", mkDec 0 1); ("Bonds", of_Z 100)]%string
           [("Stocks", of_Z 900); ("Bonds", of_Z 200)]%string
           "Stocks"%string (mkDec 5 (-1)) (of_Z 900));
    vm_compute; reflexivity.
Defined.

Lemma rounding_epsilon_nonneg (m : nat) : (0 <= rounding_epsilon m)%Q.
Proof.
  unfold rounding_epsilon. apply Qmult_le_0_compat; [apply Qnat_nonneg|].
  unfold eps. lra.
Qed.

(** [X11] The distributor hands out no more than the investment amount, up
    to the rounding of the capping: the needed investments, summed as
    [main] sums them, are at most the amount when the capping is not entered
    and at most the amount times one plus the rounding bound when it is. *)
Theorem never_distributes_more
  (investment_amount : Decimal) (category_totals target_allocation : dict Decimal)
  (categories : dict (list string)) (needed resulting : dict Decimal) :
  is_dict categories = true ->
  dec_le (of_Z 0) investment_amount = true ->
  (Z.of_nat (List.length categories) <= 10 ^ 12)%Z ->
  distribute_totals investment_amount category_totals target_allocation categories
  = Ok (needed, resulting) ->
  (0 <= D2Q (py_sum (values needed))
   <= D2Q investment_amount * (1 + rounding_epsilon (List.length categories)))%Q.
Proof.
  intros Hd Hinv Hm Hdist.
  pose proof (proj1 (nodupb_NoDup _) Hd) as Hnd.
  destruct (distribute_totals_Ok _ _ _ _ _ _ Hdist) as (needed0 & H0 & H1 & H2).
  pose proof (dict_comp_keys _ _ _ H0) as Hk0.
  pose proof (needed_nonneg _ _ _ _ _ H0) as Hn0.
  assert (Hnd0 : NoDup (keys needed0)) by (rewrite Hk0; exact Hnd).
  pose proof (rounding_epsilon_nonneg (List.length categories)) as Hre.
  set (m := List.length categories) in *.
  pose proof Hinv as Hinv'. apply dec_le_0_nonneg in Hinv.
  pose proof (cap_nonneg _ _ _ Hinv Hn0 H1) as Hn.
  pose proof (py_sum_nonneg _ Hn) as Hsum.
  split; [exact Hsum|].
  rewrite (cap_investments_closed _ _ Hinv Hnd0) in H1. injection H1 as H1.
  destruct (dec_lt investment_amount (py_sum (values needed0))) eqn:Hlt.
  - pose proof (cap_branch_divisor _ _ Hinv' Hlt) as HT.
    assert (Hvals : values needed
                    = map (scaled investment_amount (py_sum (values needed0)))
                          (values needed0)).
    { rewrite <- H1. unfold values. rewrite !map_map. reflexivity. }
    assert (Hlen : List.length (values needed0) = m).
    { unfold values, m. rewrite length_map, <- (keys_length needed0), Hk0.
      apply keys_length. }
    pose proof (capped_sum_bounds investment_amount (values needed0) Hinv Hn0 HT)
      as [Hb1 Hb2].
    rewrite <- Hvals, Hlen in Hb1, Hb2.
    apply (capped_sum_linear _ _ (qpow (1 - eps) m) (qpow (1 + eps) m) m);
      try reflexivity; assumption.
  - subst needed. apply dec_lt_false_iff in Hlt.
    assert (0 <= D2Q investment_amount * rounding_epsilon m)%Q
      by (apply Qmult_le_0_compat; assumption).
    lra.
Qed.

Lemma never_distributes_more_witness :
  (0 <= D2Q (py_sum (values [("Stocks", mkDec 0 1); ("Bonds", of_Z 100)]%string))
   <= D2Q (of_Z 100) * (1 + rounding_epsilon 2))%Q.
Proof.
  apply (never_distributes_more (of_Z 100)
           [("Stocks", of_Z 900); ("Bonds", of_Z 100)]%string
           [("Stocks", mkDec 5 (-1)); ("Bonds", mkDec 5 (-1))]%string
           [("Stocks", ["VTI"]); ("Bonds", ["BND"])]%string
           [("Stocks", mkDec 0 1); ("Bonds", of_Z 100)]%string
           [("Stocks", of_Z 900); ("Bonds", of_Z 200)]%string).
  - reflexivity.
  - reflexivity.
  - vm_compute. discriminate.
  - vm_compute. reflexivity.
Defined.

Lemma cap_keys (investment_amount : Decimal) (needed0 needed : dict Decimal) :
  nonneg investment_amount -> NoDup (keys needed0) ->
  cap_investments investment_amount needed0 = Ok needed ->
  keys needed = keys needed0.
Proof.
  intros Hinv Hnd. rewrite (cap_investments_closed _ _ Hinv Hnd).
  intros [= <-]. destruct (dec_lt investment_amount (py_sum (values needed0)));
    [|reflexivity].
  unfold keys. rewrite map_map. reflexivity.
Qed.

(** [X12] What a run of the distributor returns has one entry per category
    in each of its three mappings, in the order of the configuration, and,
    for nonnegative balances and investment, resulting allocations that are
    fractions between 0 and 1. *)
Theorem resulting_allocations_fractions
  (symbol_balances : dict Decimal) (categories : dict (list string))
  (target_allocation : dict Decimal) (investment_amount : Decimal)
  (category_totals : dict Decimal) (d : distribution) :
  is_dict categories = true ->
  dec_le (of_Z 0) investment_amount = true ->
  forallb (dec_le (of_Z 0)) (values symbol_balances) = true ->
  get_category_totals symbol_balances categories = Ok category_totals ->
  distribute investment_amount category_totals target_allocation categories = Ok d ->
  keys (needed_investments d) = keys categories /\
  keys (resulting_totals d) = keys categories /\
  keys (resulting_allocations d) = keys categories /\
  forallb in_unit_interval (values (resulting_allocations d)) = true.
Proof.
  intros Hd Hinv Hb Htot Hrun.
  pose proof (proj1 (nodupb_NoDup _) Hd) as Hnd.
  apply dec_le_0_nonneg in Hinv.
  unfold distribute in Hrun.
  apply bind_Ok in Hrun. destruct Hrun as ([needed resulting] & Hdist & Hrun).
  apply bind_Ok in Hrun. destruct Hrun as (allocations & Ha & Hrun).
  injection Hrun as <-. cbn [fst snd] in *.
  cbn [needed_investments resulting_totals resulting_allocations].
  destruct (distribute_totals_Ok _ _ _ _ _ _ Hdist) as (needed0 & H0 & H1 & H2).
  pose proof (dict_comp_keys _ _ _ H0) as Hk0.
  assert (Hnd0 : NoDup (keys needed0)) by (rewrite Hk0; exact Hnd).
  split; [rewrite (cap_keys _ _ _ Hinv Hnd0 H1); exact Hk0|].
  split; [exact (dict_comp_keys _ _ _ H2)|].
  split; [exact (dict_comp_keys _ _ _ Ha)|].
  rewrite (get_category_totals_closed _ _ Hd) in Htot. injection Htot as <-.
  assert (Hb' : Forall nonneg (values symbol_balances)).
  { apply Forall_dec_le_0, Forall_forall. rewrite forallb_forall in Hb. exact Hb. }
  pose proof (category_totals_nonneg symbol_balances categories Hb') as Htn.
  pose proof (needed_nonneg _ _ _ _ _ H0) as Hn0.
  pose proof (cap_nonneg _ _ _ Hinv Hn0 H1) as Hn.
  rewrite Forall_forall in Htn, Hn.
  assert (Hr : Forall (fun v => nonneg v /\ in_context v = true) (values resulting)).
  { eapply dict_comp_all; [exact H2|]. intros k v _ Hg.
    apply bind_Ok in Hg. destruct Hg as (total & Ht & Hg).
    apply bind_Ok in Hg. destruct Hg as (n & Hnc & Hg).
    apply dict_getitem_Ok in Ht, Hnc. injection Hg as <-.
    split; [|apply dec_add_in_context].
    apply dec_add_nonneg.
    - apply Htn. eapply dict_get_value; eassumption.
    - apply Hn. eapply dict_get_value; eassumption. }
  pose proof (py_sum_ge _ Hr) as Hge.
  assert (HT0 : nonneg (py_sum (values resulting))).
  { apply py_sum_nonneg. rewrite Forall_forall in *. intros v Hv. apply Hr, Hv. }
  rewrite Forall_forall in Hr, Hge.
  apply forallb_forall. apply Forall_forall.
  eapply dict_comp_all; [exact Ha|]. intros k v _ Hg.
  apply bind_Ok in Hg. destruct Hg as (total & Ht & Hg).
  apply dict_getitem_Ok in Ht. apply dict_get_value in Ht.
  assert (HT : (0 < coef (py_sum (values resulting)))%Z).
  { pose proof (dec_div_raises total (py_sum (values resulting))) as Hrz.
    rewrite Hg in Hrz. cbn [raises] in Hrz. symmetry in Hrz.
    apply Z.eqb_neq in Hrz. apply D2Q_nonneg in HT0. lia. }
  destruct (dec_div_unit total (py_sum (values resulting)))
    as (q & Hq & [Hq0 Hq1] & _);
    [apply D2Q_nonneg, Hr, Ht|exact HT|apply Hge, Ht|].
  rewrite Hq in Hg. injection Hg as <-.
  unfold in_unit_interval. apply andb_true_iff.
  split; apply dec_le_iff; [rewrite D2Q_of_Z_0|rewrite D2Q_of_Z_1]; assumption.
Qed.

Lemma resulting_allocations_fractions_witness :
  keys [("Stocks", mkDec 0 1); ("Bonds", of_Z 100)]%string
  = ["Stocks"; "Bonds"]%string /\
  keys [("Stocks", of_Z 900); ("Bonds", of_Z 200)]%string
  = ["Stocks"; "Bonds"]%string /\
  keys [("Stocks", mkDec 8181818181818181818181818182 (-28));
        ("Bonds", mkDec 1818181818181818181818181818 (-28))]%string
  = ["Stocks"; "Bonds"]%string /\
  forallb in_unit_interval
          [mkDec 8181818181818181818181818182 (-28);
           mkDec 1818181818181818181818181818 (-28)] = true.
Proof.
  apply (resulting_allocations_fractions
           [("VTI", of_Z 900); ("BND", of_Z 100)]%string
           [("Stocks", ["VTI"]); ("Bonds", ["BND"])]%string
           [("Stocks", mkDec 5 (-1)); ("Bonds", mkDec 5 (-1))]%string (of_Z 100)
           [("Stocks", of_Z 900); ("Bonds", of_Z 100)]%string
           (mkDistribution
              [("Stocks", mkDec 0 1); ("Bonds", of_Z 100)]%string
              [("Stocks", of_Z 900); ("Bonds", of_Z 200)]%string
              [("Stocks", mkDec 8181818181818181818181818182 (-28));
               ("Bonds", mkDec 1818181818181818181818181818 (-28))]%string));
    vm_compute; reflexivity.
Defined.

(** * The whole run *)




(** * A negative investment amount *)

Lemma D2Q_negative (d : Decimal) : (D2Q d < 0)%Q <-> (coef d < 0)%Z.
Proof.
  pose proof (D2Q_nonneg d) as H. split; intros Hn.
  - destruct (Z_lt_le_dec (coef d) 0) as [Hc|Hc]; [exact Hc|].
    apply H in Hc. lra.
  - destruct (Qlt_le_dec (D2Q d) 0) as [Hc|Hc]; [exact Hc|].
    apply H in Hc. lia.
Qed.

Lemma dec_mul_neg_pos (x y : Decimal) :
  (D2Q x < 0)%Q -> (0 < D2Q y)%Q -> (D2Q (dec_mul x y) < 0)%Q.
Proof.
  intros Hx Hy. apply D2Q_negative. unfold dec_mul.
  pose proof (dec_fix_sgn (mul_exact x y)) as Hs.
  assert (Hm : (coef (mul_exact x y) < 0)%Z).
  { apply D2Q_negative. rewrite mul_exact_value. nra. }
  rewrite (Z.sgn_neg _ Hm) in Hs. apply Z.sgn_neg_iff. exact Hs.
Qed.

Lemma dec_mul_neg_nonneg (x y : Decimal) :
  (D2Q x < 0)%Q -> (0 <= D2Q y)%Q -> (D2Q (dec_mul x y) <= 0)%Q.
Proof.
  intros Hx Hy. destruct (Qlt_le_dec 0 (D2Q y)) as [Hp|Hn].
  - apply Qlt_le_weak. apply dec_mul_neg_pos; assumption.
  - assert (Hz : (D2Q y == 0)%Q) by lra.
    rewrite (dec_mul_zero_r x y Hz). apply Qle_refl.
Qed.

Lemma positive_term (l : list Decimal) :
  Forall nonneg l -> ~ is_zero (py_sum l) -> exists v, In v l /\ (0 < D2Q v)%Q.
Proof.
  intros Hn Hnz.
  destruct (Forall_Exists_dec is_zero (fun v => Qeq_dec (D2Q v) 0) l) as [Hall|Hex].
  - exfalso. apply Hnz. apply py_sum_all_zero, Hall.
  - apply Exists_exists in Hex. destruct Hex as (v & Hin & Hv).
    exists v. split; [exact Hin|]. rewrite Forall_forall in Hn.
    specialize (Hn v Hin). unfold nonneg, is_zero in *.
    destruct (Qlt_le_dec 0 (D2Q v)) as [Hp|Hle]; [exact Hp|].
    exfalso. apply Hv. lra.
Qed.

Lemma scale_first_zero (investment_amount total_needed : Decimal)
  (k : string) (v : Decimal) (rest : dict Decimal) :
  coef total_needed = 0%Z -> coef v = 0%Z ->
  foldM (scale_category investment_amount total_needed)
        (keys ((k, v) :: rest)) ((k, v) :: rest)
  = Raise InvalidOperation.
Proof.
  intros HT Hv. cbn [keys map fst foldM].
  unfold scale_category at 1, dict_getitem. cbn [dict_get].
  rewrite String.eqb_refl. cbn [bind]. unfold dec_div.
  apply Z.eqb_eq in HT, Hv. rewrite HT, Hv. reflexivity.
Qed.

(** [X14] A negative investment amount always enters the capping, the needed
    investments being nonnegative.  With no category it changes nothing;
    with categories that need nothing it fails on [0 / 0]; otherwise it
    turns every needed investment into a withdrawal: no value is positive,
    and one at least is negative. *)
Theorem negative_investment_is_capped
  (investment_amount : Decimal) (needed_investments : dict Decimal) :
  dec_lt investment_amount (of_Z 0) = true ->
  is_dict needed_investments = true ->
  forallb (dec_le (of_Z 0)) (values needed_investments) = true ->
  match needed_investments with
  | [] => cap_investments investment_amount needed_investments = Ok []
  | _ :: _ =>
      if dec_eq (py_sum (values needed_investments)) (of_Z 0)
      then cap_investments investment_amount needed_investments
           = Raise InvalidOperation
      else exists capped,
          cap_investments investment_amount needed_investments = Ok capped /\
          keys capped = keys needed_investments /\
          forallb (fun v => dec_le v (of_Z 0)) (values capped) = true /\
          existsb (fun v => dec_lt v (of_Z 0)) (values capped) = true
  end.
Proof.
  intros Hinv Hd Hn0.
  apply nodupb_NoDup in Hd. apply dec_lt_iff in Hinv. rewrite D2Q_of_Z_0 in Hinv.
  assert (Hn : Forall nonneg (values needed_investments)).
  { apply Forall_dec_le_0, Forall_forall. rewrite forallb_forall in Hn0. exact Hn0. }
  pose proof (py_sum_nonneg _ Hn) as HT0.
  assert (Hlt : dec_lt investment_amount (py_sum (values needed_investments)) = true).
  { apply dec_lt_iff. unfold nonneg in HT0. lra. }
  unfold cap_investments. rewrite Hlt.
  destruct needed_investments as [|[k v] rest] eqn:En; [reflexivity|].
  rewrite <- En in *.
  destruct (dec_eq (py_sum (values needed_investments)) (of_Z 0)) eqn:Hz.
  - pose proof Hz as Hz'. apply dec_eq_0_zero in Hz'.
    rewrite dec_eq_0_coef in Hz.
    pose proof (py_sum_zero _ Hn Hz') as Hall.
    assert (Hv : (coef v =? 0)%Z = true).
    { apply Z.eqb_eq. apply D2Q_zero. rewrite Forall_forall in Hall. apply Hall.
      rewrite En. now left. }
    subst needed_investments. apply scale_first_zero; apply Z.eqb_eq; assumption.
  - rewrite dec_eq_0_coef in Hz. apply Z.eqb_neq in Hz.
    assert (HT : (0 < coef (py_sum (values needed_investments)))%Z).
    { apply D2Q_nonneg in HT0. lia. }
    pose proof (scale_loop_map investment_amount _ Hz [] needed_investments Hd) as Hloop.
    cbn [app] in Hloop. rewrite Hloop. eexists. split; [reflexivity|].
    split; [unfold keys; rewrite map_map; reflexivity|].
    set (T := py_sum (values needed_investments)) in *.
    assert (Hvals : values (map (fun kv => (fst kv,
                                            scaled investment_amount T (snd kv)))
                                needed_investments)
                    = map (scaled investment_amount T) (values needed_investments)).
    { unfold values. rewrite !map_map. reflexivity. }
    rewrite Hvals. split.
    + apply forallb_forall. intros w Hw. apply in_map_iff in Hw.
      destruct Hw as (n & <- & Hin). apply dec_le_iff. rewrite D2Q_of_Z_0.
      rewrite Forall_forall in Hn. specialize (Hn n Hin).
      unfold scaled.
      destruct (dec_div_rel n T) as (q & -> & _ & Hq & _);
        [apply D2Q_nonneg; exact Hn|exact HT|].
      apply dec_mul_neg_nonneg; assumption.
    + destruct (positive_term (values needed_investments) Hn) as (n & Hin & Hp).
      { intros Hzero. apply D2Q_zero in Hzero. fold T in Hzero. lia. }
      apply existsb_exists. exists (scaled investment_amount T n).
      split; [apply in_map; exact Hin|].
      apply dec_lt_iff. rewrite D2Q_of_Z_0. unfold scaled.
      destruct (dec_div_rel n T) as (q & -> & _ & _ & Hq & _);
        [apply D2Q_nonneg; lra|exact HT|].
      apply dec_mul_neg_pos; [exact Hinv|]. apply Hq. apply D2Q_pos. exact Hp.
Qed.

Lemma negative_investment_is_capped_witness :
  exists capped,
    cap_investments (of_Z (-100)) [("Stocks", of_Z 300); ("Bonds", of_Z 0)]%string
    = Ok capped /\
    keys capped = ["Stocks"; "Bonds"]%string /\
    forallb (fun v => dec_le v (of_Z 0)) (values capped) = true /\
    existsb (fun v => dec_lt v (of_Z 0)) (values capped) = true.
Proof.
  apply (negative_investment_is_capped (of_Z (-100))
           [("Stocks", of_Z 300); ("Bonds", of_Z 0)]%string);
    reflexivity.
Defined.

(** * The distribution and its inputs *)

Lemma same_entry_get (d d' : dict Decimal) (k : string) :
  same_entry d d' k = true -> dict_get d k = dict_get d' k.
Proof.
  unfold same_entry.
  destruct (dict_get d k) as [v|], (dict_get d' k) as [v'|];
    try discriminate; [|reflexivity].
  intros H. f_equal. apply dec_same_eq, H.
Qed.

Lemma dict_comp_ext_in {V : Type} (g g' : string -> result V) (ks : list string) :
  (forall k, In k ks -> g k = g' k) -> dict_comp g ks = dict_comp g' ks.
Proof.
  intros H. induction ks as [|k ks IH]; [reflexivity|].
  rewrite !dict_comp_cons, (H k (or_introl eq_refl)), IH; [reflexivity|].
  intros k' Hin. apply H. now right.
Qed.

(** [X15] The distributor reads the targets of the configured categories
    only: two target mappings that agree on every category give the same
    outcome, the same recommendation or the same exception. *)
Theorem distributor_reads_category_targets
  (investment_amount : Decimal)
  (category_totals target_allocation target_allocation' : dict Decimal)
  (categories : dict (list string)) :
  forallb (same_entry target_allocation target_allocation') (keys categories) = true ->
  distribute investment_amount category_totals target_allocation categories
  = distribute investment_amount category_totals target_allocation' categories.
Proof.
  intros Hsame. rewrite forallb_forall in Hsame.
  unfold distribute, distribute_totals, needed_investments_of.
  rewrite (dict_comp_ext_in _
             (fun category =>
                desired <- dict_getitem
                             (get_desired_balances investment_amount
                                (total_balance_of category_totals)
                                target_allocation') category ;;
                total <- dict_getitem category_totals category ;;
                Ok (py_max (dec_sub desired total) (of_Z 0)))
             (keys categories)); [reflexivity|].
  intros k Hin. unfold dict_getitem. rewrite !get_desired_balances_get.
  rewrite (same_entry_get _ _ _ (Hsame k Hin)). reflexivity.
Qed.

Lemma distributor_reads_category_targets_witness :
  distribute (of_Z 100) [("Stocks", of_Z 900)]%string
             [("Stocks", of_Z 1); ("Gold", of_Z 7)]%string
             [("Stocks", ["VTI"])]%string
  = distribute (of_Z 100) [("Stocks", of_Z 900)]%string
               [("Stocks", of_Z 1)]%string
               [("Stocks", ["VTI"])]%string.
Proof.
  apply (distributor_reads_category_targets (of_Z 100)
           [("Stocks", of_Z 900)]%string
           [("Stocks", of_Z 1); ("Gold", of_Z 7)]%string
           [("Stocks", of_Z 1)]%string
           [("Stocks", ["VTI"])]%string).
  reflexivity.
Defined.

(** [X16] With a positive investment amount the capping keeps the set of
    categories that receive money: it does not raise, keeps the keys, gives
    a positive amount to every category that needed one, and zero to every
    category that needed nothing. *)
Theorem capping_keeps_recipients
  (investment_amount : Decimal) (needed_investments : dict Decimal) :
  dec_lt (of_Z 0) investment_amount = true ->
  is_dict needed_investments = true ->
  forallb (dec_le (of_Z 0)) (values needed_investments) = true ->
  exists capped,
    cap_investments investment_amount needed_investments = Ok capped /\
    keys capped = keys needed_investments /\
    forall category needed,
      dict_get needed_investments category = Some needed ->
      exists amount,
        dict_get capped category = Some amount /\
        dec_le (of_Z 0) amount = true /\
        dec_lt (of_Z 0) amount = dec_lt (of_Z 0) needed.
Proof.
  intros Hinv Hd Hn0.
  apply nodupb_NoDup in Hd. apply dec_lt_iff in Hinv. rewrite D2Q_of_Z_0 in Hinv.
  assert (Hnn : nonneg investment_amount) by (unfold nonneg; lra).
  assert (Hn : Forall nonneg (values needed_investments)).
  { apply Forall_dec_le_0, Forall_forall. rewrite forallb_forall in Hn0. exact Hn0. }
  rewrite (cap_investments_closed _ _ Hnn Hd). eexists. split; [reflexivity|].
  destruct (dec_lt investment_amount (py_sum (values needed_investments))) eqn:Hlt.
  - assert (HT : (0 < coef (py_sum (values needed_investments)))%Z).
    { apply cap_branch_divisor with investment_amount; [|exact Hlt].
      apply dec_le_0_nonneg. exact Hnn. }
    split; [unfold keys; rewrite map_map; reflexivity|].
    intros category needed Hget. rewrite dict_get_map_values, Hget.
    eexists. split; [reflexivity|].
    rewrite Forall_forall in Hn.
    assert (Hneeded : nonneg needed) by (apply Hn; eapply dict_get_value; eassumption).
    split; [apply dec_le_0_nonneg, scaled_nonneg; assumption|].
    destruct (dec_lt (of_Z 0) needed) eqn:Hp.
    + apply dec_lt_iff. apply dec_lt_iff in Hp. rewrite D2Q_of_Z_0 in *.
      apply scaled_pos; assumption.
    + apply dec_lt_false_iff. apply dec_lt_false_iff in Hp. rewrite D2Q_of_Z_0 in *.
      assert (Hz : is_zero needed) by (unfold is_zero, nonneg in *; lra).
      pose proof (scaled_of_zero investment_amount _ needed HT Hz) as Hs.
      unfold is_zero in Hs. lra.
  - split; [reflexivity|]. intros category needed Hget.
    exists needed. split; [exact Hget|]. split; [|reflexivity].
    apply dec_le_0_nonneg. rewrite Forall_forall in Hn. apply Hn.
    eapply dict_get_value; eassumption.
Qed.

Lemma capping_keeps_recipients_witness :
  exists capped,
    cap_investments (of_Z 100) [("Stocks", of_Z 300); ("Bonds", of_Z 0)]%string
    = Ok capped /\
    keys capped = ["Stocks"; "Bonds"]%string /\
    forall category needed,
      dict_get [("Stocks", of_Z 300); ("Bonds", of_Z 0)]%string category
      = Some needed ->
      exists amount,
        dict_get capped category = Some amount /\
        dec_le (of_Z 0) amount = true /\
        dec_lt (of_Z 0) amount = dec_lt (of_Z 0) needed.
Proof.
  apply (capping_keeps_recipients (of_Z 100)
           [("Stocks", of_Z 300); ("Bonds", of_Z 0)]%string);
    reflexivity.
Defined.

Lemma values_lookup (d : dict Decimal) :
  NoDup (keys d) ->
  values d = map (fun k => dict_get_default d k (of_Z 0)) (keys d).
Proof.
  induction d as [|[k v] d IH]; intros Hnd; [reflexivity|].
  cbn [keys values map fst snd] in *. inversion Hnd as [|? ? Hk Hnd']; subst.
  unfold dict_get_default at 1. cbn [dict_get]. rewrite String.eqb_refl.
  f_equal. fold (values d). fold (keys d). rewrite (IH Hnd').
  apply map_ext_in. intros k' Hin. unfold dict_get_default. cbn [dict_get].
  destruct (String.eqb_spec k k') as [->|_]; [contradiction|reflexivity].
Qed.

Lemma Qsum_pointwise_add (f g h : string -> Decimal) (ks : list string) :
  (forall k, In k ks ->
     nonneg (f k) /\ nonneg (g k) /\ h k = dec_add (f k) (g k)) ->
  ((Qsum (map f ks) + Qsum (map g ks)) * (1 - eps) <= Qsum (map h ks)
   <= (Qsum (map f ks) + Qsum (map g ks)) * (1 + eps))%Q.
Proof.
  intros H. induction ks as [|k ks IH]; cbn [map Qsum]; [split; lra|].
  destruct (H k (or_introl eq_refl)) as (Hf & Hg & ->).
  destruct IH as [I1 I2]; [intros k' Hin; apply H; now right|].
  unfold nonneg in *.
  destruct (dec_add_rel (f k) (g k)) as [A1 A2]; [lra|].
  split; lra.
Qed.

(** [X17] The resulting totals add up, exactly summed, to the current totals
    plus the needed investments, up to the one rounding of each addition of
    lines 151-154. *)
Theorem resulting_totals_add_up
  (symbol_balances : dict Decimal) (categories : dict (list string))
  (target_allocation : dict Decimal) (investment_amount : Decimal)
  (category_totals needed resulting : dict Decimal) :
  is_dict categories = true ->
  dec_le (of_Z 0) investment_amount = true ->
  forallb (dec_le (of_Z 0)) (values symbol_balances) = true ->
  get_category_totals symbol_balances categories = Ok category_totals ->
  distribute_totals investment_amount category_totals target_allocation categories
  = Ok (needed, resulting) ->
  ((Qsum (values category_totals) + Qsum (values needed)) * (1 - eps)
   <= Qsum (values resulting)
   <= (Qsum (values category_totals) + Qsum (values needed)) * (1 + eps))%Q.
Proof.
  intros Hd Hinv Hb Htot Hdist.
  pose proof (proj1 (nodupb_NoDup _) Hd) as Hnd.
  apply dec_le_0_nonneg in Hinv.
  destruct (distribute_totals_Ok _ _ _ _ _ _ Hdist) as (needed0 & H0 & H1 & H2).
  rewrite (get_category_totals_closed _ _ Hd) in Htot. injection Htot as <-.
  set (category_totals := map (category_total symbol_balances) categories) in *.
  assert (Hb' : Forall nonneg (values symbol_balances)).
  { apply Forall_dec_le_0, Forall_forall. rewrite forallb_forall in Hb. exact Hb. }
  pose proof (category_totals_nonneg symbol_balances categories Hb') as Htn.
  fold category_totals in Htn.
  pose proof (needed_nonneg _ _ _ _ _ H0) as Hn0.
  pose proof (cap_nonneg _ _ _ Hinv Hn0 H1) as Hn.
  pose proof (dict_comp_keys _ _ _ H0) as Hk0.
  assert (Hnd0 : NoDup (keys needed0)) by (rewrite Hk0; exact Hnd).
  pose proof (cap_keys _ _ _ Hinv Hnd0 H1) as Hkn. rewrite Hk0 in Hkn.
  pose proof (dict_comp_keys _ _ _ H2) as Hkr.
  assert (Hkt : keys category_totals = keys categories)
    by apply category_totals_keys.
  rewrite (values_lookup category_totals), (values_lookup needed),
    (values_lookup resulting) by (rewrite ?Hkt, ?Hkn, ?Hkr; exact Hnd).
  rewrite Hkt, Hkn, Hkr. apply Qsum_pointwise_add.
  intros k Hin. rewrite Forall_forall in Htn, Hn.
  destruct (dict_comp_get_in _ _ _ _ H2 Hin) as (r & _ & Hr).
  destruct (resulting_get _ _ _ _ _ _ H2 Hr) as (total & n & Ht & Hnc & ->).
  unfold dict_get_default. rewrite Ht, Hnc, Hr.
  split; [apply Htn; eapply dict_get_value; eassumption|].
  split; [apply Hn; eapply dict_get_value; eassumption|reflexivity].
Qed.

Lemma resulting_totals_add_up_witness :
  ((Qsum (values [("Stocks", of_Z 900); ("Bonds", of_Z 100)]%string)
    + Qsum (values [("Stocks", mkDec 0 1); ("Bonds", of_Z 100)]%string)) * (1 - eps)
   <= Qsum (values [("Stocks", of_Z 900); ("Bonds", of_Z 200)]%string)
   <= (Qsum (values [("Stocks", of_Z 900); ("Bonds", of_Z 100)]%string)
       + Qsum (values [("Stocks", mkDec 0 1); ("Bonds", of_Z 100)]%string))
      * (1 + eps))%Q.
Proof.
  apply (resulting_totals_add_up
           [("VTI", of_Z 900); ("BND", of_Z 100)]%string
           [("Stocks", ["VTI"]); ("Bonds", ["BND"])]%string
           [("Stocks", mkDec 5 (-1)); ("Bonds", mkDec 5 (-1))]%string (of_Z 100)
           [("Stocks", of_Z 900); ("Bonds", of_Z 100)]%string
           [("Stocks", mkDec 0 1); ("Bonds", of_Z 100)]%string
           [("Stocks", of_Z 900); ("Bonds", of_Z 200)]%string);
    vm_compute; reflexivity.
Defined.



(** * The full arithmetic *)

Section FullArithmetic.

Lemma within_spec (lo hi : Z) (d : Decimal) :
  within lo hi d = true <-> lo <= expo d /\ top d <= hi.
Proof.
  unfold within. rewrite andb_true_iff, Z.leb_le, Z.leb_le. reflexivity.
Qed.

Lemma within_weaken (lo hi lo' hi' : Z) (d : Decimal) :
  lo' <= lo -> hi <= hi' -> within lo hi d = true -> within lo' hi' d = true.
Proof. rewrite !within_spec. lia. Qed.

Lemma top_gt_expo (d : Decimal) : expo d < top d.
Proof. unfold top. pose proof (ndigits_pos (Z.abs (coef d))). lia. Qed.

Lemma within_zero (lo hi e : Z) :
  lo <= e -> e + 1 <= hi -> within lo hi (mkDec 0 e) = true.
Proof.
  intros H1 H2. apply within_spec. unfold top. cbn [coef expo].
  change (ndigits (Z.abs 0)) with 1. lia.
Qed.

(** The size in terms of the coefficient. *)
Lemma top_le_iff (d : Decimal) (h : Z) :
  expo d < h -> (top d <= h <-> Z.abs (coef d) < 10 ^ (h - expo d)).
Proof.
  intros Hh. unfold top.
  rewrite <- (ndigits_le_iff (Z.abs (coef d)) (h - expo d)) by lia. lia.
Qed.

Lemma dec_neg_within (lo hi : Z) (d : Decimal) :
  within lo hi (dec_neg d) = within lo hi d.
Proof. unfold within, top, dec_neg. cbn [coef expo]. rewrite Z.abs_opp. reflexivity. Qed.

(** Within the exponent range of the context, [_fix] is the rounding to the
    precision. *)
Lemma ctx_fix_ok (d : Decimal) :
  Full.Etiny <= expo d -> top d <= Full.Emax ->
  Full.ctx_fix d = Ok (dec_fix d).
Proof.
  intros Hlo Hhi. unfold Full.ctx_fix, dec_fix, top in *.
  destruct d as [c e]. cbn [coef expo] in *.
  unfold Full.Etop, Full.Etiny, Full.Emax, Full.Emin, prec in *.
  destruct (Z.eqb_spec c 0) as [->|Hc].
  - change (ndigits (Z.abs 0)) with 1 in *. change (1 <=? 28) with true.
    cbv iota. f_equal. f_equal. lia.
  - cbv zeta. set (n := ndigits (Z.abs c)) in *.
    destruct (Z.ltb_spec (999999 - 28 + 1) (n + e - 28)) as [H|_]; [lia|].
    destruct (Z.leb_spec n 28) as [Hn|Hn].
    + destruct (Z.ltb_spec e (Z.max (n + e - 28) (-999999 - 28 + 1))) as [H|_];
        [lia|reflexivity].
    + replace (Z.max (n + e - 28) (-999999 - 28 + 1)) with (n + e - 28) by lia.
      destruct (Z.ltb_spec e (n + e - 28)) as [_|H]; [|lia].
      replace (n + e - 28 - e) with (n - 28) by lia.
      destruct (28 <? ndigits (round_half_even (Z.abs c) (n - 28))).
      * destruct (Z.ltb_spec (999999 - 28 + 1) (n + e - 28 + 1)) as [H|_]; [lia|].
        f_equal. f_equal. lia.
      * f_equal. f_equal. lia.
Qed.

Lemma ndigits_in_context (c : Z) : Z.abs c < 10 ^ prec -> ndigits (Z.abs c) <= prec.
Proof.
  intros H. apply ndigits_le_iff; [lia|unfold prec; lia|exact H].
Qed.

(** Rounding keeps the exponent from falling and raises the size by one
    digit at most. *)
Lemma dec_fix_within (lo hi : Z) (d : Decimal) :
  within lo hi d = true -> within lo (hi + 1) (dec_fix d) = true.
Proof.
  rewrite !within_spec. intros [Hlo Hhi].
  pose proof (dec_fix_in_context d) as Hctx. apply in_context_iff in Hctx.
  apply ndigits_in_context in Hctx.
  revert Hctx. unfold dec_fix, top in *.
  destruct (Z.leb_spec (ndigits (Z.abs (coef d))) prec) as [Hn|Hn]; [lia|].
  cbv zeta.
  destruct (prec <? ndigits (round_half_even (Z.abs (coef d))
                                              (ndigits (Z.abs (coef d)) - prec)));
    cbn [coef expo]; unfold prec in *; lia.
Qed.

Lemma pow10_le (a b : Z) : 0 <= a <= b -> 10 ^ a <= 10 ^ b.
Proof. intros H. apply Z.pow_le_mono_r; lia. Qed.

Lemma add_exact_within (lo hi : Z) (x y : Decimal) :
  within lo hi x = true -> within lo hi y = true ->
  within lo (hi + 1) (add_exact x y) = true.
Proof.
  rewrite !within_spec. intros [Hx1 Hx2] [Hy1 Hy2].
  pose proof (top_gt_expo x) as Tx. pose proof (top_gt_expo y) as Ty.
  unfold add_exact. set (e := Z.min (expo x) (expo y)).
  assert (He : e <= expo x /\ e <= expo y /\ lo <= e) by (unfold e; lia).
  clearbody e. destruct He as (He1 & He2 & He3).
  split; [cbn [expo]; lia|].
  assert (Hhx : expo x < hi) by lia. assert (Hhy : expo y < hi) by lia.
  apply top_le_iff; cbn [coef expo]; [lia|].
  apply (top_le_iff x hi) in Hx2; [|lia]. apply (top_le_iff y hi) in Hy2; [|lia].
  set (cx := coef x) in *. set (cy := coef y) in *.
  set (ex := expo x) in *. set (ey := expo y) in *.
  assert (Hpx : 0 < 10 ^ (ex - e)) by (apply pow10_pos; lia).
  assert (Hpy : 0 < 10 ^ (ey - e)) by (apply pow10_pos; lia).
  assert (Hx : Z.abs (cx * 10 ^ (ex - e)) < 10 ^ (hi - e)).
  { rewrite Z.abs_mul, (Z.abs_eq (10 ^ (ex - e))) by lia.
    replace (hi - e) with ((hi - ex) + (ex - e)) by lia.
    rewrite Z.pow_add_r by lia. apply Z.mul_lt_mono_pos_r; assumption. }
  assert (Hy : Z.abs (cy * 10 ^ (ey - e)) < 10 ^ (hi - e)).
  { rewrite Z.abs_mul, (Z.abs_eq (10 ^ (ey - e))) by lia.
    replace (hi - e) with ((hi - ey) + (ey - e)) by lia.
    rewrite Z.pow_add_r by lia. apply Z.mul_lt_mono_pos_r; assumption. }
  replace (hi + 1 - e) with (1 + (hi - e)) by lia.
  rewrite Z.pow_add_r by lia. change (10 ^ 1) with 10.
  pose proof (Z.abs_triangle (cx * 10 ^ (ex - e)) (cy * 10 ^ (ey - e))). lia.
Qed.

Lemma mul_exact_within (lo1 hi1 lo2 hi2 : Z) (x y : Decimal) :
  within lo1 hi1 x = true -> within lo2 hi2 y = true ->
  within (lo1 + lo2) (hi1 + hi2) (mul_exact x y) = true.
Proof.
  rewrite !within_spec. intros [Hx1 Hx2] [Hy1 Hy2].
  pose proof (top_gt_expo x) as Tx. pose proof (top_gt_expo y) as Ty.
  unfold mul_exact. split; [cbn [expo]; lia|].
  assert (Hhx : expo x < hi1) by lia. assert (Hhy : expo y < hi2) by lia.
  apply top_le_iff; cbn [coef expo]; [lia|].
  apply (top_le_iff x hi1) in Hx2; [|lia]. apply (top_le_iff y hi2) in Hy2; [|lia].
  rewrite Z.abs_mul.
  replace (hi1 + hi2 - (expo x + expo y)) with ((hi1 - expo x) + (hi2 - expo y)) by lia.
  rewrite Z.pow_add_r by lia.
  pose proof (Z.abs_nonneg (coef x)). pose proof (Z.abs_nonneg (coef y)).
  apply Z.mul_lt_mono_nonneg; lia.
Qed.

Lemma dec_div_quotient (x y : Decimal) :
  coef y <> 0 -> dec_div x y = Ok (dec_fix (Full.quotient x y)).
Proof.
  intros Hy. unfold dec_div, Full.quotient. apply Z.eqb_neq in Hy. rewrite Hy.
  destruct (coef x =? 0); reflexivity.
Qed.

Lemma ndigits_div10 (c : Z) : 10 <= c -> ndigits (c / 10) <= ndigits c - 1.
Proof.
  intros Hc. pose proof (ndigits_spec c ltac:(lia)) as [_ Hhi].
  assert (Hn : 2 <= ndigits c).
  { destruct (Z.le_gt_cases 2 (ndigits c)) as [H|H]; [exact H|].
    pose proof (ndigits_pos c). assert (E : ndigits c = 1) by lia.
    rewrite E in Hhi. change (10 ^ 1) with 10 in Hhi. lia. }
  apply ndigits_le_iff; [apply Z.div_pos; lia|lia|].
  apply Z.div_lt_upper_bound; [lia|].
  replace (ndigits c) with (1 + (ndigits c - 1)) in Hhi by lia.
  rewrite Z.pow_add_r in Hhi by lia. exact Hhi.
Qed.

Lemma strip_bounds (fuel : nat) (c e ideal : Z) :
  0 < c ->
  0 < fst (strip_to_ideal fuel c e ideal) /\
  e <= snd (strip_to_ideal fuel c e ideal) /\
  snd (strip_to_ideal fuel c e ideal) + ndigits (fst (strip_to_ideal fuel c e ideal))
  <= e + ndigits c.
Proof.
  revert c e; induction fuel as [|f IH]; intros c e Hc; cbn [strip_to_ideal].
  - cbn [fst snd]. lia.
  - destruct ((e <? ideal) && (c mod 10 =? 0)) eqn:E; [|cbn [fst snd]; lia].
    apply andb_true_iff in E. destruct E as [_ E]. apply Z.eqb_eq in E.
    pose proof (Z.div_mod c 10 ltac:(lia)) as Hdm. rewrite E, Z.add_0_r in Hdm.
    assert (H10 : 10 <= c) by lia.
    destruct (IH (c / 10) (e + 1) ltac:(lia)) as (I1 & I2 & I3).
    pose proof (ndigits_div10 c H10). lia.
Qed.

Lemma div_num_den_upper (a b : Z) :
  0 < a -> 0 < b ->
  let shift := ndigits b - ndigits a + prec + 1 in
  let num := if 0 <=? shift then a * 10 ^ shift else a in
  let den := if 0 <=? shift then b else b * 10 ^ (- shift) in
  num < 10 ^ 30 * den.
Proof.
  intros Ha Hb shift num den.
  pose proof (ndigits_spec a Ha) as [Halo Hahi].
  pose proof (ndigits_spec b Hb) as [Hblo Hbhi].
  pose proof (ndigits_pos a) as Hna. pose proof (ndigits_pos b) as Hnb.
  unfold num, den. destruct (Z.leb_spec 0 shift) as [Hs|Hs].
  - pose proof (pow10_pos shift Hs) as Hps.
    assert (H1 : 10 ^ ndigits a * 10 ^ shift = 10 ^ 30 * 10 ^ (ndigits b - 1)).
    { rewrite <- !Z.pow_add_r by lia. f_equal. unfold shift, prec. lia. }
    assert (a * 10 ^ shift < 10 ^ ndigits a * 10 ^ shift)
      by (apply Z.mul_lt_mono_pos_r; lia).
    assert (10 ^ 30 * 10 ^ (ndigits b - 1) <= 10 ^ 30 * b)
      by (apply Z.mul_le_mono_nonneg_l; lia).
    lia.
  - pose proof (pow10_pos (- shift) ltac:(lia)) as Hps.
    assert (H1 : 10 ^ ndigits a = 10 ^ 30 * (10 ^ (ndigits b - 1) * 10 ^ (- shift))).
    { rewrite <- !Z.pow_add_r by lia. f_equal. unfold shift, prec. lia. }
    assert (10 ^ (ndigits b - 1) * 10 ^ (- shift) <= b * 10 ^ (- shift))
      by (apply Z.mul_le_mono_nonneg_r; lia).
    assert (10 ^ 30 * (10 ^ (ndigits b - 1) * 10 ^ (- shift))
            <= 10 ^ 30 * (b * 10 ^ (- shift)))
      by (apply Z.mul_le_mono_nonneg_l; lia).
    lia.
Qed.

Lemma abs_signs (cx cy c : Z) :
  cx <> 0 -> cy <> 0 -> 0 < c -> Z.abs (Z.sgn cx * Z.sgn cy * c) = c.
Proof.
  intros Hx Hy Hc.
  destruct (Z.lt_trichotomy cx 0) as [H|[H|H]]; [|contradiction|];
    destruct (Z.lt_trichotomy cy 0) as [H'|[H'|H']]; try contradiction;
    rewrite ?(Z.sgn_neg _ H), ?(Z.sgn_pos _ H), ?(Z.sgn_neg _ H'), ?(Z.sgn_pos _ H');
    lia.
Qed.

(** The exponent and the size of a quotient before it is rounded. *)
Lemma quotient_within (lo1 hi1 lo2 hi2 : Z) (x y : Decimal) :
  coef y <> 0 -> within lo1 hi1 x = true -> within lo2 hi2 y = true ->
  within (lo1 - hi2 - 28) (hi1 - lo2 + 1) (Full.quotient x y) = true.
Proof.
  intros Hy Hx Hwy. apply within_spec in Hx, Hwy.
  destruct Hx as [Hx1 Hx2]. destruct Hwy as [Hy1 Hy2].
  pose proof (top_gt_expo x) as Tx. pose proof (top_gt_expo y) as Ty.
  unfold Full.quotient. destruct (Z.eqb_spec (coef x) 0) as [Hx0|Hx0].
  - apply within_zero; lia.
  - cbv zeta.
    assert (Ha : 0 < Z.abs (coef x)) by lia. assert (Hb : 0 < Z.abs (coef y)) by lia.
    pose proof (div_num_den _ _ Ha Hb) as Hnd.
    pose proof (div_num_den_upper _ _ Ha Hb) as Hup.
    cbv zeta in Hnd, Hup. unfold top in *.
    set (na := ndigits (Z.abs (coef x))) in *.
    set (nb := ndigits (Z.abs (coef y))) in *.
    set (shift := nb - na + prec + 1) in *.
    set (num := if 0 <=? shift then Z.abs (coef x) * 10 ^ shift else Z.abs (coef x)) in *.
    set (den := if 0 <=? shift then Z.abs (coef y)
                else Z.abs (coef y) * 10 ^ (- shift)) in *.
    clearbody num den. destruct Hnd as [Hden Hnum].
    set (e := expo x - expo y - shift).
    assert (He : e = expo x + na - (expo y + nb) - 29) by (unfold e, shift, prec; lia).
    assert (Hq1 : 10 ^ 28 <= num / den)
      by (apply Z.div_le_lower_bound; [lia|]; lia).
    assert (Hq2 : num / den < 10 ^ 30)
      by (apply Z.div_lt_upper_bound; [lia|]; lia).
    set (q := num / den) in *. clearbody q.
    assert (Hce : forall ce : Z * Z,
              0 < fst ce -> e <= snd ce -> snd ce + ndigits (fst ce) <= e + 31 ->
              within (lo1 - hi2 - 28) (hi1 - lo2 + 1)
                     (mkDec (Z.sgn (coef x) * Z.sgn (coef y) * fst ce) (snd ce)) = true).
    { intros [c e'] H1 H2 H3. cbn [fst snd] in *. apply within_spec.
      unfold top. cbn [coef expo]. rewrite (abs_signs _ _ _ Hx0 Hy H1).
      clearbody e shift na nb. lia. }
    apply Hce; destruct (num mod den =? 0).
    + apply strip_bounds. lia.
    + cbn [fst]. destruct (q mod 5 =? 0); lia.
    + apply strip_bounds. lia.
    + cbn [snd]. lia.
    + pose proof (strip_bounds (Z.to_nat (expo x - expo y - e)) q e (expo x - expo y)
                    ltac:(lia)) as (_ & _ & H3).
      assert (ndigits q <= 30) by (apply ndigits_le_iff; lia). lia.
    + cbn [fst snd].
      assert (ndigits (if q mod 5 =? 0 then q + 1 else q) <= 31).
      { apply ndigits_le_iff; [destruct (q mod 5 =? 0); lia|lia|].
        destruct (q mod 5 =? 0); lia. }
      lia.
Qed.

(** Within the range of the context the operations of [Full] on finite
    numbers are those of [Dec]. *)
Lemma add_ok (lo hi : Z) (x y : Decimal) :
  within lo hi x = true -> within lo hi y = true ->
  Full.Etiny <= lo -> hi + 1 <= Full.Emax ->
  Full.add (Full.Finite x) (Full.Finite y) = Ok (Full.Finite (dec_add x y)) /\
  within lo (hi + 2) (dec_add x y) = true.
Proof.
  intros Hx Hy Hlo Hhi.
  pose proof (add_exact_within lo hi x y Hx Hy) as Hw.
  pose proof Hw as Hw'. apply within_spec in Hw'. destruct Hw' as [H1 H2].
  split.
  - cbn [Full.add]. rewrite ctx_fix_ok by lia. reflexivity.
  - unfold dec_add. replace (hi + 2) with (hi + 1 + 1) by lia.
    apply dec_fix_within, Hw.
Qed.

Lemma sub_ok (lo hi : Z) (x y : Decimal) :
  within lo hi x = true -> within lo hi y = true ->
  Full.Etiny <= lo -> hi + 1 <= Full.Emax ->
  Full.sub (Full.Finite x) (Full.Finite y) = Ok (Full.Finite (dec_sub x y)) /\
  within lo (hi + 2) (dec_sub x y) = true.
Proof.
  intros Hx Hy Hlo Hhi. unfold Full.sub, dec_sub. cbn [Full.neg].
  apply add_ok; try assumption. rewrite dec_neg_within. exact Hy.
Qed.

Lemma mul_ok (lo1 hi1 lo2 hi2 : Z) (x y : Decimal) :
  within lo1 hi1 x = true -> within lo2 hi2 y = true ->
  Full.Etiny <= lo1 + lo2 -> hi1 + hi2 <= Full.Emax ->
  Full.mul (Full.Finite x) (Full.Finite y) = Ok (Full.Finite (dec_mul x y)) /\
  within (lo1 + lo2) (hi1 + hi2 + 1) (dec_mul x y) = true.
Proof.
  intros Hx Hy Hlo Hhi.
  pose proof (mul_exact_within _ _ _ _ x y Hx Hy) as Hw.
  pose proof Hw as Hw'. apply within_spec in Hw'. destruct Hw' as [H1 H2].
  split.
  - cbn [Full.mul]. rewrite ctx_fix_ok by lia. reflexivity.
  - unfold dec_mul. apply dec_fix_within, Hw.
Qed.

Lemma div_ok (lo1 hi1 lo2 hi2 : Z) (x y : Decimal) :
  within lo1 hi1 x = true -> within lo2 hi2 y = true ->
  Full.Etiny <= lo1 - hi2 - 28 -> hi1 - lo2 + 1 <= Full.Emax ->
  Full.div (Full.Finite x) (Full.Finite y) = lift_outcome Full.Finite (dec_div x y) /\
  forall q, dec_div x y = Ok q -> within (lo1 - hi2 - 28) (hi1 - lo2 + 2) q = true.
Proof.
  intros Hx Hy Hlo Hhi. cbn [Full.div].
  destruct (Z.eqb_spec (coef y) 0) as [Hy0|Hy0].
  - unfold dec_div. apply Z.eqb_eq in Hy0. rewrite Hy0.
    destruct (coef x =? 0); (split; [reflexivity|discriminate]).
  - pose proof (quotient_within _ _ _ _ x y Hy0 Hx Hy) as Hw.
    pose proof Hw as Hw'. apply within_spec in Hw'. destruct Hw' as [H1 H2].
    rewrite (dec_div_quotient x y Hy0). split.
    + rewrite ctx_fix_ok by lia. reflexivity.
    + intros q [= <-]. replace (hi1 - lo2 + 2) with (hi1 - lo2 + 1 + 1) by lia.
      apply dec_fix_within, Hw.
Qed.

Lemma py_max_ok (x y : Decimal) :
  Full.py_max (Full.Finite x) (Full.Finite y) = Ok (Full.Finite (py_max x y)).
Proof.
  unfold Full.py_max, Full.gt, py_max. cbn [Full.lt bind].
  destruct (dec_lt x y); reflexivity.
Qed.

Lemma py_max_within (lo hi : Z) (x y : Decimal) :
  within lo hi x = true -> within lo hi y = true -> within lo hi (py_max x y) = true.
Proof. intros Hx Hy. unfold py_max. destruct (dec_lt x y); assumption. Qed.
End FullArithmetic.

(** * Finite numbers of moderate size in the full arithmetic *)

Section Lifting.

Lemma keys_lift (d : dict Decimal) : keys (lift d) = keys d.
Proof. unfold lift, keys. rewrite map_map. reflexivity. Qed.

Lemma values_lift (d : dict Decimal) : values (lift d) = map Full.Finite (values d).
Proof. unfold lift, values. rewrite !map_map. reflexivity. Qed.

Lemma dict_get_lift (d : dict Decimal) (k : string) :
  dict_get (lift d) k = option_map Full.Finite (dict_get d k).
Proof.
  induction d as [|[k0 v0] d IH]; cbn [lift map dict_get fst snd]; [reflexivity|].
  destruct (String.eqb k0 k); [reflexivity|exact IH].
Qed.

Lemma dict_getitem_lift (d : dict Decimal) (k : string) :
  dict_getitem (lift d) k = lift_outcome Full.Finite (dict_getitem d k).
Proof.
  unfold dict_getitem. rewrite dict_get_lift.
  destruct (dict_get d k); reflexivity.
Qed.

Lemma dict_get_default_lift (d : dict Decimal) (k : string) :
  dict_get_default (lift d) k Full.zero
  = Full.Finite (dict_get_default d k (of_Z 0)).
Proof.
  unfold dict_get_default. rewrite dict_get_lift.
  destruct (dict_get d k); reflexivity.
Qed.

Lemma dict_set_lift (d : dict Decimal) (k : string) (v : Decimal) :
  dict_set (lift d) k (Full.Finite v) = lift (dict_set d k v).
Proof.
  induction d as [|[k0 v0] d IH]; cbn [lift map dict_set fst snd]; [reflexivity|].
  destruct (String.eqb k0 k); cbn [map fst snd]; [reflexivity|].
  f_equal. exact IH.
Qed.

Lemma dict_get_default_within (lo hi : Z) (d : dict Decimal) (k : string) :
  lo <= 0 -> 1 <= hi -> Forall (fun v => within lo hi v = true) (values d) ->
  within lo hi (dict_get_default d k (of_Z 0)) = true.
Proof.
  intros Hlo Hhi Hd. unfold dict_get_default.
  destruct (dict_get d k) as [v|] eqn:E.
  - rewrite Forall_forall in Hd. apply Hd. eapply dict_get_value; eassumption.
  - apply within_zero; lia.
Qed.

Lemma Forall_within_weaken (lo hi lo' hi' : Z) (l : list Decimal) :
  lo' <= lo -> hi <= hi' ->
  Forall (fun v => within lo hi v = true) l ->
  Forall (fun v => within lo' hi' v = true) l.
Proof.
  intros H1 H2 Hl. rewrite Forall_forall in *. intros v Hin.
  apply (within_weaken lo hi); auto.
Qed.

(** A comprehension over finite numbers. *)
Lemma dict_comp_lift (g : string -> result Decimal)
  (G : string -> result Full.number) (ks : list string) :
  (forall k, In k ks -> G k = lift_outcome Full.Finite (g k)) ->
  dict_comp G ks = lift_outcome lift (dict_comp g ks).
Proof.
  intros H. induction ks as [|k ks IH]; [reflexivity|].
  rewrite !dict_comp_cons, (H k (or_introl eq_refl)).
  destruct (g k) as [v|e]; cbn [lift_outcome bind]; [|reflexivity].
  rewrite IH by (intros k' Hin; apply H; now right).
  destruct (dict_comp g ks); reflexivity.
Qed.

(** [sum(values)] *)
Lemma fold_add_ok (lo : Z) (l : list Decimal) :
  forall (hi : Z) (acc : Decimal),
  Forall (fun v => within lo hi v = true) l -> within lo hi acc = true ->
  Full.Etiny <= lo -> hi + 2 * Z.of_nat (List.length l) <= Full.Emax ->
  foldM Full.add (map Full.Finite l) (Full.Finite acc)
  = Ok (Full.Finite (fold_left dec_add l acc)) /\
  within lo (hi + 2 * Z.of_nat (List.length l)) (fold_left dec_add l acc) = true.
Proof.
  induction l as [|d l IH]; intros hi acc Hl Hacc Hlo Hhi.
  - cbn [map foldM fold_left List.length]. split; [reflexivity|].
    apply (within_weaken lo hi); [lia|lia|exact Hacc].
  - cbn [map foldM fold_left]. inversion Hl as [|? ? Hd Hl']; subst.
    rewrite length_cons, Nat2Z.inj_succ in *.
    destruct (add_ok lo hi acc d Hacc Hd Hlo ltac:(lia)) as [E W].
    rewrite E. cbn [bind].
    destruct (IH (hi + 2) (dec_add acc d)) as [E' W']; try assumption; try lia.
    { apply (Forall_within_weaken lo hi); [lia|lia|exact Hl']. }
    rewrite E'. split; [reflexivity|].
    apply (within_weaken lo (hi + 2 + 2 * Z.of_nat (List.length l))); [lia|lia|exact W'].
Qed.

Lemma py_sum_ok (lo hi : Z) (l : list Decimal) :
  Forall (fun v => within lo hi v = true) l ->
  lo <= 0 -> 1 <= hi -> Full.Etiny <= lo ->
  hi + 2 * Z.of_nat (List.length l) <= Full.Emax ->
  Full.py_sum (map Full.Finite l) = Ok (Full.Finite (py_sum l)) /\
  within lo (hi + 2 * Z.of_nat (List.length l)) (py_sum l) = true.
Proof.
  intros Hl H0 H1 Hlo Hhi. apply fold_add_ok; try assumption.
  apply within_zero; lia.
Qed.

(** The aggregator. *)
Lemma add_symbol_lift (lo hi : Z) (symbol_balances : dict Decimal)
  (category : string) (totals : dict Decimal) (symbol : string) :
  Forall (fun v => within lo hi v = true) (values symbol_balances) ->
  Forall (fun v => within lo hi v = true) (values totals) ->
  lo <= 0 -> 1 <= hi -> Full.Etiny <= lo -> hi + 1 <= Full.Emax ->
  Full.add_symbol (lift symbol_balances) category (lift totals) symbol
  = lift_outcome lift (add_symbol symbol_balances category totals symbol) /\
  forall totals',
    add_symbol symbol_balances category totals symbol = Ok totals' ->
    Forall (fun v => within lo (hi + 2) v = true) (values totals').
Proof.
  intros Hb Ht H0 H1 Hlo Hhi. unfold Full.add_symbol, add_symbol.
  rewrite dict_getitem_lift, dict_get_default_lift. unfold dict_getitem.
  destruct (dict_get totals category) as [total|] eqn:E; cbn [lift_outcome bind].
  - assert (Wt : within lo hi total = true).
    { rewrite Forall_forall in Ht. apply Ht. eapply dict_get_value; eassumption. }
    pose proof (dict_get_default_within lo hi symbol_balances symbol H0 H1 Hb) as Wb.
    destruct (add_ok lo hi _ _ Wt Wb Hlo Hhi) as [Ea Wa].
    rewrite Ea. cbn [bind lift_outcome]. rewrite dict_set_lift.
    split; [reflexivity|]. intros totals' [= <-].
    apply dict_set_values; [exact Wa|].
    apply (Forall_within_weaken lo hi); [lia|lia|exact Ht].
  - split; [reflexivity|discriminate].
Qed.

Lemma inner_loop_lift (lo : Z) (symbol_balances : dict Decimal) (category : string)
  (symbols : list string) :
  forall (hi : Z) (totals : dict Decimal),
  Forall (fun v => within lo hi v = true) (values symbol_balances) ->
  Forall (fun v => within lo hi v = true) (values totals) ->
  lo <= 0 -> 1 <= hi -> Full.Etiny <= lo ->
  hi + 2 * Z.of_nat (List.length symbols) <= Full.Emax ->
  foldM (Full.add_symbol (lift symbol_balances) category) symbols (lift totals)
  = lift_outcome lift (foldM (add_symbol symbol_balances category) symbols totals) /\
  forall totals',
    foldM (add_symbol symbol_balances category) symbols totals = Ok totals' ->
    Forall (fun v => within lo (hi + 2 * Z.of_nat (List.length symbols)) v = true)
           (values totals').
Proof.
  induction symbols as [|s symbols IH]; intros hi totals Hb Ht H0 H1 Hlo Hhi.
  - cbn [foldM List.length]. split; [reflexivity|]. intros totals' [= <-].
    apply (Forall_within_weaken lo hi); [lia|lia|exact Ht].
  - cbn [foldM]. rewrite length_cons, Nat2Z.inj_succ in *.
    destruct (add_symbol_lift lo hi symbol_balances category totals s Hb Ht H0 H1 Hlo
                ltac:(lia)) as [E W].
    rewrite E.
    destruct (add_symbol symbol_balances category totals s) as [t1|e];
      cbn [lift_outcome bind]; [|split; [reflexivity|discriminate]].
    destruct (IH (hi + 2) t1) as [E' W']; try lia.
    { apply (Forall_within_weaken lo hi); [lia|lia|exact Hb]. }
    { apply W. reflexivity. }
    rewrite E'. split; [reflexivity|]. intros totals' Ht'.
    apply (Forall_within_weaken lo (hi + 2 + 2 * Z.of_nat (List.length symbols)));
      [lia|lia|]. apply W', Ht'.
Qed.

Lemma outer_loop_lift (lo : Z) (symbol_balances : dict Decimal)
  (categories : dict (list string)) :
  forall (hi : Z) (totals : dict Decimal),
  Forall (fun v => within lo hi v = true) (values symbol_balances) ->
  Forall (fun v => within lo hi v = true) (values totals) ->
  lo <= 0 -> 1 <= hi -> Full.Etiny <= lo ->
  hi + 2 * Z.of_nat (List.length (all_symbols categories)) <= Full.Emax ->
  foldM (fun totals kv =>
           foldM (Full.add_symbol (lift symbol_balances) (fst kv)) (snd kv) totals)
        categories (lift totals)
  = lift_outcome lift
      (foldM (fun totals kv =>
                foldM (add_symbol symbol_balances (fst kv)) (snd kv) totals)
             categories totals) /\
  forall totals',
    foldM (fun totals kv =>
             foldM (add_symbol symbol_balances (fst kv)) (snd kv) totals)
          categories totals = Ok totals' ->
    Forall (fun v => within lo (hi + 2 * Z.of_nat (List.length (all_symbols categories)))
                            v = true)
           (values totals').
Proof.
  induction categories as [|[c symbols] categories IH];
    intros hi totals Hb Ht H0 H1 Hlo Hhi.
  - cbn [foldM]. split; [reflexivity|]. intros totals' [= <-].
    apply (Forall_within_weaken lo hi); [lia| |exact Ht].
    unfold all_symbols. cbn. lia.
  - cbn [foldM fst snd].
    assert (Hlen : Z.of_nat (List.length (all_symbols ((c, symbols) :: categories)))
                   = Z.of_nat (List.length symbols)
                     + Z.of_nat (List.length (all_symbols categories))).
    { unfold all_symbols. cbn [values map snd List.concat].
      rewrite length_app, Nat2Z.inj_add. reflexivity. }
    rewrite Hlen in *.
    destruct (inner_loop_lift lo symbol_balances c symbols hi totals Hb Ht H0 H1 Hlo
                ltac:(lia)) as [E W].
    rewrite E.
    destruct (foldM (add_symbol symbol_balances c) symbols totals) as [t1|e];
      cbn [lift_outcome bind]; [|split; [reflexivity|discriminate]].
    destruct (IH (hi + 2 * Z.of_nat (List.length symbols)) t1) as [E' W']; try lia.
    { apply (Forall_within_weaken lo hi); [lia|lia|exact Hb]. }
    { apply W. reflexivity. }
    rewrite E'. split; [reflexivity|]. intros totals' Ht'.
    apply (Forall_within_weaken
             lo (hi + 2 * Z.of_nat (List.length symbols)
                 + 2 * Z.of_nat (List.length (all_symbols categories))));
      [lia|lia|]. apply W', Ht'.
Qed.

Lemma get_category_totals_lift (lo hi : Z) (symbol_balances : dict Decimal)
  (categories : dict (list string)) :
  Forall (fun v => within lo hi v = true) (values symbol_balances) ->
  lo <= 0 -> 1 <= hi -> Full.Etiny <= lo ->
  hi + 2 * Z.of_nat (List.length (all_symbols categories)) <= Full.Emax ->
  Full.get_category_totals (lift symbol_balances) categories
  = lift_outcome lift (get_category_totals symbol_balances categories) /\
  forall totals,
    get_category_totals symbol_balances categories = Ok totals ->
    Forall (fun v => within lo (hi + 2 * Z.of_nat (List.length (all_symbols categories)))
                            v = true)
           (values totals).
Proof.
  intros Hb H0 H1 Hlo Hhi. unfold Full.get_category_totals, get_category_totals.
  cbv zeta.
  replace (map (fun kv : string * list string => (fst kv, Full.zero)) categories)
    with (lift (map (fun kv : string * list string => (fst kv, of_Z 0)) categories))
    by (unfold lift; rewrite map_map; reflexivity).
  apply outer_loop_lift; try assumption.
  apply Forall_forall. intros v Hin. unfold values in Hin. rewrite map_map in Hin.
  apply in_map_iff in Hin. destruct Hin as (kv & <- & _). cbn [snd].
  apply within_zero; lia.
Qed.

(** The analyzer. *)
Lemma current_allocations_lift (lo hi hiT : Z) (category_totals : dict Decimal)
  (target_allocation : dict Full.number) (targets : dict Decimal) :
  keys target_allocation = keys targets ->
  Forall (fun v => within lo hi v = true) (values category_totals) ->
  within lo hiT (total_balance_of category_totals) = true ->
  lo <= 0 -> 1 <= hi -> Full.Etiny <= lo - hiT - 28 -> hi - lo + 1 <= Full.Emax ->
  Full.current_allocations (lift category_totals)
    (Full.Finite (total_balance_of category_totals)) target_allocation
  = lift_outcome lift (current_allocations category_totals targets).
Proof.
  intros Hk Ht HT H0 H1 Hlo Hhi. unfold Full.current_allocations, current_allocations.
  rewrite Hk. apply dict_comp_lift. intros k _. rewrite dict_get_default_lift.
  apply (div_ok lo hi lo hiT); try assumption.
  apply dict_get_default_within; assumption.
Qed.

(** The desired balances. *)
Lemma get_desired_balances_lift (lo hi lo2 hi2 : Z)
  (investment_amount total_balance : Decimal) (target_allocation : dict Decimal) :
  within lo hi investment_amount = true -> within lo hi total_balance = true ->
  Forall (fun v => within lo2 hi2 v = true) (values target_allocation) ->
  Full.Etiny <= lo -> Full.Etiny <= lo + lo2 ->
  hi + 1 <= Full.Emax -> hi + 2 + hi2 <= Full.Emax ->
  Full.get_desired_balances (Full.Finite investment_amount)
    (Full.Finite total_balance) (lift target_allocation)
  = Ok (lift (get_desired_balances investment_amount total_balance target_allocation)) /\
  Forall (fun v => within (lo + lo2) (hi + 2 + hi2 + 1) v = true)
         (values (get_desired_balances investment_amount total_balance
                                       target_allocation)).
Proof.
  intros Hi HT Ht Hlo Hlo2 Hhi Hhi2.
  unfold Full.get_desired_balances, get_desired_balances.
  destruct (add_ok lo hi total_balance investment_amount HT Hi Hlo Hhi) as [E W].
  rewrite E. cbn [bind]. cbv zeta.
  set (N := dec_add total_balance investment_amount) in *. clearbody N.
  induction target_allocation as [|[k t] d IH]; cbn [lift map mapM fst snd values].
  - split; [reflexivity|constructor].
  - inversion Ht as [|? ? Hd Ht']; subst.
    destruct (mul_ok lo (hi + 2) lo2 hi2 N t W Hd Hlo2 Hhi2) as [Em Wm].
    rewrite Em. cbn [bind]. destruct (IH Ht') as [E' W'].
    unfold lift in E'. rewrite E'. cbn [bind]. split; [reflexivity|].
    constructor; assumption.
Qed.

(** The needed investments. *)
Lemma needed_investments_lift (lo hi : Z) (desired totals : dict Decimal)
  (categories : dict (list string)) :
  Forall (fun v => within lo hi v = true) (values desired) ->
  Forall (fun v => within lo hi v = true) (values totals) ->
  lo <= 0 -> 1 <= hi -> Full.Etiny <= lo -> hi + 1 <= Full.Emax ->
  Full.needed_investments_of (lift desired) (lift totals) categories
  = lift_outcome lift (needed_investments_of desired totals categories) /\
  forall needed0,
    needed_investments_of desired totals categories = Ok needed0 ->
    Forall (fun v => within lo (hi + 2) v = true) (values needed0).
Proof.
  intros Hd Ht H0 H1 Hlo Hhi. unfold Full.needed_investments_of, needed_investments_of.
  rewrite Forall_forall in Hd, Ht. split.
  - apply dict_comp_lift. intros k _. rewrite !dict_getitem_lift. unfold dict_getitem.
    destruct (dict_get desired k) as [dv|] eqn:Ed; cbn [lift_outcome bind];
      [|reflexivity].
    destruct (dict_get totals k) as [tv|] eqn:Et; cbn [lift_outcome bind];
      [|reflexivity].
    destruct (sub_ok lo hi dv tv) as [E _]; try assumption.
    { apply Hd. eapply dict_get_value; eassumption. }
    { apply Ht. eapply dict_get_value; eassumption. }
    rewrite E. cbn [bind]. apply py_max_ok.
  - intros needed0 Hn. eapply dict_comp_all; [exact Hn|].
    intros k v _ Hg. cbv beta in Hg.
    apply bind_Ok in Hg. destruct Hg as (dv & Hdv & Hg).
    apply bind_Ok in Hg. destruct Hg as (tv & Htv & Hg).
    apply dict_getitem_Ok in Hdv, Htv. injection Hg as <-.
    destruct (sub_ok lo hi dv tv) as [_ W]; try assumption.
    { apply Hd. eapply dict_get_value; eassumption. }
    { apply Ht. eapply dict_get_value; eassumption. }
    apply py_max_within; [exact W|apply within_zero; lia].
Qed.

(** The capping loop, values rewritten once each. *)
Lemma scale_loop_lift (lo hi loT hiT loI hiI : Z)
  (investment_amount total_needed : Decimal) (suf : dict Decimal) :
  within loI hiI investment_amount = true ->
  within loT hiT total_needed = true ->
  Full.Etiny <= lo - hiT - 28 -> hi - loT + 1 <= Full.Emax ->
  Full.Etiny <= loI + (lo - hiT - 28) -> hiI + (hi - loT + 2) <= Full.Emax ->
  forall pre : dict Decimal,
  NoDup (keys (pre ++ suf)) ->
  Forall (fun v => within lo hi v = true) (values suf) ->
  Forall (fun v => within (loI + (lo - hiT - 28)) (hiI + (hi - loT + 2) + 1) v = true)
         (values pre) ->
  foldM (Full.scale_category (Full.Finite investment_amount)
                             (Full.Finite total_needed))
        (keys suf) (lift (pre ++ suf))
  = lift_outcome lift
      (foldM (scale_category investment_amount total_needed) (keys suf) (pre ++ suf)) /\
  forall d,
    foldM (scale_category investment_amount total_needed) (keys suf) (pre ++ suf)
    = Ok d ->
    Forall (fun v => within (loI + (lo - hiT - 28)) (hiI + (hi - loT + 2) + 1) v = true)
           (values d).
Proof.
  intros HI HT C1 C2 C3 C4.
  induction suf as [|[k v] suf IH]; intros pre Hnd Hsuf Hpre.
  - cbn [keys map foldM]. rewrite app_nil_r. split; [reflexivity|].
    intros d [= <-]. exact Hpre.
  - cbn [keys map fst foldM].
    assert (Hk : ~ In k (keys pre)).
    { unfold keys in *. rewrite map_app in Hnd. cbn [map fst] in Hnd.
      apply NoDup_remove_2 in Hnd. intros Hin. apply Hnd.
      apply in_or_app. now left. }
    inversion Hsuf as [|? ? Hv Hsuf']; subst.
    unfold Full.scale_category at 1, scale_category at 1 3.
    rewrite dict_getitem_lift. unfold dict_getitem.
    rewrite (dict_get_middle pre suf k v Hk). cbn [lift_outcome bind].
    destruct (div_ok lo hi loT hiT v total_needed Hv HT C1 C2) as [Ed Wd].
    rewrite Ed.
    destruct (dec_div v total_needed) as [share|e]; cbn [lift_outcome bind];
      [|split; [reflexivity|discriminate]].
    specialize (Wd share eq_refl).
    destruct (mul_ok loI hiI _ _ investment_amount share HI Wd C3 C4) as [Em Wm].
    rewrite Em. cbn [bind]. rewrite dict_set_lift.
    rewrite (dict_set_middle pre suf k v _ Hk).
    specialize (IH (pre ++ [(k, dec_mul investment_amount share)])).
    rewrite <- !app_assoc in IH. cbn [app] in IH. apply IH.
    + unfold keys in *. rewrite !map_app in *. cbn [map fst] in *. exact Hnd.
    + exact Hsuf'.
    + unfold values. rewrite map_app. apply Forall_app. split; [exact Hpre|].
      cbn [map snd]. constructor; [exact Wm|constructor].
Qed.

Lemma cap_investments_lift (lo hi loI hiI : Z)
  (investment_amount : Decimal) (needed0 : dict Decimal) :
  let hiT := hi + 2 * Z.of_nat (List.length needed0) in
  within loI hiI investment_amount = true ->
  NoDup (keys needed0) ->
  Forall (fun v => within lo hi v = true) (values needed0) ->
  lo <= 0 -> 1 <= hi -> Full.Etiny <= lo -> hiT <= Full.Emax ->
  Full.Etiny <= lo - hiT - 28 -> hi - lo + 1 <= Full.Emax ->
  Full.Etiny <= loI + (lo - hiT - 28) -> hiI + (hi - lo + 2) <= Full.Emax ->
  loI + (lo - hiT - 28) <= lo -> hi <= hiI + (hi - lo + 2) + 1 ->
  Full.cap_investments (Full.Finite investment_amount) (lift needed0)
  = lift_outcome lift (cap_investments investment_amount needed0) /\
  forall needed,
    cap_investments investment_amount needed0 = Ok needed ->
    Forall (fun v => within (loI + (lo - hiT - 28)) (hiI + (hi - lo + 2) + 1) v = true)
           (values needed).
Proof.
  intros hiT HI Hnd Hn H0 H1 Hlo HhiT C1 C2 C3 C4 C5 C6.
  unfold Full.cap_investments, cap_investments.
  rewrite values_lift.
  destruct (py_sum_ok lo hi (values needed0) Hn H0 H1 Hlo) as [Es Ws].
  { unfold values. rewrite length_map. exact HhiT. }
  unfold values in Ws at 1. rewrite length_map in Ws. fold hiT in Ws.
  rewrite Es. cbn [bind Full.gt Full.lt]. cbv zeta.
  destruct (dec_lt investment_amount (py_sum (values needed0))).
  - rewrite keys_lift.
    apply (scale_loop_lift lo hi lo hiT loI hiI investment_amount
             (py_sum (values needed0)) needed0 HI Ws C1 C2 C3 C4 []
             Hnd Hn (Forall_nil _)).
  - cbn [lift_outcome]. split; [reflexivity|]. intros needed [= <-].
    apply (Forall_within_weaken lo hi); [exact C5|exact C6|exact Hn].
Qed.

(** The resulting totals. *)
Lemma resulting_totals_lift (lo hi : Z) (totals needed : dict Decimal)
  (categories : dict (list string)) :
  Forall (fun v => within lo hi v = true) (values totals) ->
  Forall (fun v => within lo hi v = true) (values needed) ->
  Full.Etiny <= lo -> hi + 1 <= Full.Emax ->
  Full.resulting_totals_of (lift totals) (lift needed) categories
  = lift_outcome lift (resulting_totals_of totals needed categories) /\
  forall resulting,
    resulting_totals_of totals needed categories = Ok resulting ->
    Forall (fun v => within lo (hi + 2) v = true) (values resulting).
Proof.
  intros Ht Hn Hlo Hhi. unfold Full.resulting_totals_of, resulting_totals_of.
  rewrite Forall_forall in Ht, Hn. split.
  - apply dict_comp_lift. intros k _. rewrite !dict_getitem_lift. unfold dict_getitem.
    destruct (dict_get totals k) as [tv|] eqn:Et; cbn [lift_outcome bind];
      [|reflexivity].
    destruct (dict_get needed k) as [nv|] eqn:En; cbn [lift_outcome bind];
      [|reflexivity].
    destruct (add_ok lo hi tv nv) as [E _]; try assumption.
    { apply Ht. eapply dict_get_value; eassumption. }
    { apply Hn. eapply dict_get_value; eassumption. }
  - intros resulting Hr. eapply dict_comp_all; [exact Hr|].
    intros k v _ Hg. cbv beta in Hg.
    apply bind_Ok in Hg. destruct Hg as (tv & Htv & Hg).
    apply bind_Ok in Hg. destruct Hg as (nv & Hnv & Hg).
    apply dict_getitem_Ok in Htv, Hnv. injection Hg as <-.
    destruct (add_ok lo hi tv nv) as [_ W]; try assumption.
    { apply Ht. eapply dict_get_value; eassumption. }
    { apply Hn. eapply dict_get_value; eassumption. }
Qed.

(** The resulting allocations. *)
Lemma resulting_allocations_lift (lo hi : Z) (resulting : dict Decimal)
  (categories : dict (list string)) :
  let hiT := hi + 2 * Z.of_nat (List.length resulting) in
  Forall (fun v => within lo hi v = true) (values resulting) ->
  lo <= 0 -> 1 <= hi -> Full.Etiny <= lo -> hiT <= Full.Emax ->
  Full.Etiny <= lo - hiT - 28 -> hi - lo + 1 <= Full.Emax ->
  Full.resulting_allocations_of (lift resulting) categories
  = lift_outcome lift (resulting_allocations_of resulting categories).
Proof.
  intros hiT Hr H0 H1 Hlo HhiT C1 C2.
  unfold Full.resulting_allocations_of, resulting_allocations_of.
  rewrite values_lift.
  destruct (py_sum_ok lo hi (values resulting) Hr H0 H1 Hlo) as [Es Ws].
  { unfold values. rewrite length_map. exact HhiT. }
  unfold values in Ws at 1. rewrite length_map in Ws. fold hiT in Ws.
  rewrite Es. cbn [bind]. cbv zeta.
  apply dict_comp_lift. intros k _. rewrite dict_getitem_lift. unfold dict_getitem.
  destruct (dict_get resulting k) as [rv|] eqn:Er; cbn [lift_outcome bind];
    [|reflexivity].
  apply (div_ok lo hi lo hiT); try assumption.
  rewrite Forall_forall in Hr. apply Hr. eapply dict_get_value; eassumption.
Qed.

Lemma forallb_moderate (l : list Decimal) :
  forallb moderate l = true ->
  Forall (fun v => within (-10000) 10000 v = true) l.
Proof. intros H. apply Forall_forall. rewrite forallb_forall in H. exact H. Qed.

Lemma dict_comp_length {V : Type} (g : string -> result V) (ks : list string)
  (d : dict V) :
  dict_comp g ks = Ok d -> List.length d = List.length ks.
Proof.
  intros H. apply dict_comp_keys in H. rewrite <- H. symmetry. apply keys_length.
Qed.

(** Lines 128-154. *)
Lemma distribute_totals_lift (investment_amount : Decimal)
  (category_totals target_allocation : dict Decimal)
  (categories : dict (list string)) :
  is_dict categories = true ->
  Z.of_nat (List.length categories) <= 10000 ->
  within (-10000) 10000 investment_amount = true ->
  Forall (fun v => within (-10000) 10000 v = true) (values target_allocation) ->
  Forall (fun v => within (-10000) 30000 v = true) (values category_totals) ->
  within (-10000) 50000 (total_balance_of category_totals) = true ->
  Full.distribute_totals (Full.Finite investment_amount) (lift category_totals)
    (Full.Finite (total_balance_of category_totals)) (lift target_allocation)
    categories
  = lift_outcome (fun nr => (lift (fst nr), lift (snd nr)))
      (distribute_totals investment_amount category_totals target_allocation
                         categories) /\
  forall needed resulting,
    distribute_totals investment_amount category_totals target_allocation categories
    = Ok (needed, resulting) ->
    Forall (fun v => within (-110033) 90010 v = true) (values resulting) /\
    List.length resulting = List.length categories.
Proof.
  intros Hd Hm HI Htg Ht HT.
  pose proof (proj1 (nodupb_NoDup _) Hd) as Hnd.
  unfold Full.distribute_totals, distribute_totals. cbv zeta.
  destruct (get_desired_balances_lift (-10000) 50000 (-10000) 10000
              investment_amount (total_balance_of category_totals) target_allocation)
    as [Ed Wd]; try assumption;
    try (unfold Full.Etiny, Full.Emin, Full.Emax, prec; lia).
  { apply (within_weaken (-10000) 10000); [lia|lia|exact HI]. }
  rewrite Ed. cbn [bind].
  set (desired := get_desired_balances investment_amount
                    (total_balance_of category_totals) target_allocation) in *.
  clearbody desired.
  destruct (needed_investments_lift (-20000) 60003 desired category_totals categories)
    as [En Wn]; try (unfold Full.Etiny, Full.Emin, Full.Emax, prec; lia).
  { apply (Forall_within_weaken (-10000 + -10000) (50000 + 2 + 10000 + 1));
      [lia|lia|exact Wd]. }
  { apply (Forall_within_weaken (-10000) 30000); [lia|lia|exact Ht]. }
  rewrite En.
  destruct (needed_investments_of desired category_totals categories)
    as [needed0|e] eqn:E0; cbn [lift_outcome bind];
    [|split; [reflexivity|discriminate]].
  specialize (Wn needed0 eq_refl).
  pose proof (dict_comp_keys _ _ _ E0) as Hk0.
  pose proof (dict_comp_length _ _ _ E0) as Hl0.
  rewrite keys_length in Hl0.
  destruct (cap_investments_lift (-20000) (60003 + 2) (-10000) 10000
              investment_amount needed0) as [Ec Wc]; try assumption;
    try (unfold Full.Etiny, Full.Emin, Full.Emax, prec; lia).
  { rewrite Hk0. exact Hnd. }
  rewrite Ec.
  destruct (cap_investments investment_amount needed0) as [needed|e] eqn:E1;
    cbn [lift_outcome bind]; [|split; [reflexivity|discriminate]].
  specialize (Wc needed eq_refl).
  destruct (resulting_totals_lift (-110033) 90008 category_totals needed categories)
    as [Er Wr]; try (unfold Full.Etiny, Full.Emin, Full.Emax, prec; lia).
  { apply (Forall_within_weaken (-10000) 30000); [lia|lia|exact Ht]. }
  { eapply Forall_within_weaken; [| |exact Wc]; lia. }
  rewrite Er.
  destruct (resulting_totals_of category_totals needed categories)
    as [resulting|e] eqn:E2; cbn [lift_outcome bind fst snd];
    [|split; [reflexivity|discriminate]].
  split; [reflexivity|]. intros needed' resulting' [= <- <-].
  split; [exact (Wr resulting eq_refl)|].
  rewrite (dict_comp_length _ _ _ E2). apply keys_length.
Qed.

(** Lines 128-161. *)
Lemma distribute_lift (investment_amount : Decimal)
  (category_totals target_allocation : dict Decimal)
  (categories : dict (list string)) :
  is_dict categories = true ->
  Z.of_nat (List.length categories) <= 10000 ->
  within (-10000) 10000 investment_amount = true ->
  Forall (fun v => within (-10000) 10000 v = true) (values target_allocation) ->
  Forall (fun v => within (-10000) 30000 v = true) (values category_totals) ->
  within (-10000) 50000 (total_balance_of category_totals) = true ->
  Full.distribute (Full.Finite investment_amount) (lift category_totals)
    (Full.Finite (total_balance_of category_totals)) (lift target_allocation)
    categories
  = lift_outcome lift_distribution
      (distribute investment_amount category_totals target_allocation categories).
Proof.
  intros Hd Hm HI Htg Ht HT.
  destruct (distribute_totals_lift investment_amount category_totals target_allocation
              categories Hd Hm HI Htg Ht HT) as [E W].
  unfold Full.distribute, distribute. rewrite E.
  destruct (distribute_totals investment_amount category_totals target_allocation
              categories) as [[needed resulting]|e];
    cbn [lift_outcome bind fst snd]; [|reflexivity].
  destruct (W needed resulting eq_refl) as [Wr Hl].
  rewrite (resulting_allocations_lift (-110033) 90010 resulting categories Wr);
    try (cbv zeta; rewrite ?Hl; unfold Full.Etiny, Full.Emin, Full.Emax, prec; lia).
  destruct (resulting_allocations_of resulting categories); reflexivity.
Qed.

(** [sum] over the balances, the total balance and the analyzer, then the
    distributor. *)
Lemma main_lift (symbol_balances : dict Decimal) (categories : dict (list string))
  (target_allocation : dict Decimal) (investment_amount : Decimal) :
  is_dict categories = true ->
  Z.of_nat (List.length categories + List.length (all_symbols categories)) <= 10000 ->
  Z.of_nat (List.length symbol_balances) <= 10000 ->
  within (-10000) 10000 investment_amount = true ->
  Forall (fun v => within (-10000) 10000 v = true) (values target_allocation) ->
  Forall (fun v => within (-10000) 10000 v = true) (values symbol_balances) ->
  Full.main (lift symbol_balances) categories (lift target_allocation)
            (Full.Finite investment_amount)
  = lift_outcome lift_distribution
      (main symbol_balances categories target_allocation investment_amount).
Proof.
  intros Hd Hsmall Hb HI Htg Hbal.
  rewrite Nat2Z.inj_add in Hsmall.
  unfold Full.main, main.
  destruct (get_category_totals_lift (-10000) 10000 symbol_balances categories Hbal)
    as [Ea Wa]; try (unfold Full.Etiny, Full.Emin, Full.Emax, prec; lia).
  rewrite Ea.
  destruct (get_category_totals symbol_balances categories) as [totals|e] eqn:Et;
    cbn [lift_outcome bind]; [|reflexivity].
  specialize (Wa totals eq_refl).
  assert (Hkt : List.length totals = List.length categories).
  { rewrite (get_category_totals_closed _ _ Hd) in Et. injection Et as <-.
    apply length_map. }
  rewrite values_lift.
  destruct (py_sum_ok (-10000) 10000 (values symbol_balances) Hbal) as [Es _];
    try (unfold values; rewrite ?length_map;
         unfold Full.Etiny, Full.Emin, Full.Emax, prec; lia).
  rewrite Es. cbn [bind].
  assert (Wt : Forall (fun v => within (-10000) 30000 v = true) (values totals)).
  { eapply Forall_within_weaken; [| |exact Wa]; lia. }
  unfold Full.total_balance_of. rewrite values_lift.
  destruct (py_sum_ok (-10000) 30000 (values totals) Wt) as [ET WT];
    try (unfold values; rewrite ?length_map;
         unfold Full.Etiny, Full.Emin, Full.Emax, prec; lia).
  rewrite ET. cbn [bind]. fold (total_balance_of totals) in WT |- *.
  assert (WT' : within (-10000) 50000 (total_balance_of totals) = true).
  { eapply within_weaken; [| |exact WT]; [lia|].
    unfold values. rewrite length_map. lia. }
  rewrite (current_allocations_lift (-10000) 30000 50000 totals
             (lift target_allocation) target_allocation (keys_lift _) Wt WT');
    try (unfold Full.Etiny, Full.Emin, Full.Emax, prec; lia).
  destruct (current_allocations totals target_allocation);
    cbn [lift_outcome bind]; [|reflexivity].
  apply distribute_lift; try assumption. lia.
Qed.
End Lifting.

(** [X19] On finite decimals of moderate size, with exponents of at least
    -10000 and values below [10 ^ 10000], and for at most 10000 balances,
    and categories and listed symbols together, the run of [main] in the
    full arithmetic, with its special values and its exponent limits, is its
    run in the arithmetic of [Dec]: the same recommendation or the same
    exception, and no [Overflow]. *)
Theorem Full_main_moderate
  (symbol_balances : dict Decimal) (categories : dict (list string))
  (target_allocation : dict Decimal) (investment_amount : Decimal) :
  is_dict categories = true ->
  small categories = true ->
  (Z.of_nat (List.length symbol_balances) <=? 10000) = true ->
  forallb moderate (values symbol_balances) = true ->
  forallb moderate (values target_allocation) = true ->
  moderate investment_amount = true ->
  Full.main (lift symbol_balances) categories (lift target_allocation)
            (Full.Finite investment_amount)
  = lift_outcome lift_distribution
      (main symbol_balances categories target_allocation investment_amount).
Proof.
  intros Hd Hs Hb Hbal Htg HI. unfold small in Hs.
  apply Z.leb_le in Hs, Hb.
  apply main_lift; try assumption; apply forallb_moderate; assumption.
Qed.

Lemma Full_main_moderate_witness :
  Full.main (lift [("VTI", of_Z 900); ("BND", of_Z 100)]%string)
            [("Stocks", ["VTI"]); ("Bonds", ["BND"])]%string
            (lift [("Stocks", mkDec 5 (-1)); ("Bonds", mkDec 5 (-1))]%string)
            (Full.Finite (of_Z 100))
  = lift_outcome lift_distribution
      (main [("VTI", of_Z 900); ("BND", of_Z 100)]%string
            [("Stocks", ["VTI"]); ("Bonds", ["BND"])]%string
            [("Stocks", mkDec 5 (-1)); ("Bonds", mkDec 5 (-1))]%string
            (of_Z 100)).
Proof.
  apply (Full_main_moderate
           [("VTI", of_Z 900); ("BND", of_Z 100)]%string
           [("Stocks", ["VTI"]); ("Bonds", ["BND"])]%string
           [("Stocks", mkDec 5 (-1)); ("Bonds", mkDec 5 (-1))]%string
           (of_Z 100));
    reflexivity.
Defined.
